(** * Root-confined materialisation of image layers: pkg/chunked/filesystem_linux.go

    A shallow embedding of the Go file [pkg/chunked/filesystem_linux.go].
    Every function of the file that touches the operating system is a
    program over the system calls it issues ([prog]); a run of a program
    against a kernel ([run]) yields the calls that were issued, in order,
    together with what each returned.  The kernel is a parameter: a theorem
    about a run holds whatever the kernel answers, unless it is about what a
    call does to a file, where it names the kernel it is stated for. *)

From Stdlib Require Import ZArith List String Ascii Bool Lia DecimalString.
From Stdlib Require DecimalPos DecimalZ.
Import ListNotations.

Open Scope string_scope.
Open Scope Z_scope.
Open Scope list_scope.

(** ** Go integers

    [int] and [int64] are 64 bits wide and signed, [uintptr] and [uint64]
    are 64 bits wide and unsigned, [uint32] is 32 bits wide (linux/amd64).
    A conversion keeps the low bits. *)

Definition maxInt64 : Z := 2 ^ 63 - 1.

Definition to_int64 (z : Z) : Z := (z + 2 ^ 63) mod 2 ^ 64 - 2 ^ 63.
Definition to_int (z : Z) : Z := to_int64 z.
Definition to_uint64 (z : Z) : Z := z mod 2 ^ 64.
Definition to_uintptr (z : Z) : Z := z mod 2 ^ 64.
Definition to_uint32 (z : Z) : Z := z mod 2 ^ 32.

(** ** Constants of golang.org/x/sys/unix (linux/amd64) *)

Module unix.
Definition O_RDONLY : Z := 0.
Definition O_WRONLY : Z := 1.
Definition O_CREAT : Z := 64.
Definition O_EXCL : Z := 128.
Definition O_TRUNC : Z := 512.
Definition O_DIRECTORY : Z := 65536.
Definition O_NOFOLLOW : Z := 131072.
Definition O_CLOEXEC : Z := 524288.
Definition O_PATH : Z := 2097152.
Definition AT_FDCWD : Z := -100.
Definition AT_SYMLINK_NOFOLLOW : Z := 256.
Definition AT_SYMLINK_FOLLOW : Z := 1024.
Definition RESOLVE_IN_ROOT : Z := 16.
(* errno values *)
Definition EPERM : Z := 1.
Definition ENOENT : Z := 2.
Definition EBADF : Z := 9.
Definition EACCES : Z := 13.
Definition EEXIST : Z := 17.
Definition EXDEV : Z := 18.
Definition EINVAL : Z := 22.
Definition ENOSYS : Z := 38.
Definition ENOTEMPTY : Z := 39.
Definition ELOOP : Z := 40.
Definition ENOTSUP : Z := 95.
End unix.

(** ** Go errors

    An [error] value is [nil] ([None] below) or one of the error values the
    file meets: a [syscall.Errno], a message made by [errors.New] or by
    [fmt.Errorf] without a wrapped error, a [fmt.Errorf] with one [%w]
    verb, the [*fs.PathError] that [os.Stat] and [os.Readlink] return, the
    [base64.CorruptInputError] of the decoder.  A formatted message is kept
    as its format string with its arguments. *)

Inductive fmtArg : Type :=
| ArgString (s : string)
| ArgInt (z : Z)
| ArgBytes (b : list Z).

Inductive error : Type :=
| Errno (n : Z)
| ErrorsNew (msg : string)
| ErrorfMsg (format : string) (args : list fmtArg)
| Errorf (format : string) (args : list fmtArg) (wrapped : error)
| PathError (op path : string) (err : error)
| CorruptInputError (offset : Z).

(** [errors.Is(err, target)] for a target that is an errno: some error of
    the [Unwrap] chain is that errno. *)
Fixpoint errors_Is (err : error) (target : Z) : bool :=
  match err with
  | Errno n => n =? target
  | Errorf _ _ w => errors_Is w target
  | PathError _ _ e => errors_Is e target
  | ErrorsNew _ | ErrorfMsg _ _ | CorruptInputError _ => false
  end.

(** [os.IsExist(err)]: unwraps a [*PathError] (and nothing made by [fmt]),
    then asks whether the errno is [EEXIST] or [ENOTEMPTY]. *)
Definition os_IsExist (err : error) : bool :=
  match err with
  | Errno n => (n =? unix.EEXIST) || (n =? unix.ENOTEMPTY)
  | PathError _ _ (Errno n) => (n =? unix.EEXIST) || (n =? unix.ENOTEMPTY)
  | _ => false
  end.

(** The result of a call that returns a value or fails. *)
Inductive result (A : Type) : Type :=
| Ok (a : A)
| Err (e : error).
Arguments Ok {A} a.
Arguments Err {A} e.

(** ** Strings and paths of the Go standard library *)

(** [fmt.Sprintf("%d", z)]. *)
Definition itoa (z : Z) : string := NilZero.string_of_int (Z.to_int z).

(** [strings.HasPrefix(s, prefix)]. *)
Definition strings_HasPrefix (s pre : string) : bool := String.prefix pre s.

Definition slash : ascii := "/"%char.
Definition dot : ascii := "."%char.

(** [splitLast acc cur s] walks [s] and returns it cut after its last
    separator: [acc] is what lies up to the last separator seen, [cur] what
    follows it (both reversed). *)
Fixpoint splitLast (acc cur : list ascii) (s : list ascii) : list ascii * list ascii :=
  match s with
  | [] => (rev acc, rev cur)
  | c :: s' =>
      if Ascii.eqb c slash then splitLast (c :: cur ++ acc) [] s'
      else splitLast acc (c :: cur) s'
  end.

(** [filepath.Split(path)]: [path[:i+1], path[i+1:]] for the last
    separator [i]. *)
Definition filepath_Split (path : string) : string * string :=
  let (d, f) := splitLast [] [] (list_ascii_of_string path) in
  (string_of_list_ascii d, string_of_list_ascii f).

(** The elements of a path between separators. *)
Fixpoint elements (cur : list ascii) (s : list ascii) : list (list ascii) :=
  match s with
  | [] => [rev cur]
  | c :: s' =>
      if Ascii.eqb c slash then rev cur :: elements [] s'
      else elements (c :: cur) s'
  end.

Definition is_dot (e : list ascii) : bool :=
  match e with [c] => Ascii.eqb c dot | _ => false end.
Definition is_dotdot (e : list ascii) : bool :=
  match e with [c; d] => Ascii.eqb c dot && Ascii.eqb d dot | _ => false end.

(** The loop of [filepath.Clean] over the elements of the path; [out] is
    the output so far, last element first.  [..] removes the last element
    unless there is none to remove, in which case a rooted path drops it
    and a relative path keeps it. *)
Fixpoint cleanElements (rooted : bool) (out : list (list ascii)) (es : list (list ascii))
  : list (list ascii) :=
  match es with
  | [] => rev out
  | e :: es' =>
      match e with
      | [] => cleanElements rooted out es'
      | _ =>
          if is_dot e then cleanElements rooted out es'
          else if is_dotdot e then
            match out with
            | top :: out' =>
                if is_dotdot top then cleanElements rooted (e :: out) es'
                else cleanElements rooted out' es'
            | [] =>
                if rooted then cleanElements rooted out es'
                else cleanElements rooted (e :: out) es'
            end
          else cleanElements rooted (e :: out) es'
      end
  end.

Fixpoint joinElements (es : list (list ascii)) : list ascii :=
  match es with
  | [] => []
  | [e] => e
  | e :: es' => e ++ slash :: joinElements es'
  end.

(** [filepath.Clean(path)]. *)
Definition filepath_Clean (path : string) : string :=
  match list_ascii_of_string path with
  | [] => "."
  | (c :: _) as s =>
      let rooted := Ascii.eqb c slash in
      let body := joinElements (cleanElements rooted [] (elements [] s)) in
      match rooted, body with
      | true, _ => String slash (string_of_list_ascii body)
      | false, [] => "."
      | false, _ => string_of_list_ascii body
      end
  end.

(** [filepath.Dir(path)]: [Clean] of the path up to and including its last
    separator. *)
Definition filepath_Dir (path : string) : string :=
  filepath_Clean (fst (filepath_Split path)).

Fixpoint dropWhileSlash (s : list ascii) : list ascii :=
  match s with
  | c :: s' => if Ascii.eqb c slash then dropWhileSlash s' else s
  | [] => []
  end.

(** [filepath.Base(path)]: the last element of the path, trailing
    separators removed; ["."] for the empty path, ["/"] for a path of
    separators only. *)
Definition filepath_Base (path : string) : string :=
  match list_ascii_of_string path with
  | [] => "."
  | s =>
      let stripped := rev (dropWhileSlash (rev s)) in
      match snd (splitLast [] [] stripped) with
      | [] => "/"
      | b => string_of_list_ascii b
      end
  end.

(** ** Values of the operating-system interface *)

(** What [os.Stat] reports of a file, as far as this file reads it. *)
Record FileInfo : Type := mkFileInfo { Size : Z; StMode : Z }.

(** [unix.Timespec]. *)
Record Timespec : Type := mkTimespec { Sec : Z; Nsec : Z }.

(** [unix.OpenHow], the argument of [openat2]. *)
Record OpenHow : Type := mkOpenHow { Flags : Z; Mode : Z; Resolve : Z }.

(** [*os.File]: [None] is the nil pointer; a file that was closed holds
    the descriptor [-1]. *)
Record osFile : Type := mkFile { sysfd : Z; fname : string }.

(** [f.Fd()], of type [uintptr]: all ones for the nil file, otherwise the
    descriptor converted to [uintptr]. *)
Definition File_Fd (f : option osFile) : Z :=
  match f with
  | None => 2 ^ 64 - 1
  | Some f => to_uintptr (sysfd f)
  end.

(** [os.NewFile(fd, name)]: nil when the descriptor, read as an [int], is
    negative. *)
Definition os_NewFile (fd : Z) (name : string) : option osFile :=
  if to_int fd <? 0 then None else Some (mkFile (to_int fd) name).

(** ** System calls

    The calls the file makes into the kernel and into libraries that act on
    the file system, each with the type of what it returns.  [SecureJoin]
    (github.com/cyphar/filepath-securejoin) and [CopyRegularToFile]
    (drivers/copy) are calls of this kind: they read and write the file
    system, and what they answer is the kernel's business. *)

Inductive syscall : Type -> Type :=
| os_Stat (path : string) : syscall (result FileInfo)
| os_Readlink (path : string) : syscall (result string)
| securejoin_SecureJoin (root unsafePath : string) : syscall (result string)
| unix_Open (path : string) (flags perm : Z) : syscall (result Z)
| unix_Openat (dirfd : Z) (path : string) (flags perm : Z) : syscall (result Z)
| unix_Openat2 (dirfd : Z) (path : string) (how : OpenHow) : syscall (result Z)
| unix_Dup (fd : Z) : syscall (result Z)
| unix_Close (fd : Z) : syscall (option error)
| unix_Linkat (olddirfd : Z) (oldpath : string) (newdirfd : Z) (newpath : string) (flags : Z)
  : syscall (option error)
| unix_Unlinkat (dirfd : Z) (path : string) (flags : Z) : syscall (option error)
| unix_Mkdirat (dirfd : Z) (path : string) (perm : Z) : syscall (option error)
| unix_Fchown (fd uid gid : Z) : syscall (option error)
| unix_Fchownat (dirfd : Z) (path : string) (uid gid flags : Z) : syscall (option error)
| unix_Fsetxattr (fd : Z) (attr : string) (data : list Z) (flags : Z) : syscall (option error)
| unix_UtimesNanoAt (dirfd : Z) (path : string) (ts : list Timespec) (flags : Z)
  : syscall (option error)
| unix_Fchmod (fd perm : Z) : syscall (option error)
| unix_Fchmodat (dirfd : Z) (path : string) (perm flags : Z) : syscall (option error)
| unix_Seek (fd offset whence : Z) : syscall (result Z)
| unix_Ftruncate (fd length : Z) : syscall (option error)
| driversCopy_CopyRegularToFile (srcPath : string) (dstFile : option osFile) (st : FileInfo)
    (copyWithFileRange copyWithFileClone : bool)
  : syscall (option error).

(** ** Programs

    A program returns, makes a system call and goes on with its answer,
    reads or writes the package variable [skipOpenat2], or exhausts the
    goroutine's stack (Go ends the process with a fatal error). *)

Inductive prog (A : Type) : Type :=
| Ret (a : A)
| Sys {X : Type} (c : syscall X) (k : X -> prog A)
| LoadSkipOpenat2 (k : Z -> prog A)
| StoreSkipOpenat2 (v : Z) (k : prog A)
| StackOverflow.
Arguments Ret {A} a.
Arguments Sys {A X} c k.
Arguments LoadSkipOpenat2 {A} k.
Arguments StoreSkipOpenat2 {A} v k.
Arguments StackOverflow {A}.

Fixpoint bind {A B : Type} (p : prog A) (f : A -> prog B) : prog B :=
  match p with
  | Ret a => f a
  | Sys c k => Sys c (fun x => bind (k x) f)
  | LoadSkipOpenat2 k => LoadSkipOpenat2 (fun v => bind (k v) f)
  | StoreSkipOpenat2 v k => StoreSkipOpenat2 v (bind k f)
  | StackOverflow => StackOverflow
  end.

Definition call {X : Type} (c : syscall X) : prog X := Sys c Ret.
Definition atomic_LoadInt32_skipOpenat2 : prog Z := LoadSkipOpenat2 Ret.
Definition atomic_StoreInt32_skipOpenat2 (v : Z) : prog unit := StoreSkipOpenat2 v (Ret tt).

Declare Scope prog_scope.
Delimit Scope prog_scope with prog.
Notation "x <- p ;; q" := (bind p (fun x => q))
  (at level 61, p at next level, right associativity) : prog_scope.
Notation "' pat <- p ;; q" := (bind p (fun x => match x with pat => q end))
  (at level 61, pat pattern, p at next level, right associativity) : prog_scope.
Notation "p ;;; q" := (bind p (fun _ => q))
  (at level 61, right associativity) : prog_scope.
Open Scope prog_scope.

(** ** Runs

    What a run leaves behind: the system calls with their answers and the
    accesses to [skipOpenat2], in the order they happened. *)

Inductive event : Type :=
| Called {X : Type} (c : syscall X) (r : X)
| LoadedSkipOpenat2 (v : Z)
| StoredSkipOpenat2 (v : Z).

(** A kernel answers every call from its state and moves to a new state. *)
Definition kernel (K : Type) : Type := forall X : Type, syscall X -> K -> X * K.

(** The process: the kernel it runs on and its variable [skipOpenat2]. *)
Record process (K : Type) : Type := mkProcess { kern : K; skipOpenat2 : Z }.
Arguments mkProcess {K} kern skipOpenat2.
Arguments kern {K} p.
Arguments skipOpenat2 {K} p.

(** [run h p s]: the events of running [p] from [s], the process state at
    the end, and the value returned ([None] for a stack overflow). *)
Fixpoint run {K A : Type} (h : kernel K) (p : prog A) (s : process K)
  : list event * process K * option A :=
  match p with
  | Ret a => ([], s, Some a)
  | Sys c k =>
      let (x, kn) := h _ c (kern s) in
      let '(evs, s', r) := run h (k x) (mkProcess kn (skipOpenat2 s)) in
      (Called c x :: evs, s', r)
  | LoadSkipOpenat2 k =>
      let '(evs, s', r) := run h (k (skipOpenat2 s)) s in
      (LoadedSkipOpenat2 (skipOpenat2 s) :: evs, s', r)
  | StoreSkipOpenat2 v k =>
      let '(evs, s', r) := run h k (mkProcess (kern s) v) in
      (StoredSkipOpenat2 v :: evs, s', r)
  | StackOverflow => ([], s, None)
  end.

(** ** The file's data *)

(** [time.Time] as this file reads it: the zero time, or an instant given
    by its [UnixNano()]. *)
Inductive Time : Type :=
| TimeZero
| TimeAt (unixNano : Z).

(** Modelled from the spec: [internal.FileMetadata], declared in another
    package; the fields of the entry of the table of contents that this file
    reads (entry type, name, link target, numeric owner and group, access
    and modification time, extended attributes with base64 values).
    [Xattrs] is a Go map; the list holds its entries in the order in which
    [range] visits them in the run at hand, so its keys are pairwise
    distinct and any order may occur. *)
Record FileMetadata : Type := mkFileMetadata {
  Type_ : string;
  Name : string;
  Linkname : string;
  UID : Z;
  GID : Z;
  AccessTime : option Time;
  ModTime : option Time;
  Xattrs : list (string * string)
}.

(** [fileMetadata]: the entry with the fields that are not part of the
    table of contents. *)
Record fileMetadata : Type := mkfileMetadata {
  meta : FileMetadata;
  chunks : list FileMetadata;
  skipSetAttrs : bool
}.

Definition set_skipSetAttrs (m : fileMetadata) (b : bool) : fileMetadata :=
  mkfileMetadata (meta m) (chunks m) b.

(** Modelled from the spec: [archive.TarOptions], declared in another
    package; the configuration, of which this file reads whether ownership
    errors are ignored. *)
Record TarOptions : Type := mkTarOptions { IgnoreChownErrors : bool }.

(** [tar.TypeSymlink], the byte ['2']. *)
Definition tar_TypeSymlink : Z := 50.

(** ** The functions of filesystem_linux.go *)

Definition procPathForFd (fd : Z) : string :=
  String.append "/proc/self/fd/" (itoa fd).

Definition procPathForFile (f : option osFile) : string :=
  procPathForFd (to_int (File_Fd f)).

(** [f.Close()]: no system call for the nil file or a closed one. *)
Definition File_Close (f : option osFile) : prog (option error) :=
  match f with
  | None => Ret (Some (ErrorsNew "invalid argument"))
  | Some f =>
      if sysfd f <? 0 then Ret (Some (ErrorsNew "file already closed"))
      else call (unix_Close (sysfd f))
  end.

(** A pair [(value, err)] as x/sys/unix returns it: [-1] with the error. *)
Definition returned (r : result Z) : Z * option error :=
  match r with
  | Ok v => (v, None)
  | Err e => (-1, Some e)
  end.

Definition doHardLink (srcFd destDirFd : Z) (destBase : string) : prog (option error) :=
  let doLink :=
    let srcPath := procPathForFd srcFd in
    call (unix_Linkat unix.AT_FDCWD srcPath destDirFd destBase unix.AT_SYMLINK_FOLLOW) in
  err <- doLink ;;
  match err with
  | Some e =>
      if os_IsExist e then
        call (unix_Unlinkat destDirFd destBase 0) ;;;
        doLink
      else Ret err
  | None => Ret err
  end.

(** [unix.NsecToTimespec]: Go's [/] and [%] truncate towards zero. *)
Definition unix_NsecToTimespec (nsec : Z) : Timespec :=
  let sec := Z.quot nsec 1000000000 in
  let ns := Z.rem nsec 1000000000 in
  if ns <? 0 then mkTimespec (sec - 1) (ns + 1000000000) else mkTimespec sec ns.

Definition timeToTimespec (time : option Time) : Timespec :=
  match time with
  | None | Some TimeZero => mkTimespec 0 (Z.shiftl 1 30 - 2)
  | Some (TimeAt ns) => unix_NsecToTimespec ns
  end.

(** Lines 256-268 of [openFileUnderRootFallback], where its two branches
    meet: read the real path of the descriptor just opened and compare it
    with the root's. *)
Definition checkUnderRoot (name targetRoot : string) (fd : Z) : prog (Z * option error) :=
  r <- call (os_Readlink (procPathForFd fd)) ;;
  match r with
  | Err err =>
      call (unix_Close fd) ;;;
      Ret (-1, Some err)
  | Ok target =>
      if negb (strings_HasPrefix target targetRoot) then
        call (unix_Close fd) ;;;
        Ret (-1, Some (ErrorfMsg "while resolving %q.  It resolves outside the root directory"
                         [ArgString name]))
      else Ret (fd, None)
  end.

Definition openFileUnderRootFallback (dirfd : Z) (name : string) (flags mode : Z)
  : prog (Z * option error) :=
  let root := procPathForFd dirfd in
  r <- call (os_Readlink root) ;;
  match r with
  | Err err => Ret (-1, Some err)
  | Ok targetRoot =>
      let hasNoFollow := negb (Z.land flags unix.O_NOFOLLOW =? 0) in
      if hasNoFollow then
        let (dirName, baseName) := filepath_Split name in
        r <- (if negb (String.eqb dirName "") && negb (String.eqb dirName ".")
              then call (securejoin_SecureJoin root dirName)
              else Ret (Ok root)) ;;
        match r with
        | Err err => Ret (-1, Some err)
        | Ok root =>
            r <- call (unix_Open root (Z.lor unix.O_PATH unix.O_CLOEXEC) 0) ;;
            match r with
            | Err err => Ret (-1, Some err)
            | Ok parentDirfd =>
                (* defer unix.Close(parentDirfd) *)
                res <- (r <- call (unix_Openat parentDirfd baseName (to_int flags)
                                     (to_uint32 mode)) ;;
                        match r with
                        | Err err => Ret (-1, Some err)
                        | Ok fd => checkUnderRoot name targetRoot fd
                        end) ;;
                call (unix_Close parentDirfd) ;;;
                Ret res
            end
        end
      else
        r <- call (securejoin_SecureJoin root name) ;;
        match r with
        | Err err => Ret (-1, Some err)
        | Ok newPath =>
            r <- call (unix_Openat dirfd newPath (to_int flags) (to_uint32 mode)) ;;
            match r with
            | Err err => Ret (-1, Some err)
            | Ok fd => checkUnderRoot name targetRoot fd
            end
        end
  end.

Definition openFileUnderRootOpenat2 (dirfd : Z) (name : string) (flags mode : Z)
  : prog (Z * option error) :=
  let how := mkOpenHow flags (to_uint64 (Z.land mode 4095)) unix.RESOLVE_IN_ROOT in
  r <- call (unix_Openat2 dirfd name how) ;;
  Ret (returned r).

Definition openFileUnderRootRaw (dirfd : Z) (name : string) (flags mode : Z)
  : prog (Z * option error) :=
  if String.eqb name "" then
    r <- call (unix_Dup dirfd) ;;
    Ret (returned r)
  else
    skip <- atomic_LoadInt32_skipOpenat2 ;;
    if skip >? 0 then openFileUnderRootFallback dirfd name flags mode
    else
      '(fd, err) <- openFileUnderRootOpenat2 dirfd name flags mode ;;
      match err with
      | Some e =>
          if errors_Is e unix.ENOSYS then
            atomic_StoreInt32_skipOpenat2 1 ;;;
            openFileUnderRootFallback dirfd name flags mode
          else Ret (fd, err)
      | None => Ret (fd, err)
      end.

(** [depth] bounds the nesting of the recursive calls: Go's stack is
    finite, and the recursion on [filepath.Dir name] stops only when the
    kernel opens an ancestor or refuses it with an error other than
    [ENOENT] ([filepath.Dir "."] is ["."]). *)
Fixpoint openOrCreateDirUnderRoot (depth : nat) (dirfd : Z) (name : string) (mode : Z)
  : prog (option osFile * option error) :=
  match depth with
  | O => StackOverflow
  | S depth' =>
      '(fd, err) <- openFileUnderRootRaw dirfd name (Z.lor unix.O_DIRECTORY unix.O_RDONLY) 0 ;;
      match err with
      | None => Ret (os_NewFile (to_uintptr fd) name, None)
      | Some e =>
          if errors_Is e unix.ENOENT then
            let parent := filepath_Dir name in
            if negb (String.eqb parent "") then
              '(pDir, err2) <- openOrCreateDirUnderRoot depth' dirfd parent mode ;;
              match err2 with
              | Some _ => Ret (None, err)
              | None =>
                  (* defer pDir.Close() *)
                  let baseName := filepath_Base name in
                  err2 <- call (unix_Mkdirat (to_int (File_Fd pDir)) baseName (to_uint32 mode)) ;;
                  match err2 with
                  | Some _ =>
                      File_Close pDir ;;;
                      Ret (None, err)
                  | None =>
                      '(fd, err) <- openFileUnderRootRaw (to_int (File_Fd pDir)) baseName
                                      (Z.lor unix.O_DIRECTORY unix.O_RDONLY) 0 ;;
                      File_Close pDir ;;;
                      match err with
                      | None => Ret (os_NewFile (to_uintptr fd) name, None)
                      | Some _ => Ret (None, err)
                      end
                  end
              end
            else Ret (None, err)
          else Ret (None, err)
      end
  end.

Definition openFileUnderRoot (depth : nat) (dirfd : Z) (name : string) (flags mode : Z)
  : prog (option osFile * option error) :=
  '(fd, err) <- openFileUnderRootRaw dirfd name flags mode ;;
  match err with
  | None => Ret (os_NewFile (to_uintptr fd) name, None)
  | Some e =>
      let failed : prog (option osFile * option error) :=
        Ret (None, Some (Errorf "open %q under the rootfs: %w" [ArgString name] e)) in
      let hasCreate := negb (Z.land flags unix.O_CREAT =? 0) in
      if errors_Is e unix.ENOENT && hasCreate then
        let parent := filepath_Dir name in
        if negb (String.eqb parent "") then
          '(newDirfd, err2) <- openOrCreateDirUnderRoot depth dirfd parent 0 ;;
          match err2 with
          | None =>
              (* defer newDirfd.Close() *)
              '(fd, err) <- openFileUnderRootRaw (to_int (File_Fd newDirfd)) (filepath_Base name)
                              flags mode ;;
              match err with
              | None =>
                  File_Close newDirfd ;;;
                  Ret (os_NewFile (to_uintptr fd) name, None)
              | Some _ =>
                  File_Close newDirfd ;;;
                  failed
              end
          | Some _ => failed
          end
        else failed
      else failed
  end.


(** The rest of the file reads four things that the package declares in
    other files or takes from a library: the flags of a file that must not
    exist yet, the table from entry types to tar type bytes, the set of
    extended attributes that are never restored, and the base64 decoder. *)

Section Materializer.

Variable newFileFlags : Z.
Variable typeToTarType : string -> Z * option error.
Variable xattrsToIgnore : string -> bool.
Variable base64_StdEncoding_DecodeString : string -> result (list Z).

(** Lines 94-105 of [copyFileContent]: a fresh file and a copy of the
    source into it.  [closing] is what the function has deferred by then
    (the close of the destination's directory, if it was opened). *)
Definition copyToFreshFile (depth : nat) (src : string) (st : FileInfo) (fileMeta : fileMetadata)
    (dirfd mode : Z) (closing : prog unit)
  : prog (fileMetadata * (option osFile * Z * option error)) :=
  let destFile := Name (meta fileMeta) in
  '(dstFile, err) <- openFileUnderRoot depth dirfd destFile newFileFlags mode ;;
  match err with
  | Some e =>
      closing ;;;
      Ret (fileMeta,
           (None, -1,
            Some (Errorf "open file %q under rootfs for copy: %w" [ArgString destFile] e)))
  | None =>
      err <- call (driversCopy_CopyRegularToFile src dstFile st true true) ;;
      match err with
      | Some e =>
          File_Close dstFile ;;;
          closing ;;;
          Ret (fileMeta,
               (None, -1,
                Some (Errorf "copy to file %q under rootfs: %w" [ArgString destFile] e)))
      | None =>
          closing ;;;
          Ret (fileMeta, (dstFile, Size st, None))
      end
  end.

Definition copyFileContent (depth : nat) (srcFd : Z) (fileMeta : fileMetadata) (dirfd mode : Z)
    (useHardLinks : bool)
  : prog (fileMetadata * (option osFile * Z * option error)) :=
  let destFile := Name (meta fileMeta) in
  let src := procPathForFd srcFd in
  r <- call (os_Stat src) ;;
  match r with
  | Err err =>
      Ret (fileMeta,
           (None, -1, Some (Errorf "copy file content for %q: %w" [ArgString destFile] err)))
  | Ok st =>
      if useHardLinks then
        let (destDirPath, destBase) := filepath_Split destFile in
        '(destDir, err) <- openFileUnderRoot depth dirfd destDirPath 0 0 ;;
        match err with
        | None =>
            (* defer destDir.Close() *)
            err <- doHardLink srcFd (to_int (File_Fd destDir)) destBase ;;
            match err with
            | None =>
                (* if the file was deduplicated with a hard link, skip overriding file
                   metadata. *)
                File_Close destDir ;;;
                Ret (set_skipSetAttrs fileMeta true, (None, Size st, None))
            | Some _ =>
                copyToFreshFile depth src st fileMeta dirfd mode (File_Close destDir ;;; Ret tt)
            end
        | Some _ => copyToFreshFile depth src st fileMeta dirfd mode (Ret tt)
        end
      else copyToFreshFile depth src st fileMeta dirfd mode (Ret tt)
  end.

Definition canIgnore (err : option error) : bool :=
  match err with
  | None => true
  | Some e => errors_Is e unix.ENOSYS || errors_Is e unix.ENOTSUP
  end.

(** [if err := ...; !canIgnore(err) { return fmt.Errorf(..., err) }], then
    [k]. *)
Definition unlessIgnorable (err : option error) (wrap : error -> error)
    (k : prog (option error)) : prog (option error) :=
  match err with
  | Some e => if canIgnore err then k else Ret (Some (wrap e))
  | None => k
  end.

(** The loop of lines 189-200 over the entries of [metadata.Xattrs]:
    [Some err] when the loop returns [err] from [setFileAttrs], [None] when
    it runs to its end. *)
Fixpoint setXattrs (fd : Z) (name : string) (xattrs : list (string * string))
  : prog (option error) :=
  match xattrs with
  | [] => Ret None
  | (k, v) :: rest =>
      if xattrsToIgnore k then setXattrs fd name rest
      else
        match base64_StdEncoding_DecodeString v with
        | Err err => Ret (Some (Errorf "decode xattr %q: %w" [ArgString v] err))
        | Ok data =>
            err <- call (unix_Fsetxattr fd k data 0) ;;
            unlessIgnorable err
              (Errorf "set xattr %s=%q for %q: %w" [ArgString k; ArgBytes data; ArgString name])
              (setXattrs fd name rest)
        end
  end.

(** Lines 153-209 of [setFileAttrs]: ownership, extended attributes,
    timestamps, mode, once [fd], [dirfd], [baseName] and [usePath] are
    settled. *)
Definition applyAttrs (fd dirfd : Z) (baseName : string) (usePath : bool) (mode : Z)
    (metadata : fileMetadata) (options : TarOptions) : prog (option error) :=
  let md := meta metadata in
  let doChown :=
    if usePath then
      call (unix_Fchownat dirfd baseName (UID md) (GID md) unix.AT_SYMLINK_NOFOLLOW)
    else call (unix_Fchown fd (UID md) (GID md)) in
  let doUtimes :=
    let ts := [timeToTimespec (AccessTime md); timeToTimespec (ModTime md)] in
    if usePath then call (unix_UtimesNanoAt dirfd baseName ts unix.AT_SYMLINK_NOFOLLOW)
    else call (unix_UtimesNanoAt unix.AT_FDCWD (procPathForFd fd) ts 0) in
  let doChmod :=
    if usePath then call (unix_Fchmodat dirfd baseName (to_uint32 mode) unix.AT_SYMLINK_NOFOLLOW)
    else call (unix_Fchmod fd (to_uint32 mode)) in
  let afterChown : prog (option error) :=
    r <- setXattrs fd (Name md) (Xattrs md) ;;
    match r with
    | Some err => Ret (Some err)
    | None =>
        err <- doUtimes ;;
        unlessIgnorable err (Errorf "set utimes for %q: %w" [ArgString (Name md)])
          (err <- doChmod ;;
           unlessIgnorable err (Errorf "chmod %q: %w" [ArgString (Name md)])
             (Ret None))
    end in
  err <- doChown ;;
  match err with
  | Some e =>
      if negb (IgnoreChownErrors options) then
        Ret (Some (Errorf "chown %q to %d:%d: %w"
                     [ArgString (Name md); ArgInt (UID md); ArgInt (GID md)] e))
      else afterChown
  | None => afterChown
  end.

Definition setFileAttrs (depth : nat) (dirfd : Z) (file : option osFile) (mode : Z)
    (metadata : fileMetadata) (options : TarOptions) (usePath : bool) : prog (option error) :=
  if skipSetAttrs metadata then Ret None
  else
    if match file with None => true | Some _ => false end || (File_Fd file <? 0) then
      Ret (Some (ErrorsNew "invalid file"))
    else
      let fd := to_int (File_Fd file) in
      let (t, err) := typeToTarType (Type_ (meta metadata)) in
      match err with
      | Some _ => Ret err
      | None =>
          (* If it is a symlink, force to use the path *)
          let usePath := if t =? tar_TypeSymlink then true else usePath in
          if usePath then
            let dirName := filepath_Dir (Name (meta metadata)) in
            if negb (String.eqb dirName "") then
              '(parentFd, err) <- openFileUnderRoot depth dirfd dirName
                                    (Z.lor unix.O_PATH unix.O_DIRECTORY) 0 ;;
              match err with
              | Some _ => Ret err
              | None =>
                  (* defer parentFd.Close() *)
                  r <- applyAttrs fd (to_int (File_Fd parentFd))
                         (filepath_Base (Name (meta metadata))) usePath mode metadata options ;;
                  File_Close parentFd ;;;
                  Ret r
              end
            else
              applyAttrs fd dirfd (filepath_Base (Name (meta metadata))) usePath mode metadata
                options
          else applyAttrs fd dirfd "" usePath mode metadata options
      end.

Definition safeMkdir (depth : nat) (dirfd mode : Z) (name : string) (metadata : fileMetadata)
    (options : TarOptions) : prog (option error) :=
  let (parent, base) := filepath_Split name in
  (* lines 393-405, with the parent's descriptor and what is deferred *)
  let make (parentFd : Z) (closing : prog unit) : prog (option error) :=
    err <- call (unix_Mkdirat parentFd base (to_uint32 mode)) ;;
    match (match err with
           | Some e => if negb (os_IsExist e) then Some e else None
           | None => None
           end) with
    | Some e =>
        closing ;;;
        Ret (Some (Errorf "mkdir %q: %w" [ArgString name] e))
    | None =>
        '(file, err) <- openFileUnderRoot depth parentFd base
                          (Z.lor unix.O_DIRECTORY unix.O_RDONLY) 0 ;;
        match err with
        | Some _ =>
            closing ;;;
            Ret err
        | None =>
            (* defer file.Close() *)
            r <- setFileAttrs depth dirfd file mode metadata options false ;;
            File_Close file ;;;
            closing ;;;
            Ret r
        end
    end in
  if negb (String.eqb parent "") && negb (String.eqb parent ".") then
    '(parentFile, err) <- openOrCreateDirUnderRoot depth dirfd parent 0 ;;
    match err with
    | Some _ => Ret err
    | None =>
        (* defer parentFile.Close() *)
        make (to_int (File_Fd parentFile)) (File_Close parentFile ;;; Ret tt)
    end
  else make dirfd (Ret tt).

End Materializer.

(** ** The chunked blob reader *)

(** Modelled from the spec: [ImageSourceChunk], declared in another file of
    the package; a chunk descriptor is an offset and a length.  The fields
    hold whatever integers their type allows; [GetBlobAt] converts both to
    [int64]. *)
Record ImageSourceChunk : Type := mkChunk { Offset : Z; Length : Z }.

(** The interface [readerAtCloser]: [ReadAt n off] is [ReadAt(p, off)] for
    a buffer of [n] bytes, the bytes read and the error. *)
Record readerAtCloser : Type := mkReader {
  ReadAt : nat -> Z -> list Z * option error;
  Close : option error
}.

Record seekableFile : Type := mkSeekableFile { reader : readerAtCloser }.

(** [io.SectionReader] and [io.NewSectionReader]: a limit that would
    overflow is replaced by the largest offset.  The arithmetic is that of
    [int64]. *)
Record SectionReader : Type := mkSectionReader {
  sr_r : readerAtCloser;
  sr_base : Z;
  sr_off : Z;
  sr_limit : Z;
  sr_n : Z
}.

Definition io_NewSectionReader (r : readerAtCloser) (off n : Z) : SectionReader :=
  let remaining := if off <=? to_int64 (maxInt64 - n) then to_int64 (n + off) else maxInt64 in
  mkSectionReader r off off remaining n.

(** [s.Size()]. *)
Definition SectionReader_Size (s : SectionReader) : Z := sr_limit s - sr_base s.

(** [s.Read(p)] for a buffer of [n] bytes: the bytes read, the error, and
    the reader with its offset advanced.  At the limit it reports [io.EOF];
    before it, the buffer is cut to what is left of the section. *)
Definition SectionReader_Read (s : SectionReader) (n : nat)
  : list Z * option error * SectionReader :=
  if sr_off s >=? sr_limit s then ([], Some (ErrorsNew "EOF"), s)
  else
    let left := sr_limit s - sr_off s in
    let n' := if Z.of_nat n >? left then Z.to_nat left else n in
    let (got, err) := ReadAt (sr_r s) n' (sr_off s) in
    (got, err,
     mkSectionReader (sr_r s) (sr_base s) (to_int64 (sr_off s + Z.of_nat (List.length got)))
       (sr_limit s) (sr_n s)).

(** [io.ReadCloser] values made by [io.NopCloser]. *)
Inductive ReadCloser : Type :=
| io_NopCloser (r : SectionReader).

(** What a goroutine does to the two channels of [GetBlobAt], in order.  It
    receives nothing, so its behaviour is a sequence. *)
Inductive chanOp : Type :=
| SendStreams (v : ReadCloser)
| SendErrs (e : error)
| CloseStreams
| CloseErrs.

(** The body of the goroutine started by [GetBlobAt] (lines 550-556). *)
Fixpoint produce (f : seekableFile) (chunks : list ImageSourceChunk) : list chanOp :=
  match chunks with
  | [] => [CloseStreams; CloseErrs]
  | chunk :: rest =>
      SendStreams (io_NopCloser (io_NewSectionReader (reader f) (to_int64 (Offset chunk))
                                   (to_int64 (Length chunk))))
      :: produce f rest
  end.

(** What [GetBlobAt] hands back at once: the two channels it has made (both
    unbuffered and open, nothing sent yet), the goroutine it has started on
    them, and the error it returns. *)
Record blobAt : Type := mkBlobAt {
  goroutine : list chanOp;
  returnedErr : option error
}.

Definition GetBlobAt (f : seekableFile) (chunks : list ImageSourceChunk) : blobAt :=
  mkBlobAt (produce f chunks) None.

Definition newSeekableFile (reader : readerAtCloser) : seekableFile :=
  mkSeekableFile reader.

(** *** Unbuffered channels, seen from the consumer

    The state of the two channels and of the goroutine that feeds them.  A
    send waits for a receiver; a close does not wait. *)
Record channels : Type := mkChannels {
  pending : list chanOp;
  streamsClosed : bool;
  errsClosed : bool
}.

(** The goroutine runs on its own until it has to wait for a receiver. *)
Fixpoint settle (ops : list chanOp) (sc ec : bool) : channels :=
  match ops with
  | CloseStreams :: ops' => settle ops' true ec
  | CloseErrs :: ops' => settle ops' sc true
  | _ => mkChannels ops sc ec
  end.

Inductive received (A : Type) : Type :=
| Value (v : A)
| ChannelClosed
| Blocked.
Arguments Value {A} v.
Arguments ChannelClosed {A}.
Arguments Blocked {A}.

(** [<-streams]. *)
Definition recvStreams (c : channels) : received ReadCloser * channels :=
  let c := settle (pending c) (streamsClosed c) (errsClosed c) in
  match pending c with
  | SendStreams v :: ops' => (Value v, mkChannels ops' (streamsClosed c) (errsClosed c))
  | _ => (if streamsClosed c then ChannelClosed else Blocked, c)
  end.

(** [<-errs]. *)
Definition recvErrs (c : channels) : received error * channels :=
  let c := settle (pending c) (streamsClosed c) (errsClosed c) in
  match pending c with
  | SendErrs e :: ops' => (Value e, mkChannels ops' (streamsClosed c) (errsClosed c))
  | _ => (if errsClosed c then ChannelClosed else Blocked, c)
  end.

(** [for s := range streams]: the values received until the channel is
    closed; [None] when the loop would wait forever.  [n] bounds the number
    of receives. *)
Fixpoint rangeStreams (n : nat) (c : channels) : option (list ReadCloser) * channels :=
  match n with
  | O => (None, c)
  | S n' =>
      match recvStreams c with
      | (Value v, c') =>
          let (r, c'') := rangeStreams n' c' in
          (option_map (cons v) r, c'')
      | (ChannelClosed, c') => (Some [], c')
      | (Blocked, c') => (None, c')
      end
  end.

Definition startChannels (b : blobAt) : channels := mkChannels (goroutine b) false false.

(** The view of one chunk that [GetBlobAt] sends: a section reader over the
    file's reader, with the chunk's offset and length converted to
    [int64]. *)
Definition sentView (f : seekableFile) (chunk : ImageSourceChunk) : ReadCloser :=
  io_NopCloser (io_NewSectionReader (reader f) (to_int64 (Offset chunk))
                  (to_int64 (Length chunk))).

(** The view of one chunk in the spec's words: the section of the shared
    source that starts at the chunk's offset and has the chunk's length. *)
Definition chunkSection (f : seekableFile) (chunk : ImageSourceChunk) : ReadCloser :=
  io_NopCloser (mkSectionReader (reader f) (Offset chunk) (Offset chunk)
                  (Offset chunk + Length chunk) (Length chunk)).

(** A chunk that lies within the offsets a file can have. *)
Definition validChunk (chunk : ImageSourceChunk) : Prop :=
  0 <= Offset chunk /\ 0 <= Length chunk /\ Offset chunk + Length chunk <= maxInt64.

(** A source of 25 bytes to read chunks from. *)
Definition bytesReader (data : list Z) : readerAtCloser :=
  mkReader
    (fun n off =>
       if off <? 0 then ([], Some (ErrorsNew "negative offset"))
       else
         let got := firstn n (skipn (Z.to_nat off) data) in
         (got, if (List.length got <? n)%nat then Some (ErrorsNew "EOF") else None))
    None.

(** ** Kernels to run the programs on *)

(** A kernel that replays a script: one answer per call, in order.  An
    answer of the wrong kind for the call, or a script that has run out,
    makes the call fail with [EIO]. *)
Inductive answer : Type :=
| Int (r : result Z)
| Str (r : result string)
| Stat (r : result FileInfo)
| Status (e : option error).

Definition EIO : Z := 5.

Definition asInt (a : option answer) : result Z :=
  match a with Some (Int r) => r | _ => Err (Errno EIO) end.
Definition asStr (a : option answer) : result string :=
  match a with Some (Str r) => r | _ => Err (Errno EIO) end.
Definition asStat (a : option answer) : result FileInfo :=
  match a with Some (Stat r) => r | _ => Err (Errno EIO) end.
Definition asStatus (a : option answer) : option error :=
  match a with Some (Status e) => e | _ => Some (Errno EIO) end.

Definition answerTo {X : Type} (c : syscall X) (a : option answer) : X :=
  match c in syscall X return X with
  | os_Stat _ => asStat a
  | os_Readlink _ => asStr a
  | securejoin_SecureJoin _ _ => asStr a
  | unix_Open _ _ _ => asInt a
  | unix_Openat _ _ _ _ => asInt a
  | unix_Openat2 _ _ _ => asInt a
  | unix_Dup _ => asInt a
  | unix_Close _ => asStatus a
  | unix_Linkat _ _ _ _ _ => asStatus a
  | unix_Unlinkat _ _ _ => asStatus a
  | unix_Mkdirat _ _ _ => asStatus a
  | unix_Fchown _ _ _ => asStatus a
  | unix_Fchownat _ _ _ _ _ => asStatus a
  | unix_Fsetxattr _ _ _ _ => asStatus a
  | unix_UtimesNanoAt _ _ _ _ => asStatus a
  | unix_Fchmod _ _ => asStatus a
  | unix_Fchmodat _ _ _ _ => asStatus a
  | unix_Seek _ _ _ => asInt a
  | unix_Ftruncate _ _ => asStatus a
  | driversCopy_CopyRegularToFile _ _ _ _ _ => asStatus a
  end.

Definition replay : kernel (list answer) :=
  fun X c script =>
    match script with
    | [] => (answerTo c None, [])
    | a :: rest => (answerTo c (Some a), rest)
    end.





(** The contents cut or extended with zero bytes to [len] bytes. *)
Definition resize (len : Z) (data : list Z) : list Z :=
  firstn (Z.to_nat len) data ++ repeat 0 (Z.to_nat len - List.length data)%nat.






(** Any number of opens under the root, one after the other. *)
Record openRequest : Type := mkOpenRequest {
  req_dirfd : Z;
  req_name : string;
  req_flags : Z;
  req_mode : Z
}.

Fixpoint openAll (reqs : list openRequest) : prog (list (Z * option error)) :=
  match reqs with
  | [] => Ret []
  | q :: rest =>
      r <- openFileUnderRootRaw (req_dirfd q) (req_name q) (req_flags q) (req_mode q) ;;
      rs <- openAll rest ;;
      Ret (r :: rs)
  end.

(** ** An instance of what the package declares elsewhere

    The theorems below hold for any table of types, any set of ignored
    attributes and any decoder; the examples run with these. *)

(** Modelled from the spec: [typeToTarType], declared in another file of
    the package; the entry types are regular file, directory, symlink,
    hardlink, character and block device and fifo, each with its tar type
    byte, and any other type is an error. *)
Definition typesToTar (t : string) : Z * option error :=
  if String.eqb t "reg" then (48, None)
  else if String.eqb t "hardlink" then (49, None)
  else if String.eqb t "symlink" then (50, None)
  else if String.eqb t "char" then (51, None)
  else if String.eqb t "block" then (52, None)
  else if String.eqb t "dir" then (53, None)
  else if String.eqb t "fifo" then (54, None)
  else (0, Some (ErrorfMsg "unknown type: %v" [ArgString t])).

(** Modelled from the spec: [xattrsToIgnore], declared in another file of
    the package; a fixed set of attribute names that are never restored. *)
Definition ignoredXattrs (k : string) : bool := String.eqb k "security.selinux".

(** Modelled from the spec: [newFileFlags], declared in another file of the
    package; a regular file is created afresh and must not exist. *)
Definition freshFileFlags : Z :=
  Z.lor (Z.lor unix.O_CREAT unix.O_TRUNC) (Z.lor unix.O_EXCL unix.O_WRONLY).

(** A decoder of base64 with the standard alphabet and padding: quanta of
    four characters, [=] only at the end of the last one.  The offset of
    the error is the index of the quantum that does not decode. *)
Definition base64Value (c : ascii) : option Z :=
  let n := Z.of_nat (nat_of_ascii c) in
  if (65 <=? n) && (n <=? 90) then Some (n - 65)
  else if (97 <=? n) && (n <=? 122) then Some (n - 71)
  else if (48 <=? n) && (n <=? 57) then Some (n + 4)
  else if n =? 43 then Some 62
  else if n =? 47 then Some 63
  else None.

Definition isPad (c : ascii) : bool := Ascii.eqb c "="%char.

Fixpoint decodeQuanta (i : Z) (s : list ascii) : result (list Z) :=
  match s with
  | [] => Ok []
  | a :: b :: c :: d :: rest =>
      match base64Value a, base64Value b, base64Value c, base64Value d, rest with
      | Some va, Some vb, Some vc, Some vd, _ =>
          match decodeQuanta (i + 4) rest with
          | Ok bytes =>
              let n := va * 262144 + vb * 4096 + vc * 64 + vd in
              Ok (n / 65536 :: (n / 256) mod 256 :: n mod 256 :: bytes)
          | Err e => Err e
          end
      | Some va, Some vb, Some vc, None, [] =>
          if isPad d then
            let n := va * 262144 + vb * 4096 + vc * 64 in
            Ok [n / 65536; (n / 256) mod 256]
          else Err (CorruptInputError i)
      | Some va, Some vb, None, None, [] =>
          if isPad c && isPad d then Ok [(va * 262144 + vb * 4096) / 65536]
          else Err (CorruptInputError i)
      | _, _, _, _, _ => Err (CorruptInputError i)
      end
  | _ => Err (CorruptInputError i)
  end.

Definition base64Decode (s : string) : result (list Z) :=
  decodeQuanta 0 (list_ascii_of_string s).

(** ** Reading a trace *)

(** The calls by name, to say which calls a run made and which it did
    not. *)
Inductive sysname : Type :=
| N_Stat | N_Readlink | N_SecureJoin | N_Open | N_Openat | N_Openat2 | N_Dup | N_Close
| N_Linkat | N_Unlinkat | N_Mkdirat | N_Fchown | N_Fchownat | N_Fsetxattr | N_UtimesNanoAt
| N_Fchmod | N_Fchmodat | N_Seek | N_Ftruncate | N_CopyRegularToFile.

Definition nameOf {X : Type} (c : syscall X) : sysname :=
  match c with
  | os_Stat _ => N_Stat
  | os_Readlink _ => N_Readlink
  | securejoin_SecureJoin _ _ => N_SecureJoin
  | unix_Open _ _ _ => N_Open
  | unix_Openat _ _ _ _ => N_Openat
  | unix_Openat2 _ _ _ => N_Openat2
  | unix_Dup _ => N_Dup
  | unix_Close _ => N_Close
  | unix_Linkat _ _ _ _ _ => N_Linkat
  | unix_Unlinkat _ _ _ => N_Unlinkat
  | unix_Mkdirat _ _ _ => N_Mkdirat
  | unix_Fchown _ _ _ => N_Fchown
  | unix_Fchownat _ _ _ _ _ => N_Fchownat
  | unix_Fsetxattr _ _ _ _ => N_Fsetxattr
  | unix_UtimesNanoAt _ _ _ _ => N_UtimesNanoAt
  | unix_Fchmod _ _ => N_Fchmod
  | unix_Fchmodat _ _ _ _ => N_Fchmodat
  | unix_Seek _ _ _ => N_Seek
  | unix_Ftruncate _ _ => N_Ftruncate
  | driversCopy_CopyRegularToFile _ _ _ _ _ => N_CopyRegularToFile
  end.

Definition sysname_eqb (a b : sysname) : bool :=
  match a, b with
  | N_Stat, N_Stat | N_Readlink, N_Readlink | N_SecureJoin, N_SecureJoin | N_Open, N_Open
  | N_Openat, N_Openat | N_Openat2, N_Openat2 | N_Dup, N_Dup | N_Close, N_Close
  | N_Linkat, N_Linkat | N_Unlinkat, N_Unlinkat | N_Mkdirat, N_Mkdirat | N_Fchown, N_Fchown
  | N_Fchownat, N_Fchownat | N_Fsetxattr, N_Fsetxattr | N_UtimesNanoAt, N_UtimesNanoAt
  | N_Fchmod, N_Fchmod | N_Fchmodat, N_Fchmodat | N_Seek, N_Seek | N_Ftruncate, N_Ftruncate
  | N_CopyRegularToFile, N_CopyRegularToFile => true
  | _, _ => false
  end.

(** What an event shows of a kind of call, if it is one. *)
Definition collect {A : Type} (f : event -> option A) (evs : list event) : list A :=
  flat_map (fun e => match f e with Some a => [a] | None => [] end) evs.

Definition calledName (e : event) : option sysname :=
  match e with
  | Called c _ => Some (nameOf c)
  | _ => None
  end.

(** The names of the system calls of a trace, in order. *)
Definition names (evs : list event) : list sysname := collect calledName evs.

(** [os.Readlink]: the path read and the answer. *)
Definition readlinkOf (e : event) : option (string * result string) :=
  match e with
  | Called c r =>
      match c in syscall X return X -> option (string * result string) with
      | os_Readlink p => fun r => Some (p, r)
      | _ => fun _ => None
      end r
  | _ => None
  end.

(** [unix.Close] and [f.Close()]: the descriptor closed. *)
Definition closeOf (e : event) : option Z :=
  match e with
  | Called c _ =>
      match c with
      | unix_Close fd => Some fd
      | _ => None
      end
  | _ => None
  end.

(** [unix.Fsetxattr]: the descriptor, the attribute and the value. *)
Definition setxattrOf (e : event) : option (Z * string * list Z) :=
  match e with
  | Called c _ =>
      match c with
      | unix_Fsetxattr fd k data _ => Some (fd, k, data)
      | _ => None
      end
  | _ => None
  end.

(** [unix.Openat2]: [true] when it failed with an error that is [ENOSYS]. *)
Definition openat2Of (e : event) : option bool :=
  match e with
  | Called c r =>
      match c in syscall X return X -> option bool with
      | unix_Openat2 _ _ _ =>
          fun r => match r with
                   | Err e => Some (errors_Is e unix.ENOSYS)
                   | Ok _ => Some false
                   end
      | _ => fun _ => None
      end r
  | _ => None
  end.

(** [os.Stat]: the path and the answer. *)
Definition statOf (e : event) : option (string * result FileInfo) :=
  match e with
  | Called c r =>
      match c in syscall X return X -> option (string * result FileInfo) with
      | os_Stat p => fun r => Some (p, r)
      | _ => fun _ => None
      end r
  | _ => None
  end.

(** [unix.Linkat]: what it returned ([None] is success). *)
Definition linkatOf (e : event) : option (option error) :=
  match e with
  | Called c r =>
      match c in syscall X return X -> option (option error) with
      | unix_Linkat _ _ _ _ _ => fun r => Some r
      | _ => fun _ => None
      end r
  | _ => None
  end.

(** [CopyRegularToFile]: the source, the destination, the size information
    and what it returned. *)
Definition copyOf (e : event) : option (string * option osFile * FileInfo * option error) :=
  match e with
  | Called c r =>
      match c in syscall X return X -> option (string * option osFile * FileInfo * option error)
      with
      | driversCopy_CopyRegularToFile src dst st _ _ => fun r => Some (src, dst, st, r)
      | _ => fun _ => None
      end r
  | _ => None
  end.

Definition storeOf (e : event) : option Z :=
  match e with
  | StoredSkipOpenat2 v => Some v
  | _ => None
  end.

Definition loadOf (e : event) : option Z :=
  match e with
  | LoadedSkipOpenat2 v => Some v
  | _ => None
  end.

(** ** What a program can do, whatever the kernel answers

    [always ok post p]: every system call that [p] can make satisfies [ok],
    and every value that [p] can return satisfies [post]. *)
Inductive always {A : Type} (ok : forall X : Type, syscall X -> Prop) (post : A -> Prop)
  : prog A -> Prop :=
| always_Ret (a : A) : post a -> always ok post (Ret a)
| always_Sys (X : Type) (c : syscall X) (k : X -> prog A) :
    ok X c -> (forall x : X, always ok post (k x)) -> always ok post (Sys c k)
| always_Load (k : Z -> prog A) :
    (forall v : Z, always ok post (k v)) -> always ok post (LoadSkipOpenat2 k)
| always_Store (v : Z) (k : prog A) :
    always ok post k -> always ok post (StoreSkipOpenat2 v k)
| always_StackOverflow : always ok post StackOverflow.

Definition eventOk (ok : forall X : Type, syscall X -> Prop) (e : event) : Prop :=
  match e with
  | Called c _ => ok _ c
  | _ => True
  end.

(** The calls by which this file opens, creates and closes directories and
    files under the root. *)
Definition opening (n : sysname) : bool :=
  match n with
  | N_Readlink | N_SecureJoin | N_Open | N_Openat | N_Openat2 | N_Dup | N_Close | N_Mkdirat => true
  | _ => false
  end.

Definition opens (X : Type) (c : syscall X) : Prop := opening (nameOf c) = true.

(** While the extended attributes are restored up to one that does not
    decode: [fsetxattr] only for the attributes visited before it, and no
    call for timestamps or mode. *)
Definition beforeUndecodable (visited : list string) (X : Type) (c : syscall X) : Prop :=
  match c with
  | unix_Fsetxattr _ k _ _ => In k visited
  | unix_UtimesNanoAt _ _ _ _ | unix_Fchmod _ _ | unix_Fchmodat _ _ _ _ => False
  | _ => True
  end.

(** ** The capability flag in a trace *)

(** What a trace shows of the use of [openat2] and of its being given up:
    an attempt (with whether it failed with [ENOSYS]), or a write of the
    flag. *)
Inductive protocolEvent : Type :=
| Attempt (enosys : bool)
| Downgrade (v : Z).

Definition protocolOf (e : event) : option protocolEvent :=
  match e with
  | StoredSkipOpenat2 v => Some (Downgrade v)
  | _ => option_map Attempt (openat2Of e)
  end.

(** [consulted prev evs]: every [openat2] of [evs] comes right after a read
    of [skipOpenat2] that found it unset; [prev] is the value read by the
    event just before [evs], if that was a read. *)
Fixpoint consulted (prev : option Z) (evs : list event) : bool :=
  match evs with
  | [] => true
  | e :: rest =>
      match openat2Of e with
      | Some _ =>
          match prev with
          | Some v => (v <=? 0) && consulted None rest
          | None => false
          end
      | None => consulted (loadOf e) rest
      end
  end.

Definition isLoad (e : event) : bool :=
  match e with
  | LoadedSkipOpenat2 _ => true
  | _ => false
  end.

(** The same opens, each made by the fallback (an empty name duplicates the
    root and has no fallback). *)
Fixpoint openAllFallback (reqs : list openRequest) : prog (list (Z * option error)) :=
  match reqs with
  | [] => Ret []
  | q :: rest =>
      r <- (if String.eqb (req_name q) "" then
              r <- call (unix_Dup (req_dirfd q)) ;;
              Ret (returned r)
            else openFileUnderRootFallback (req_dirfd q) (req_name q) (req_flags q) (req_mode q)) ;;
      rs <- openAllFallback rest ;;
      Ret (r :: rs)
  end.

(** A program that neither reads nor writes [skipOpenat2]. *)
Inductive flagFree {A : Type} : prog A -> Prop :=
| flagFree_Ret (a : A) : flagFree (Ret a)
| flagFree_Sys (X : Type) (c : syscall X) (k : X -> prog A) :
    (forall x : X, flagFree (k x)) -> flagFree (Sys c k)
| flagFree_StackOverflow : flagFree StackOverflow.

Definition notOpenat2 (X : Type) (c : syscall X) : Prop :=
  match c with
  | unix_Openat2 _ _ _ => False
  | _ => True
  end.

(** A program that, run with the flag set, neither calls [openat2] nor
    writes the flag: what it does after a read of the flag matters only for
    the values that are set. *)
Inductive afterDowngrade {A : Type} : prog A -> Prop :=
| afterDowngrade_Ret (a : A) : afterDowngrade (Ret a)
| afterDowngrade_Sys (X : Type) (c : syscall X) (k : X -> prog A) :
    notOpenat2 X c -> (forall x : X, afterDowngrade (k x)) -> afterDowngrade (Sys c k)
| afterDowngrade_Load (k : Z -> prog A) :
    (forall v : Z, 0 < v -> afterDowngrade (k v)) -> afterDowngrade (LoadSkipOpenat2 k)
| afterDowngrade_StackOverflow : afterDowngrade StackOverflow.

(** ** Goroutines

    [skipOpenat2] is a variable of the package: the goroutines of the
    process read and write the same one, each with atomic loads and stores
    of its own, and between a goroutine's load and its next call any other
    goroutine may act.  A program advances by one action at a time (a system
    call, a load or a store); which goroutine acts next is the scheduler's
    choice. *)

(** One action of a program: the event, the rest of the program and the
    process after it; [None] when the program has ended. *)
Definition step {K A : Type} (h : kernel K) (p : prog A) (s : process K)
  : option (event * prog A * process K) :=
  match p with
  | Ret _ => None
  | Sys c k =>
      let (x, kn) := h _ c (kern s) in
      Some (Called c x, k x, mkProcess kn (skipOpenat2 s))
  | LoadSkipOpenat2 k => Some (LoadedSkipOpenat2 (skipOpenat2 s), k (skipOpenat2 s), s)
  | StoreSkipOpenat2 v k => Some (StoredSkipOpenat2 v, k, mkProcess (kern s) v)
  | StackOverflow => None
  end.

(** The list with its [n]-th element replaced. *)
Fixpoint setNth {A : Type} (n : nat) (x : A) (l : list A) : list A :=
  match l, n with
  | [], _ => []
  | _ :: rest, O => x :: rest
  | y :: rest, S n' => y :: setNth n' x rest
  end.

(** [interleave h sched gs s]: the goroutines [gs] run from [s], taking
    turns in the order [sched], one action per turn (a goroutine that has
    ended does nothing in its turn): the events, each with the goroutine
    that made it, the goroutines at the end, and the process at the end. *)
Fixpoint interleave {K A : Type} (h : kernel K) (sched : list nat) (gs : list (prog A))
    (s : process K) : list (nat * event) * list (prog A) * process K :=
  match sched with
  | [] => ([], gs, s)
  | g :: sched' =>
      match nth_error gs g with
      | Some p =>
          match step h p s with
          | Some (e, p', s1) =>
              let '(tevs, gs', s') := interleave h sched' (setNth g p' gs) s1 in
              ((g, e) :: tevs, gs', s')
          | None => interleave h sched' gs s
          end
      | None => interleave h sched' gs s
      end
  end.

(** The events of the goroutine [g], in order. *)
Definition eventsOf (g : nat) (tevs : list (nat * event)) : list event :=
  map snd (filter (fun te => Nat.eqb (fst te) g) tevs).

(** The events of all goroutines, in the order in which they happened. *)
Definition allEvents (tevs : list (nat * event)) : list event := map snd tevs.

(** The value of the flag after the events [evs], from the value [flag]. *)
Definition flagAfter (flag : Z) (evs : list event) : Z :=
  fold_left (fun f e => match storeOf e with Some v => v | None => f end) evs flag.

(** Where a goroutine stands with the flag: it has nothing in hand; its
    last action was a load that found the flag unset; its last action was an
    [openat2] that failed with [ENOSYS]. *)
Inductive phase : Type :=
| Idle
| Consulted
| Failed.

(** What a goroutine may do next: [openat2] only right after a load that
    found the flag unset; after an [openat2] that failed with [ENOSYS],
    nothing but the store of 1; a store at no other time. *)
Definition phaseStep (ph : phase) (e : event) : option phase :=
  match e with
  | LoadedSkipOpenat2 v =>
      match ph with
      | Failed => None
      | _ => Some (if v <=? 0 then Consulted else Idle)
      end
  | StoredSkipOpenat2 v =>
      match ph with
      | Failed => if v =? 1 then Some Idle else None
      | _ => None
      end
  | Called _ _ =>
      match openat2Of e with
      | Some enosys =>
          match ph with
          | Consulted => Some (if enosys then Failed else Idle)
          | _ => None
          end
      | None =>
          match ph with
          | Failed => None
          | _ => Some Idle
          end
      end
  end.

(** [obeys post ph p]: from the phase [ph], whatever the kernel answers and
    whatever the loads find, every action of [p] is one that its phase
    allows, and [p] returns in a phase that satisfies [post]. *)
Fixpoint obeys {A : Type} (post : phase -> Prop) (ph : phase) (p : prog A) : Prop :=
  match p with
  | Ret _ => post ph
  | Sys c k =>
      forall x,
        match phaseStep ph (Called c x) with
        | Some ph' => obeys post ph' (k x)
        | None => False
        end
  | LoadSkipOpenat2 k =>
      forall v,
        match phaseStep ph (LoadedSkipOpenat2 v) with
        | Some ph' => obeys post ph' (k v)
        | None => False
        end
  | StoreSkipOpenat2 v k =>
      match phaseStep ph (StoredSkipOpenat2 v) with
      | Some ph' => obeys post ph' k
      | None => False
      end
  | StackOverflow => True
  end.

Definition settled (ph : phase) : Prop := ph <> Failed.

(** A program that keeps to the protocol of the flag from any phase in
    which nothing is pending. *)
Definition polite {A : Type} (p : prog A) : Prop :=
  forall ph, settled ph -> obeys settled ph p.

Definition upd (phs : nat -> phase) (g : nat) (ph : phase) : nat -> phase :=
  fun g' => if Nat.eqb g' g then ph else phs g'.

(** [conforms flag phs tevs]: in the events [tevs], from the flag [flag] and
    the phases [phs] of the goroutines, every goroutine does what its phase
    allows and every load finds the value that the flag has then. *)
Fixpoint conforms (flag : Z) (phs : nat -> phase) (tevs : list (nat * event)) : bool :=
  match tevs with
  | [] => true
  | (g, e) :: rest =>
      match phaseStep (phs g) e with
      | None => false
      | Some ph' =>
          match loadOf e with
          | Some v => v =? flag
          | None => true
          end
          && conforms (flagAfter flag [e]) (upd phs g ph') rest
      end
  end.

(** What one goroutine shows of the protocol, at most: attempts that did not
    fail with [ENOSYS], then possibly one that did, followed by its store of
    1. *)
Definition ownProtocol (l : list protocolEvent) : Prop :=
  exists n tail,
    l = repeat (Attempt false) n ++ tail /\
    (tail = [] \/ tail = [Attempt true] \/ tail = [Attempt true; Downgrade 1]).

(** What a goroutine can still show of the protocol, from its phase and the
    flag. *)
Definition protocolFrom (flag : Z) (ph : phase) (l : list protocolEvent) : Prop :=
  match ph with
  | Failed => l = [] \/ l = [Downgrade 1]
  | Consulted => ownProtocol l
  | Idle => if 0 <? flag then l = [] else ownProtocol l
  end.

(** ** The ways the fresh copy can end

    With the new handle and the source's size, with the error of opening the
    destination, or with the error of the copy.  [s] is the state in which
    the destination is opened, [evs] the trace from there on. *)
Definition freshCopyOutcome {K : Type} (h : kernel K) (newFileFlags : Z) (depth : nat)
    (srcFd : Z) (st : FileInfo) (fileMeta : fileMetadata) (dirfd mode : Z)
    (s : process K) (evs : list event) (f : option osFile) (n : Z) (err : option error) : Prop :=
  let src := procPathForFd srcFd in
  let destFile := Name (meta fileMeta) in
  (err = None /\ n = Size st /\ collect copyOf evs = [(src, f, st, None)] /\
   exists e4 post s4,
     evs = e4 ++ post /\
     run h (openFileUnderRoot depth dirfd destFile newFileFlags mode) s = (e4, s4, Some (f, None)))
  \/
  (exists e dst e4 post s4,
      err = Some (Errorf "open file %q under rootfs for copy: %w" [ArgString destFile] e) /\
      f = None /\ n = -1 /\ collect copyOf evs = [] /\
      evs = e4 ++ post /\
      run h (openFileUnderRoot depth dirfd destFile newFileFlags mode) s
      = (e4, s4, Some (dst, Some e)))
  \/
  (exists e dst,
      err = Some (Errorf "copy to file %q under rootfs: %w" [ArgString destFile] e) /\
      f = None /\ n = -1 /\ collect copyOf evs = [(src, dst, st, Some e)]).

(** How the fresh copy ends, from how the open of the destination ended
    ([None] when it exhausted the stack) and what the copy answered: with the
    new handle and the source's size, with the error of opening the
    destination, or with the error of the copy.  [post] is the trace after
    the open, [r] what [copyFileContent] returns. *)
Definition freshCopyEnds (srcFd : Z) (st : FileInfo) (fileMeta : fileMetadata)
    (opened : option (option osFile * option error)) (post : list event)
    (r : option (fileMetadata * (option osFile * Z * option error))) : Prop :=
  let destFile := Name (meta fileMeta) in
  match opened with
  | None => post = [] /\ r = None
  | Some (dst, Some e) =>
      collect copyOf post = [] /\
      r = Some (fileMeta,
                (None, -1,
                 Some (Errorf "open file %q under rootfs for copy: %w" [ArgString destFile] e)))
  | Some (dst, None) =>
      exists cerr post',
        post = Called (driversCopy_CopyRegularToFile (procPathForFd srcFd) dst st true true) cerr
               :: post' /\
        collect copyOf post' = [] /\
        r = Some (fileMeta,
                  match cerr with
                  | None => (dst, Size st, None)
                  | Some e =>
                      (None, -1,
                       Some (Errorf "copy to file %q under rootfs: %w" [ArgString destFile] e))
                  end)
  end.

(** The calls of the fresh copy: those that open and close, and the copy. *)
Definition opensOrCopies (X : Type) (c : syscall X) : Prop :=
  opening (nameOf c) = true \/ nameOf c = N_CopyRegularToFile.

(** ** Entries to run the examples on *)

Definition regularEntry (name : string) (xattrs : list (string * string)) (skip : bool)
  : fileMetadata :=
  mkfileMetadata (mkFileMetadata "reg" name "" 0 0 None None xattrs) [] skip.

Definition strictOptions : TarOptions := mkTarOptions false.

(** A file that was closed: its descriptor is [-1]. *)
Definition closedFile (name : string) : option osFile := Some (mkFile (-1) name).

(** * The rest of filesystem_linux.go *)

(** ** Hard links and whiteout attributes *)

Section Links.

Variable typeToTarType : string -> Z * option error.
Variable xattrsToIgnore : string -> bool.
Variable base64_StdEncoding_DecodeString : string -> result (list Z).

(** Lines 426-447 of [safeLink], once the source is open and the
    destination's directory is settled: the link, then the attributes of
    the new name.  [closing] is the deferred close of the destination's
    directory, if one was opened; the source is closed after it. *)
Definition linkAndSetAttrs (depth : nat) (dirfd mode : Z) (metadata : fileMetadata)
    (options : TarOptions) (sourceFile : option osFile) (destDirFd : Z) (destBase : string)
    (closing : prog unit) : prog (option error) :=
  let md := meta metadata in
  let leave (r : option error) : prog (option error) :=
    closing ;;;
    File_Close sourceFile ;;;
    Ret r in
  err <- doHardLink (to_int (File_Fd sourceFile)) destDirFd destBase ;;
  match err with
  | Some e =>
      leave (Some (Errorf "create hardlink %q pointing to %q: %w"
                     [ArgString (Name md); ArgString (Linkname md)] e))
  | None =>
      '(newFile, err) <- openFileUnderRoot depth dirfd (Name md)
                           (Z.lor unix.O_WRONLY unix.O_NOFOLLOW) 0 ;;
      match err with
      | Some e =>
          (* If the target is a symlink, open the file with O_PATH. *)
          if errors_Is e unix.ELOOP then
            '(newFile, err) <- openFileUnderRoot depth dirfd (Name md)
                                 (Z.lor unix.O_PATH unix.O_NOFOLLOW) 0 ;;
            match err with
            | Some _ => leave err
            | None =>
                (* defer newFile.Close() *)
                r <- setFileAttrs typeToTarType xattrsToIgnore base64_StdEncoding_DecodeString
                       depth dirfd newFile mode metadata options true ;;
                File_Close newFile ;;;
                leave r
            end
          else leave err
      | None =>
          (* defer newFile.Close() *)
          r <- setFileAttrs typeToTarType xattrsToIgnore base64_StdEncoding_DecodeString
                 depth dirfd newFile mode metadata options false ;;
          File_Close newFile ;;;
          leave r
      end
  end.

Definition safeLink (depth : nat) (dirfd mode : Z) (metadata : fileMetadata)
    (options : TarOptions) : prog (option error) :=
  let md := meta metadata in
  '(sourceFile, err) <- openFileUnderRoot depth dirfd (Linkname md)
                          (Z.lor (Z.lor unix.O_PATH unix.O_RDONLY) unix.O_NOFOLLOW) 0 ;;
  match err with
  | Some _ => Ret err
  | None =>
      (* defer sourceFile.Close() *)
      let (destDir, destBase) := filepath_Split (Name md) in
      if negb (String.eqb destDir "") && negb (String.eqb destDir ".") then
        '(f, err) <- openOrCreateDirUnderRoot depth dirfd destDir 0 ;;
        match err with
        | Some _ =>
            File_Close sourceFile ;;;
            Ret err
        | None =>
            (* defer f.Close() *)
            linkAndSetAttrs depth dirfd mode metadata options sourceFile
              (to_int (File_Fd f)) destBase (File_Close f ;;; Ret tt)
        end
      else
        linkAndSetAttrs depth dirfd mode metadata options sourceFile dirfd destBase (Ret tt)
  end.

End Links.

Record whiteoutHandler : Type := mkWhiteoutHandler { Dirfd : Z; Root : string }.

Definition whiteoutHandler_Setxattr (depth : nat) (d : whiteoutHandler) (path name : string)
    (value : list Z) : prog (option error) :=
  '(file, err) <- openOrCreateDirUnderRoot depth (Dirfd d) path 0 ;;
  match err with
  | Some _ => Ret err
  | None =>
      (* defer file.Close() *)
      err <- call (unix_Fsetxattr (to_int (File_Fd file)) name value 0) ;;
      match err with
      | Some e =>
          File_Close file ;;;
          Ret (Some (Errorf "set xattr %s=%q for %q: %w"
                       [ArgString name; ArgBytes value; ArgString path] e))
      | None =>
          File_Close file ;;;
          Ret None
      end
  end.

(** The double quote, for the one message of the file that holds it. *)
Definition dquote : string := String (ascii_of_nat 34) EmptyString.

Definition checkChownErr (err : option error) (name : string) (uid gid : Z) : option error :=
  match err with
  | Some e =>
      if errors_Is e unix.EINVAL then
        Some (Errorf
                (String.append
                   "potentially insufficient UIDs or GIDs available in user namespace (requested %d:%d for %s): Check /etc/subuid and /etc/subgid if configured locally and run "
                   (String.append dquote
                      (String.append "podman system migrate" (String.append dquote ": %w"))))
                [ArgInt uid; ArgInt gid; ArgString name] e)
      else err
  | None => err
  end.

Definition seekableFile_Close (f : seekableFile) : option error := Close (reader f).

(** ** Symlinks, device nodes and ownership

    Three functions of the file make calls that the functions above do not
    make: [symlinkat], [mknodat] and [fstat].  Their programs are over the
    calls above and these three. *)

(** [unix.AT_EMPTY_PATH]. *)
Definition AT_EMPTY_PATH : Z := 4096.

(** [unix.Stat_t], as far as this file reads it. *)
Record Stat_t : Type := mkStat_t { Uid : Z; Gid : Z }.

Inductive xsyscall : Type -> Type :=
| base {X : Type} (c : syscall X) : xsyscall X
| unix_Symlinkat (oldpath : string) (newdirfd : Z) (newpath : string) : xsyscall (option error)
| unix_Mknodat (dirfd : Z) (path : string) (mode dev : Z) : xsyscall (option error)
| unix_Fstat (fd : Z) : xsyscall (result Stat_t).

Inductive xprog (A : Type) : Type :=
| XRet (a : A)
| XSys {X : Type} (c : xsyscall X) (k : X -> xprog A)
| XLoadSkipOpenat2 (k : Z -> xprog A)
| XStoreSkipOpenat2 (v : Z) (k : xprog A)
| XStackOverflow.
Arguments XRet {A} a.
Arguments XSys {A X} c k.
Arguments XLoadSkipOpenat2 {A} k.
Arguments XStoreSkipOpenat2 {A} v k.
Arguments XStackOverflow {A}.

Fixpoint xbind {A B : Type} (p : xprog A) (f : A -> xprog B) : xprog B :=
  match p with
  | XRet a => f a
  | XSys c k => XSys c (fun x => xbind (k x) f)
  | XLoadSkipOpenat2 k => XLoadSkipOpenat2 (fun v => xbind (k v) f)
  | XStoreSkipOpenat2 v k => XStoreSkipOpenat2 v (xbind k f)
  | XStackOverflow => XStackOverflow
  end.

(** A program over the calls above, as a program over the larger set. *)
Fixpoint lift {A : Type} (p : prog A) : xprog A :=
  match p with
  | Ret a => XRet a
  | Sys c k => XSys (base c) (fun x => lift (k x))
  | LoadSkipOpenat2 k => XLoadSkipOpenat2 (fun v => lift (k v))
  | StoreSkipOpenat2 v k => XStoreSkipOpenat2 v (lift k)
  | StackOverflow => XStackOverflow
  end.

Definition xcall {X : Type} (c : xsyscall X) : xprog X := XSys c XRet.

Declare Scope xprog_scope.
Delimit Scope xprog_scope with xprog.
Notation "x <- p ;; q" := (xbind p (fun x => q))
  (at level 61, p at next level, right associativity) : xprog_scope.
Notation "' pat <- p ;; q" := (xbind p (fun x => match x with pat => q end))
  (at level 61, pat pattern, p at next level, right associativity) : xprog_scope.
Notation "p ;;; q" := (xbind p (fun _ => q))
  (at level 61, right associativity) : xprog_scope.

Inductive xevent : Type :=
| XCalled {X : Type} (c : xsyscall X) (r : X)
| XLoadedSkipOpenat2 (v : Z)
| XStoredSkipOpenat2 (v : Z).

Definition liftEvent (e : event) : xevent :=
  match e with
  | Called c r => XCalled (base c) r
  | LoadedSkipOpenat2 v => XLoadedSkipOpenat2 v
  | StoredSkipOpenat2 v => XStoredSkipOpenat2 v
  end.

Definition xkernel (K : Type) : Type := forall X : Type, xsyscall X -> K -> X * K.

(** The kernel's answers to the calls above. *)
Definition restrict {K : Type} (h : xkernel K) : kernel K := fun X c => h X (base c).

Fixpoint xrun {K A : Type} (h : xkernel K) (p : xprog A) (s : process K)
  : list xevent * process K * option A :=
  match p with
  | XRet a => ([], s, Some a)
  | XSys c k =>
      let (x, kn) := h _ c (kern s) in
      let '(evs, s', r) := xrun h (k x) (mkProcess kn (skipOpenat2 s)) in
      (XCalled c x :: evs, s', r)
  | XLoadSkipOpenat2 k =>
      let '(evs, s', r) := xrun h (k (skipOpenat2 s)) s in
      (XLoadedSkipOpenat2 (skipOpenat2 s) :: evs, s', r)
  | XStoreSkipOpenat2 v k =>
      let '(evs, s', r) := xrun h k (mkProcess (kern s) v) in
      (XStoredSkipOpenat2 v :: evs, s', r)
  | XStackOverflow => ([], s, None)
  end.

Definition safeSymlink (depth : nat) (dirfd mode : Z) (metadata : fileMetadata)
    (options : TarOptions) : xprog (option error) :=
  (let md := meta metadata in
   let (destDir, destBase) := filepath_Split (Name md) in
   (* lines 462-465, with the directory's descriptor and what is deferred *)
   let link (destDirFd : Z) (closing : xprog unit) : xprog (option error) :=
     err <- xcall (unix_Symlinkat (Linkname md) destDirFd destBase) ;;
     match err with
     | Some e =>
         closing ;;;
         XRet (Some (Errorf "create symlink %q pointing to %q: %w"
                       [ArgString (Name md); ArgString (Linkname md)] e))
     | None =>
         closing ;;;
         XRet None
     end in
   if negb (String.eqb destDir "") && negb (String.eqb destDir ".") then
     '(f, err) <- lift (openOrCreateDirUnderRoot depth dirfd destDir 0) ;;
     match err with
     | Some _ => XRet err
     | None =>
         (* defer f.Close() *)
         link (to_int (File_Fd f)) (lift (File_Close f) ;;; XRet tt)
     end
   else link dirfd (XRet tt))%xprog.

Definition whiteoutHandler_Mknod (depth : nat) (d : whiteoutHandler) (path : string)
    (mode dev : Z) : xprog (option error) :=
  (let (dir, base) := filepath_Split path in
   (* lines 499-503, with the directory's descriptor and what is deferred *)
   let make (dirfd : Z) (closing : xprog unit) : xprog (option error) :=
     err <- xcall (unix_Mknodat dirfd base mode dev) ;;
     match err with
     | Some e =>
         closing ;;;
         XRet (Some (Errorf "mknod %q: %w" [ArgString path] e))
     | None =>
         closing ;;;
         XRet None
     end in
   if negb (String.eqb dir "") && negb (String.eqb dir ".") then
     '(dir, err) <- lift (openOrCreateDirUnderRoot depth (Dirfd d) dir 0) ;;
     match err with
     | Some _ => XRet err
     | None =>
         (* defer dir.Close() *)
         make (to_int (File_Fd dir)) (lift (File_Close dir) ;;; XRet tt)
     end
   else make (Dirfd d) (XRet tt))%xprog.

Definition whiteoutHandler_Chown (depth : nat) (d : whiteoutHandler) (path : string)
    (uid gid : Z) : xprog (option error) :=
  ('(file, err) <- lift (openFileUnderRoot depth (Dirfd d) path unix.O_PATH 0) ;;
   match err with
   | Some _ => XRet err
   | None =>
       (* defer file.Close() *)
       err <- xcall (base (unix_Fchownat (to_int (File_Fd file)) "" uid gid AT_EMPTY_PATH)) ;;
       match err with
       | Some _ =>
           r <- xcall (unix_Fstat (to_int (File_Fd file))) ;;
           match r with
           | Ok stat =>
               if (Uid stat =? to_uint32 uid) && (Gid stat =? to_uint32 gid) then
                 lift (File_Close file) ;;;
                 XRet None
               else
                 lift (File_Close file) ;;;
                 XRet (checkChownErr err path uid gid)
           | Err _ =>
               lift (File_Close file) ;;;
               XRet (checkChownErr err path uid gid)
           end
       | None =>
           lift (File_Close file) ;;;
           XRet None
       end
   end)%xprog.

(** ** Descriptors in a trace *)

(** The descriptor that an event opens: what a successful [open],
    [openat], [openat2] or [dup] answered. *)
Definition openedOf (e : event) : option Z :=
  match e with
  | Called c r =>
      match c in syscall X return X -> option Z with
      | unix_Open _ _ _ | unix_Openat _ _ _ _ | unix_Openat2 _ _ _ | unix_Dup _ =>
          fun r => match r with Ok fd => Some fd | Err _ => None end
      | _ => fun _ => None
      end r
  | _ => None
  end.

Fixpoint occurrences (x : Z) (l : list Z) : Z :=
  match l with
  | [] => 0
  | y :: l' => (if y =? x then 1 else 0) + occurrences x l'
  end.

(** How many times more the descriptor [x] was opened than closed; a
    [close] counts whatever it answers. *)
Definition tally (x : Z) (evs : list event) : Z :=
  occurrences x (collect openedOf evs) - occurrences x (collect closeOf evs).

(** A descriptor as the kernel hands it out: a non-negative [int]. *)
Definition validFd (fd : Z) : Prop := 0 <= fd <= maxInt64.

(** [1] when the handle [f] holds the descriptor [x], [0] otherwise; the nil
    handle and a closed one hold none. *)
Definition own (f : option osFile) (x : Z) : Z :=
  match f with
  | Some f => if (0 <=? sysfd f) && (sysfd f =? x) then 1 else 0
  | None => 0
  end.

(** [accounted pre held p]: in every run of [p] that returns, on every
    kernel that hands out valid descriptors, the descriptors counted by
    [pre] and those that the run opens and does not close are those that
    [held] counts for the value returned. *)
Definition accounted {A : Type} (pre : Z -> Z) (held : A -> Z -> Z) (p : prog A) : Prop :=
  forall (K : Type) (h : kernel K) (s : process K) evs s' a,
    run h p s = (evs, s', Some a) ->
    Forall validFd (collect openedOf evs) ->
    forall x : Z, tally x evs + pre x = held a x.

(** The calls that change the attributes of a file. *)
Definition attribute (n : sysname) : bool :=
  match n with
  | N_Fchown | N_Fchownat | N_Fsetxattr | N_UtimesNanoAt | N_Fchmod | N_Fchmodat => true
  | _ => false
  end.

(** [unix.Mkdirat]: the mode asked for. *)
Definition mkdirModeOf (e : event) : option Z :=
  match e with
  | Called c _ =>
      match c with
      | unix_Mkdirat _ _ perm => Some perm
      | _ => None
      end
  | _ => None
  end.

(** [unix.Fchown] and [unix.Fchownat]: what it returned. *)
Definition chownOf (e : event) : option (option error) :=
  match e with
  | Called c r =>
      match c in syscall X return X -> option (option error) with
      | unix_Fchown _ _ _ | unix_Fchownat _ _ _ _ _ => fun r => Some r
      | _ => fun _ => None
      end r
  | _ => None
  end.

(** The calls whose name is in a given set. *)
Definition calls (allowed : sysname -> bool) (X : Type) (c : syscall X) : Prop :=
  allowed (nameOf c) = true.

(** The calls by which a name is looked up and opened under the root. *)
Definition lookingUp (n : sysname) : bool :=
  match n with
  | N_Readlink | N_SecureJoin | N_Open | N_Openat | N_Openat2 | N_Dup | N_Close => true
  | _ => false
  end.

(** [1] when a raw open returned the descriptor [x] without error, [0]
    otherwise. *)
Definition opened (r : Z * option error) (x : Z) : Z :=
  match snd r with
  | None => if fst r =? x then 1 else 0
  | Some _ => 0
  end.

(** What [os.NewFile(uintptr(fd), name)] holds, whatever the name. *)
Definition ownNew (fd : Z) (x : Z) : Z := own (os_NewFile (to_uintptr fd) "") x.

(** The calls that neither open nor close a descriptor. *)
Definition keepsDescriptors (n : sysname) : bool :=
  match n with
  | N_Open | N_Openat | N_Openat2 | N_Dup | N_Close => false
  | _ => true
  end.

(** A result that is a file or an error: nil comes with every error. *)
Definition fileOrError (r : option osFile * option error) : Prop :=
  match snd r with
  | Some _ => fst r = None
  | None => True
  end.

(** An entry of a given type, name and link target, owned by root, without
    times or extended attributes. *)
Definition plainEntry (type name linkname : string) : fileMetadata :=
  mkfileMetadata (mkFileMetadata type name linkname 0 0 None None []) [] false.

(** ** Runs over the larger set of calls *)

(** A replaying kernel for the larger set of calls: the answers of
    [replay], and what [fstat] finds. *)
Inductive xanswer : Type :=
| Plain (a : answer)
| Owner (r : result Stat_t).

Definition plainOf (a : option xanswer) : option answer :=
  match a with
  | Some (Plain a) => Some a
  | _ => None
  end.

Definition asOwner (a : option xanswer) : result Stat_t :=
  match a with
  | Some (Owner r) => r
  | _ => Err (Errno EIO)
  end.

Definition xanswerTo {X : Type} (c : xsyscall X) (a : option xanswer) : X :=
  match c in xsyscall X return X with
  | base c => answerTo c (plainOf a)
  | unix_Symlinkat _ _ _ => asStatus (plainOf a)
  | unix_Mknodat _ _ _ _ => asStatus (plainOf a)
  | unix_Fstat _ => asOwner a
  end.

Definition xreplay : xkernel (list xanswer) :=
  fun X c script =>
    match script with
    | [] => (xanswerTo c None, [])
    | a :: rest => (xanswerTo c (Some a), rest)
    end.

(** The events of the smaller set of calls in a trace of the larger. *)
Definition baseOf (e : xevent) : list event :=
  match e with
  | XCalled c r =>
      match c in xsyscall X return X -> list event with
      | base c => fun r => [Called c r]
      | _ => fun _ => []
      end r
  | XLoadedSkipOpenat2 v => [LoadedSkipOpenat2 v]
  | XStoredSkipOpenat2 v => [StoredSkipOpenat2 v]
  end.

Definition baseEvents (evs : list xevent) : list event := flat_map baseOf evs.






(** Every [mkdirat] asks for the mode [m]. *)
Definition mkdirWith (m : Z) (X : Type) (c : syscall X) : Prop :=
  match c with
  | unix_Mkdirat _ _ perm => perm = m
  | _ => True
  end.

(** The attribute calls of [setFileAttrs] when it goes by name: ownership,
    times and mode are set on the name [base] in a directory without
    following a symlink, extended attributes through the descriptor [fd]. *)
Definition byName (fd : Z) (base : string) (md : FileMetadata) (mode : Z)
    (X : Type) (c : syscall X) : Prop :=
  match c with
  | unix_Fchown _ _ _ | unix_Fchmod _ _ => False
  | unix_Fchownat _ p uid gid fl =>
      p = base /\ uid = UID md /\ gid = GID md /\ fl = unix.AT_SYMLINK_NOFOLLOW
  | unix_UtimesNanoAt _ p ts fl =>
      p = base /\ ts = [timeToTimespec (AccessTime md); timeToTimespec (ModTime md)] /\
      fl = unix.AT_SYMLINK_NOFOLLOW
  | unix_Fchmodat _ p perm fl =>
      p = base /\ perm = to_uint32 mode /\ fl = unix.AT_SYMLINK_NOFOLLOW
  | unix_Fsetxattr fd' _ _ fl => fd' = fd /\ fl = 0
  | _ => True
  end.

(** The calls of [setFileAttrs] when it goes by descriptor: every call acts
    on the descriptor [fd], the times through its path under /proc/self/fd;
    nothing is opened. *)
Definition byDescriptor (fd : Z) (md : FileMetadata) (mode : Z)
    (X : Type) (c : syscall X) : Prop :=
  match c with
  | unix_Fchown fd' uid gid => fd' = fd /\ uid = UID md /\ gid = GID md
  | unix_UtimesNanoAt dirfd p ts fl =>
      dirfd = unix.AT_FDCWD /\ p = procPathForFd fd /\
      ts = [timeToTimespec (AccessTime md); timeToTimespec (ModTime md)] /\ fl = 0
  | unix_Fchmod fd' perm => fd' = fd /\ perm = to_uint32 mode
  | unix_Fsetxattr fd' _ _ fl => fd' = fd /\ fl = 0
  | _ => False
  end.

(** ** Answers that make no difference *)

(** An answer with what [setFileAttrs] overlooks taken out: an error of
    [fsetxattr], [utimensat], [fchmod] or [fchmodat] that is [ENOSYS] or
    [ENOTSUP], and any error of [fchown] or [fchownat] when ownership errors
    are to be ignored, become success. *)
Definition forgiving (ignoreChown : bool) (X : Type) (c : syscall X) : X -> X :=
  match c in syscall X return X -> X with
  | unix_Fchown _ _ _ | unix_Fchownat _ _ _ _ _ => fun x => if ignoreChown then None else x
  | unix_Fsetxattr _ _ _ _ | unix_UtimesNanoAt _ _ _ _ | unix_Fchmod _ _
  | unix_Fchmodat _ _ _ _ =>
      fun x => if canIgnore x then None else x
  | _ => fun x => x
  end.

(** The kernel [h] with its answers passed through [g]. *)
Definition answering {K : Type} (g : forall X : Type, syscall X -> X -> X) (h : kernel K)
  : kernel K :=
  fun X c k => let (x, k') := h X c k in (g X c x, k').

Definition answered (g : forall X : Type, syscall X -> X -> X) (e : event) : event :=
  match e with
  | Called c x => Called c (g _ c x)
  | _ => e
  end.

(** A program that goes on in the same way whether a call answers [x] or
    [g c x]. *)
Inductive insensitive (g : forall X : Type, syscall X -> X -> X) {A : Type} : prog A -> Prop :=
| insensitive_Ret (a : A) : insensitive g (Ret a)
| insensitive_Sys (X : Type) (c : syscall X) (k : X -> prog A) :
    (forall x : X, k (g X c x) = k x) ->
    (forall x : X, insensitive g (k x)) ->
    insensitive g (Sys c k)
| insensitive_Load (k : Z -> prog A) :
    (forall v : Z, insensitive g (k v)) -> insensitive g (LoadSkipOpenat2 k)
| insensitive_Store (v : Z) (k : prog A) :
    insensitive g k -> insensitive g (StoreSkipOpenat2 v k)
| insensitive_StackOverflow : insensitive g StackOverflow.

(** The calls that follow the change of owner in [setFileAttrs]. *)
Definition afterChownCall (n : sysname) : bool :=
  match n with
  | N_Fsetxattr | N_UtimesNanoAt | N_Fchmod | N_Fchmodat => true
  | _ => false
  end.

(** ** The order of the attribute calls

    Where [setFileAttrs] stands among its attribute calls: before the change
    of owner, after it (where extended attributes are set), after the times,
    after the mode. *)
Inductive attrStage : Type :=
| BeforeOwner
| AfterOwner
| AfterTimes
| AfterMode.

(** The stage after a call, if the call may come at this stage: the owner
    first, then any number of extended attributes, then the times, then the
    mode, each once; the other calls may come at any stage. *)
Definition attrStep (st : attrStage) (n : sysname) : option attrStage :=
  match n, st with
  | (N_Fchown | N_Fchownat), BeforeOwner => Some AfterOwner
  | N_Fsetxattr, AfterOwner => Some AfterOwner
  | N_UtimesNanoAt, AfterOwner => Some AfterTimes
  | (N_Fchmod | N_Fchmodat), AfterTimes => Some AfterMode
  | (N_Fchown | N_Fchownat | N_Fsetxattr | N_UtimesNanoAt | N_Fchmod | N_Fchmodat), _ => None
  | _, _ => Some st
  end.

(** The stage reached by a sequence of calls, if they come in order. *)
Fixpoint attrStages (st : attrStage) (l : list sysname) : option attrStage :=
  match l with
  | [] => Some st
  | n :: l' =>
      match attrStep st n with
      | Some st' => attrStages st' l'
      | None => None
      end
  end.

(** [staged st post p]: from the stage [st], every call that [p] can make
    comes in order, and [post] holds of each value returned and the stage
    reached. *)
Inductive staged {A : Type} (post : A -> attrStage -> Prop) : attrStage -> prog A -> Prop :=
| staged_Ret (st : attrStage) (a : A) : post a st -> staged post st (Ret a)
| staged_Sys (st st' : attrStage) (X : Type) (c : syscall X) (k : X -> prog A) :
    attrStep st (nameOf c) = Some st' ->
    (forall x : X, staged post st' (k x)) ->
    staged post st (Sys c k)
| staged_Load (st : attrStage) (k : Z -> prog A) :
    (forall v : Z, staged post st (k v)) -> staged post st (LoadSkipOpenat2 k)
| staged_Store (st : attrStage) (v : Z) (k : prog A) :
    staged post st k -> staged post st (StoreSkipOpenat2 v k)
| staged_StackOverflow (st : attrStage) : staged post st StackOverflow.

(** [unix.Open]: the path, the flags and the answer. *)
Definition openOf (e : event) : option (string * Z * result Z) :=
  match e with
  | Called c r =>
      match c in syscall X return X -> option (string * Z * result Z) with
      | unix_Open path flags _ => fun r => Some (path, flags, r)
      | _ => fun _ => None
      end r
  | _ => None
  end.

(** [unix.Openat]: the directory, the path, the flags, the mode and the
    answer. *)
Definition openatOf (e : event) : option (Z * string * Z * Z * result Z) :=
  match e with
  | Called c r =>
      match c in syscall X return X -> option (Z * string * Z * Z * result Z) with
      | unix_Openat dirfd path flags perm => fun r => Some (dirfd, path, flags, perm, r)
      | _ => fun _ => None
      end r
  | _ => None
  end.

(** [securejoin.SecureJoin]: the root, the path and the answer. *)
Definition secureJoinOf (e : event) : option (string * string * result string) :=
  match e with
  | Called c r =>
      match c in syscall X return X -> option (string * string * result string) with
      | securejoin_SecureJoin root path => fun r => Some (root, path, r)
      | _ => fun _ => None
      end r
  | _ => None
  end.

(** A kernel that gives the same answer to every call. *)
Definition answeringAll (a : answer) : kernel unit := fun X c k => (answerTo c (Some a), k).

(** An [openat2] that is confined to the directory it starts from, with a
    mode that holds permission bits only. *)
Definition confined (X : Type) (c : syscall X) : Prop :=
  match c with
  | unix_Openat2 _ _ how => Resolve how = unix.RESOLVE_IN_ROOT /\ 0 <= Mode how < 4096
  | _ => True
  end.

(** The calls of [doHardLink]. *)
Definition linking (n : sysname) : bool :=
  match n with
  | N_Linkat | N_Unlinkat => true
  | _ => false
  end.

(** The calls of the larger set that are not calls of the smaller one. *)
Definition added {X : Type} (c : xsyscall X) : Prop :=
  match c with
  | base _ => False
  | _ => True
  end.

(** [built P q]: the program [q] over the larger set of calls is made of
    programs over the smaller set that satisfy [P], of calls that are not in
    the smaller set, and of returns. *)
Inductive built (P : forall A : Type, prog A -> Prop) : forall B : Type, xprog B -> Prop :=
| built_Ret (B : Type) (b : B) : built P B (XRet b)
| built_lift (B : Type) (p : prog B) : P B p -> built P B (lift p)
| built_call (X : Type) (c : xsyscall X) : added c -> built P X (xcall c)
| built_bind (A B : Type) (q : xprog A) (k : A -> xprog B) :
    built P A q -> (forall a : A, built P B (k a)) -> built P B (xbind q k).

(** * Properties *)

(** ** Runs of composed programs *)

Lemma run_bind {K A B : Type} (h : kernel K) (p : prog A) (f : A -> prog B) (s : process K) :
  run h (bind p f) s =
  match run h p s with
  | (evs, s1, Some a) =>
      let '(evs', s2, r) := run h (f a) s1 in (evs ++ evs', s2, r)
  | (evs, s1, None) => (evs, s1, None)
  end.
Proof.
  revert s. induction p as [a | X c k IH | k IH | v k IH | ]; intros s; simpl.
  - destruct (run h (f a) s) as [[evs s2] r]. reflexivity.
  - destruct (h X c (kern s)) as [x kn]. rewrite IH.
    destruct (run h (k x) _) as [[evs s1] [a |]]; [| reflexivity].
    destruct (run h (f a) s1) as [[evs' s2] r]. reflexivity.
  - rewrite IH. destruct (run h (k (skipOpenat2 s)) s) as [[evs s1] [a |]]; [| reflexivity].
    destruct (run h (f a) s1) as [[evs' s2] r]. reflexivity.
  - rewrite IH. destruct (run h k _) as [[evs s1] [a |]]; [| reflexivity].
    destruct (run h (f a) s1) as [[evs' s2] r]. reflexivity.
  - reflexivity.
Qed.

Lemma run_call {K X : Type} (h : kernel K) (c : syscall X) (s : process K) :
  run h (call c) s =
  ([Called c (fst (h X c (kern s)))],
   mkProcess (snd (h X c (kern s))) (skipOpenat2 s),
   Some (fst (h X c (kern s)))).
Proof. unfold call. simpl. destruct (h X c (kern s)). reflexivity. Qed.

Lemma collect_app {A : Type} (f : event -> option A) (l1 l2 : list event) :
  collect f (l1 ++ l2) = collect f l1 ++ collect f l2.
Proof. unfold collect. apply flat_map_app. Qed.

Lemma collect_cons {A : Type} (f : event -> option A) (e : event) (l : list event) :
  collect f (e :: l) = match f e with Some a => [a] | None => [] end ++ collect f l.
Proof. reflexivity. Qed.

Ltac collect_norm := repeat (rewrite collect_app || rewrite collect_cons).

Lemma names_app (l1 l2 : list event) : names (l1 ++ l2) = names l1 ++ names l2.
Proof. apply collect_app. Qed.

(** ** Go values *)

Lemma File_Fd_not_negative (f : option osFile) : (File_Fd f <? 0) = false.
Proof.
  apply Z.ltb_ge. destruct f as [f |]; simpl.
  - unfold to_uintptr. apply Z.mod_pos_bound. reflexivity.
  - discriminate.
Qed.

Lemma to_int64_in_range (z : Z) : - 2 ^ 63 <= z <= maxInt64 -> to_int64 z = z.
Proof.
  unfold to_int64, maxInt64. intros H.
  rewrite Z.mod_small; lia.
Qed.

(** ** Entries marked skip-attributes *)

(** C5: for an entry marked skip-attributes, [setFileAttrs] returns nil and
    makes no system call at all (no ownership, extended-attribute, timestamp
    or mode call), whatever the kernel, the handle and the other arguments;
    the process is left as it was. *)
Theorem setFileAttrs_skip_no_mutation {K : Type} (h : kernel K)
    (typeToTarType : string -> Z * option error) (xattrsToIgnore : string -> bool)
    (decode : string -> result (list Z)) (depth : nat) (dirfd : Z) (file : option osFile)
    (mode : Z) (metadata : fileMetadata) (options : TarOptions) (usePath : bool)
    (s : process K) :
  skipSetAttrs metadata = true ->
  run h (setFileAttrs typeToTarType xattrsToIgnore decode depth dirfd file mode metadata options
           usePath) s
  = ([], s, Some None).
Proof.
  intros Hskip. unfold setFileAttrs. rewrite Hskip. reflexivity.
Qed.

Lemma setFileAttrs_skip_no_mutation_witness :
  skipSetAttrs (regularEntry "a/b" [("user.k", "!")] true) = true /\
  run replay
    (setFileAttrs typesToTar ignoredXattrs base64Decode 1 3 None 420
       (regularEntry "a/b" [("user.k", "!")] true) strictOptions true)
    (mkProcess [] 0)
  = ([], mkProcess [] 0, Some None).
Proof.
  split; [reflexivity |].
  apply (setFileAttrs_skip_no_mutation replay). reflexivity.
Defined.

(** ** The handle check of [setFileAttrs] *)

(** An entry that is not marked and a nil handle: "invalid file", and no
    system call. *)
Lemma setFileAttrs_nil_file {K : Type} (h : kernel K)
    (typeToTarType : string -> Z * option error) (xattrsToIgnore : string -> bool)
    (decode : string -> result (list Z)) (depth : nat) (dirfd mode : Z)
    (metadata : fileMetadata) (options : TarOptions) (usePath : bool) (s : process K) :
  skipSetAttrs metadata = false ->
  run h (setFileAttrs typeToTarType xattrsToIgnore decode depth dirfd None mode metadata options
           usePath) s
  = ([], s, Some (Some (ErrorsNew "invalid file"))).
Proof.
  intros Hskip. unfold setFileAttrs. rewrite Hskip. reflexivity.
Qed.

(** A handle that is not nil passes the check whatever its descriptor:
    [file.Fd()] is unsigned, so [file.Fd() < 0] never holds.  With a type
    that has no tar type, the error returned is the one of the table. *)
Lemma setFileAttrs_any_handle_passes {K : Type} (h : kernel K)
    (typeToTarType : string -> Z * option error) (xattrsToIgnore : string -> bool)
    (decode : string -> result (list Z)) (depth : nat) (dirfd mode : Z) (f : osFile)
    (metadata : fileMetadata) (options : TarOptions) (usePath : bool) (s : process K)
    (t : Z) (e : error) :
  skipSetAttrs metadata = false ->
  typeToTarType (Type_ (meta metadata)) = (t, Some e) ->
  run h (setFileAttrs typeToTarType xattrsToIgnore decode depth dirfd (Some f) mode metadata
           options usePath) s
  = ([], s, Some (Some e)).
Proof.
  intros Hskip Ht. unfold setFileAttrs. rewrite Hskip.
  rewrite File_Fd_not_negative. simpl orb. cbv iota. rewrite Ht. reflexivity.
Qed.

(** C10: [setFileAttrs] on an entry that is not marked skip-attributes and
    a handle whose descriptor is negative (a closed file, descriptor -1):
    the check [file.Fd() < 0] compares an unsigned value and lets the handle
    through; the function goes on to [fchown(-1, ...)] and returns the
    kernel's [EBADF] wrapped as a chown error, not "invalid file". *)
Theorem setFileAttrs_negative_descriptor_not_rejected :
  skipSetAttrs (regularEntry "a" [] false) = false /\
  File_Fd (closedFile "a") = 2 ^ 64 - 1 /\
  run replay
    (setFileAttrs typesToTar ignoredXattrs base64Decode 1 3 (closedFile "a") 420
       (regularEntry "a" [] false) strictOptions false)
    (mkProcess [Status (Some (Errno unix.EBADF))] 0)
  = ([Called (unix_Fchown (-1) 0 0) (Some (Errno unix.EBADF))],
     mkProcess [] 0,
     Some (Some (Errorf "chown %q to %d:%d: %w" [ArgString "a"; ArgInt 0; ArgInt 0]
                   (Errno unix.EBADF)))).
Proof. repeat split. Qed.

(** ** Holes *)



(** Within a file, [resize] to its size plus [n] appends [n] zero bytes. *)
Lemma resize_extends (data : list Z) (n : Z) :
  0 <= n ->
  resize (Z.of_nat (List.length data) + n) data = data ++ repeat 0 (Z.to_nat n).
Proof.
  intros H. unfold resize.
  rewrite firstn_all2 by lia. f_equal. f_equal. lia.
Qed.




(** ** The calls and results a program can have *)

Lemma always_bind {A B : Type} (ok : forall X : Type, syscall X -> Prop) (mid : A -> Prop)
    (post : B -> Prop) (p : prog A) (f : A -> prog B) :
  always ok mid p -> (forall a, mid a -> always ok post (f a)) -> always ok post (bind p f).
Proof.
  intros Hp Hf. induction Hp; simpl; try (constructor; auto). auto.
Qed.

Lemma always_weaken {A : Type} (ok ok' : forall X : Type, syscall X -> Prop)
    (post post' : A -> Prop) (p : prog A) :
  (forall X c, ok X c -> ok' X c) -> (forall a, post a -> post' a) ->
  always ok post p -> always ok' post' p.
Proof.
  intros Hok Hpost Hp. induction Hp; constructor; auto.
Qed.

Lemma always_call {X : Type} (ok : forall X : Type, syscall X -> Prop) (post : X -> Prop)
    (c : syscall X) :
  ok X c -> (forall x, post x) -> always ok post (call c).
Proof. intros H Hp. unfold call. constructor; [assumption |]. intros x. constructor. apply Hp. Qed.

(** Soundness: in every run, on every kernel. *)
Lemma always_run {K A : Type} (ok : forall X : Type, syscall X -> Prop) (post : A -> Prop)
    (h : kernel K) (p : prog A) :
  always ok post p ->
  forall (s : process K) evs s' r,
    run h p s = (evs, s', r) ->
    Forall (eventOk ok) evs /\ (forall a, r = Some a -> post a).
Proof.
  intros Hp. induction Hp as [a Ha | X c k Hc Hk IH | k Hk IH | v k Hk IH | ];
    intros s evs s' r Hrun; simpl in Hrun.
  - inversion Hrun; subst. split; [constructor |]. intros a' E. inversion E; subst. exact Ha.
  - destruct (h X c (kern s)) as [x kn].
    destruct (run h (k x) _) as [[evs1 s1] r1] eqn:E1.
    inversion Hrun; subst. destruct (IH _ _ _ _ _ E1) as [H1 H2].
    split; [constructor; assumption | assumption].
  - destruct (run h (k (skipOpenat2 s)) s) as [[evs1 s1] r1] eqn:E1.
    inversion Hrun; subst. destruct (IH _ _ _ _ _ E1) as [H1 H2].
    split; [constructor; [exact I | assumption] | assumption].
  - destruct (run h k _) as [[evs1 s1] r1] eqn:E1.
    inversion Hrun; subst. destruct (IH _ _ _ _ E1) as [H1 H2].
    split; [constructor; [exact I | assumption] | assumption].
  - inversion Hrun; subst. split; [constructor |]. intros a E. discriminate.
Qed.

Ltac always_step :=
  match goal with
  | |- always _ _ (bind _ _) => eapply always_bind with (mid := fun _ => True)
  | |- always _ _ (call _) =>
      apply always_call; [simpl; try reflexivity; try exact I | intros; try exact I]
  | |- always _ _ (Sys _ _) => apply always_Sys; [simpl; try reflexivity; try exact I |]
  | |- always _ _ (Ret _) => constructor; try exact I
  | |- always _ _ (LoadSkipOpenat2 _) => constructor
  | |- always _ _ (StoreSkipOpenat2 _ _) => constructor
  | |- always _ _ StackOverflow => constructor
  | |- always _ _ (atomic_LoadInt32_skipOpenat2) => unfold atomic_LoadInt32_skipOpenat2
  | |- always _ _ (atomic_StoreInt32_skipOpenat2 _) => unfold atomic_StoreInt32_skipOpenat2
  | |- always _ _ (match ?x with _ => _ end) => destruct x
  | |- always _ _ (let (_, _) := ?x in _) => destruct x
  | |- forall _, _ => intro
  end.

Ltac always_auto := repeat always_step.

Lemma File_Close_opens (f : option osFile) : always opens (fun _ => True) (File_Close f).
Proof. unfold File_Close. always_auto. Qed.

Lemma checkUnderRoot_opens (name targetRoot : string) (fd : Z) :
  always opens (fun _ => True) (checkUnderRoot name targetRoot fd).
Proof. unfold checkUnderRoot. always_auto. Qed.

Lemma openFileUnderRootFallback_opens (dirfd : Z) (name : string) (flags mode : Z) :
  always opens (fun _ => True) (openFileUnderRootFallback dirfd name flags mode).
Proof.
  unfold openFileUnderRootFallback. always_auto; try apply checkUnderRoot_opens.
Qed.

Lemma openFileUnderRootRaw_opens (dirfd : Z) (name : string) (flags mode : Z) :
  always opens (fun _ => True) (openFileUnderRootRaw dirfd name flags mode).
Proof.
  unfold openFileUnderRootRaw, openFileUnderRootOpenat2.
  always_auto; try apply openFileUnderRootFallback_opens.
Qed.

Lemma openOrCreateDirUnderRoot_opens (depth : nat) (dirfd : Z) (name : string) (mode : Z) :
  always opens (fun _ => True) (openOrCreateDirUnderRoot depth dirfd name mode).
Proof.
  revert dirfd name mode. induction depth as [| depth IH]; intros dirfd name mode; simpl.
  - constructor.
  - always_auto; try apply openFileUnderRootRaw_opens; try apply File_Close_opens; try apply IH.
Qed.

Lemma openFileUnderRoot_opens (depth : nat) (dirfd : Z) (name : string) (flags mode : Z) :
  always opens (fun _ => True) (openFileUnderRoot depth dirfd name flags mode).
Proof.
  unfold openFileUnderRoot.
  always_auto; try apply openFileUnderRootRaw_opens; try apply File_Close_opens;
    try apply openOrCreateDirUnderRoot_opens.
Qed.

(** ** Extended attributes that do not decode *)

Lemma opens_beforeUndecodable (visited : list string) (X : Type) (c : syscall X) :
  opens X c -> beforeUndecodable visited X c.
Proof. unfold opens. destruct c; simpl; intros H; try exact I; discriminate. Qed.

Lemma beforeUndecodable_more (k0 : string) (visited : list string) (X : Type) (c : syscall X) :
  beforeUndecodable visited X c -> beforeUndecodable (k0 :: visited) X c.
Proof. destruct c; simpl; auto. Qed.

(** The loop over the attributes returns at the first value that does not
    decode; up to there it has set the attributes it visited before. *)
Lemma setXattrs_stops_at_undecodable (xattrsToIgnore : string -> bool)
    (decode : string -> result (list Z)) (fd : Z) (name : string)
    (pre post : list (string * string)) (k v : string) (e : error) :
  xattrsToIgnore k = false ->
  decode v = Err e ->
  always (beforeUndecodable (map fst pre)) (fun r => r <> None)
    (setXattrs xattrsToIgnore decode fd name (pre ++ (k, v) :: post)).
Proof.
  intros Hk Hv. induction pre as [| [k0 v0] pre IH]; simpl.
  - rewrite Hk, Hv. constructor. discriminate.
  - assert (IH' : always (beforeUndecodable (k0 :: map fst pre)) (fun r => r <> None)
                    (setXattrs xattrsToIgnore decode fd name (pre ++ (k, v) :: post))).
    { eapply always_weaken; [| | exact IH]; [apply beforeUndecodable_more | auto]. }
    destruct (xattrsToIgnore k0); [exact IH' |].
    destruct (decode v0) as [data | e0]; [| constructor; discriminate].
    apply always_Sys; [simpl; auto |].
    intros err. unfold unlessIgnorable.
    destruct err as [e1 |]; [| exact IH'].
    destruct (canIgnore (Some e1)); [exact IH' | constructor; discriminate].
Qed.

Lemma applyAttrs_stops_at_undecodable (xattrsToIgnore : string -> bool)
    (decode : string -> result (list Z)) (fd dirfd : Z) (baseName : string) (usePath : bool)
    (mode : Z) (metadata : fileMetadata) (options : TarOptions)
    (pre post : list (string * string)) (k v : string) (e : error) :
  Xattrs (meta metadata) = pre ++ (k, v) :: post ->
  xattrsToIgnore k = false ->
  decode v = Err e ->
  always (beforeUndecodable (map fst pre)) (fun r => r <> None)
    (applyAttrs xattrsToIgnore decode fd dirfd baseName usePath mode metadata options).
Proof.
  intros Hx Hk Hv. unfold applyAttrs. rewrite Hx. cbv zeta.
  assert (Hloop : forall rest : option error -> prog (option error),
            (forall err, always (beforeUndecodable (map fst pre)) (fun r => r <> None)
                           (rest (Some err))) ->
            always (beforeUndecodable (map fst pre)) (fun r : option error => r <> None)
              (bind (setXattrs xattrsToIgnore decode fd (Name (meta metadata))
                       (pre ++ (k, v) :: post)) rest)).
  { intros rest Hrest. eapply always_bind.
    - apply (setXattrs_stops_at_undecodable xattrsToIgnore decode fd _ pre post k v e Hk Hv).
    - intros r Hr. destruct r as [err |]; [apply Hrest | contradiction]. }
  eapply always_bind with (mid := fun _ => True).
  - destruct usePath; apply always_call; simpl; auto.
  - intros err _. destruct err as [e1 |].
    + destruct (negb (IgnoreChownErrors options)); [constructor; discriminate |].
      apply Hloop. intros err. constructor. discriminate.
    + apply Hloop. intros err. constructor. discriminate.
Qed.

Lemma eventOk_beforeUndecodable (visited : list string) (evs : list event) :
  Forall (eventOk (beforeUndecodable visited)) evs ->
  (forall fd k data, In (fd, k, data) (collect setxattrOf evs) -> In k visited) /\
  (forall n, In n (names evs) -> n <> N_UtimesNanoAt /\ n <> N_Fchmod /\ n <> N_Fchmodat).
Proof.
  induction 1 as [| ev evs Hev Hevs [IH1 IH2]]; [split; intros; contradiction |].
  split.
  - intros fd k data Hin. unfold collect in Hin. simpl in Hin. apply in_app_or in Hin.
    destruct Hin as [Hin | Hin]; [| eapply IH1; exact Hin].
    destruct ev as [X c r | |]; simpl in Hin; try contradiction.
    destruct c; simpl in Hin; try contradiction.
    destruct Hin as [Hin |]; [| contradiction]. inversion Hin; subst. exact Hev.
  - intros n Hin. unfold names, collect in Hin. simpl in Hin. apply in_app_or in Hin.
    destruct Hin as [Hin | Hin]; [| apply IH2; exact Hin].
    destruct ev as [X c r | |]; simpl in Hin; try contradiction.
    destruct Hin as [Hin |]; [| contradiction]. subst n.
    destruct c; simpl in Hev |- *; try contradiction; repeat split; discriminate.
Qed.

(** C4, as the code has it: when an entry that is not marked
    skip-attributes has, under a name that is not ignored, an attribute value
    that is not valid base64, [setFileAttrs] never returns nil, and it makes
    no [fsetxattr] call for that attribute nor for any attribute that the
    loop would visit after it, and no call for timestamps or mode.  The only
    [fsetxattr] calls are for attributes visited before ([pre]); none at all
    when the attribute is the first one visited. *)
Theorem setFileAttrs_undecodable_xattr {K : Type} (h : kernel K)
    (typeToTarType : string -> Z * option error) (xattrsToIgnore : string -> bool)
    (decode : string -> result (list Z)) (depth : nat) (dirfd : Z) (file : option osFile)
    (mode : Z) (metadata : fileMetadata) (options : TarOptions) (usePath : bool)
    (s : process K) (pre post : list (string * string)) (k v : string) (e : error) :
  skipSetAttrs metadata = false ->
  Xattrs (meta metadata) = pre ++ (k, v) :: post ->
  xattrsToIgnore k = false ->
  decode v = Err e ->
  forall evs s' r,
    run h (setFileAttrs typeToTarType xattrsToIgnore decode depth dirfd file mode metadata
             options usePath) s = (evs, s', r) ->
    r <> Some None /\
    (forall fd k' data, In (fd, k', data) (collect setxattrOf evs) -> In k' (map fst pre)) /\
    (forall n, In n (names evs) -> n <> N_UtimesNanoAt /\ n <> N_Fchmod /\ n <> N_Fchmodat) /\
    (pre = [] -> collect setxattrOf evs = []).
Proof.
  intros Hskip Hx Hk Hv evs s' r Hrun.
  assert (Hall : always (beforeUndecodable (map fst pre)) (fun r => r <> None)
                   (setFileAttrs typeToTarType xattrsToIgnore decode depth dirfd file mode
                      metadata options usePath)).
  { unfold setFileAttrs. rewrite Hskip.
    destruct (_ || _); [constructor; discriminate |].
    destruct (typeToTarType _) as [t err].
    destruct err as [e0 |]; [constructor; discriminate |].
    pose proof (fun fd dfd b u =>
                  applyAttrs_stops_at_undecodable xattrsToIgnore decode fd dfd b u mode metadata
                    options pre post k v e Hx Hk Hv) as Happly.
    destruct (if t =? tar_TypeSymlink then true else usePath); [| apply Happly].
    destruct (negb _); [| apply Happly].
    eapply always_bind with (mid := fun _ => True).
    - eapply always_weaken; [| | apply openFileUnderRoot_opens];
        [apply opens_beforeUndecodable | auto].
    - intros [parentFd err] _. destruct err as [e0 |]; [constructor; discriminate |].
      eapply always_bind; [apply Happly |].
      intros r0 Hr0. eapply always_bind with (mid := fun _ => True).
      + eapply always_weaken; [| | apply File_Close_opens];
          [apply opens_beforeUndecodable | auto].
      + intros _ _. constructor. exact Hr0. }
  destruct (always_run _ _ h _ Hall s evs s' r Hrun) as [Hevs Hres].
  destruct (eventOk_beforeUndecodable _ _ Hevs) as [Hset Hnames].
  split; [| split; [exact Hset | split; [exact Hnames |]]].
  - intros Hr. apply (Hres None); [exact Hr | reflexivity].
  - intros Hpre. subst pre.
    destruct (collect setxattrOf evs) as [| [[fd k'] data] rest] eqn:E; [reflexivity |].
    exfalso. apply (Hset fd k' data). left. reflexivity.
Qed.

Lemma setFileAttrs_undecodable_xattr_witness :
  skipSetAttrs (regularEntry "f" [("user.a", "YQ=="); ("user.b", "!")] false) = false /\
  ignoredXattrs "user.b" = false /\
  base64Decode "!" = Err (CorruptInputError 0) /\
  snd (run replay
         (setFileAttrs typesToTar ignoredXattrs base64Decode 1 3 (Some (mkFile 5 "f")) 420
            (regularEntry "f" [("user.a", "YQ=="); ("user.b", "!")] false) strictOptions false)
         (mkProcess [Status None; Status None] 0))
  <> Some None.
Proof.
  split; [reflexivity |]. split; [reflexivity |]. split; [reflexivity |].
  destruct (run replay _ _) as [[evs s'] r] eqn:Hrun.
  apply (setFileAttrs_undecodable_xattr replay typesToTar ignoredXattrs base64Decode 1 3
           (Some (mkFile 5 "f")) 420
           (regularEntry "f" [("user.a", "YQ=="); ("user.b", "!")] false) strictOptions false
           (mkProcess [Status None; Status None] 0)
           [("user.a", "YQ==")] [] "user.b" "!" (CorruptInputError 0)
           eq_refl eq_refl eq_refl eq_refl evs s' r Hrun).
Defined.

(** C4, as the claim states it, fails, in three ways.  With the attributes
    visited in the order [user.a], [user.b], the value of [user.b] does not
    decode, and yet [fsetxattr] has been called for [user.a] (after [fchown])
    before [setFileAttrs] returns the decoding error.  A value that does not
    decode under an ignored name is never decoded: [setFileAttrs] goes on to
    timestamps and mode and returns nil.  And an entry marked skip-attributes
    returns nil whatever its attributes. *)
Lemma setFileAttrs_setxattr_before_decode_failure :
  base64Decode "!" = Err (CorruptInputError 0) /\
  run replay
    (setFileAttrs typesToTar ignoredXattrs base64Decode 1 3 (Some (mkFile 5 "f")) 420
       (regularEntry "f" [("user.a", "YQ=="); ("user.b", "!")] false) strictOptions false)
    (mkProcess [Status None; Status None] 0)
  = ([Called (unix_Fchown 5 0 0) None; Called (unix_Fsetxattr 5 "user.a" [97] 0) None],
     mkProcess [] 0,
     Some (Some (Errorf "decode xattr %q: %w" [ArgString "!"] (CorruptInputError 0)))) /\
  run replay
    (setFileAttrs typesToTar ignoredXattrs base64Decode 1 3 (Some (mkFile 5 "f")) 420
       (regularEntry "f" [("security.selinux", "!")] false) strictOptions false)
    (mkProcess [Status None; Status None; Status None] 0)
  = ([Called (unix_Fchown 5 0 0) None;
      Called (unix_UtimesNanoAt (-100) "/proc/self/fd/5"
                [mkTimespec 0 1073741822; mkTimespec 0 1073741822] 0) None;
      Called (unix_Fchmod 5 420) None],
     mkProcess [] 0,
     Some None) /\
  run replay
    (setFileAttrs typesToTar ignoredXattrs base64Decode 1 3 (Some (mkFile 5 "f")) 420
       (regularEntry "f" [("user.b", "!")] true) strictOptions false)
    (mkProcess [] 0)
  = ([], mkProcess [] 0, Some None).
Proof. repeat split. Qed.

(** ** Containment of the fallback *)

Ltac run_cases H h :=
  repeat
    (cbn [run bind call] in H;
     match type of H with
     | context [h ?X ?c ?k] => destruct (h X c k) as [? ?] eqn:?
     | context [run h (match ?x with _ => _ end) _] => destruct x eqn:?
     | context [bind (match ?x with _ => _ end) _] => destruct x eqn:?
     end).

(** C1: [openFileUnderRootFallback] always returns; when it returns a
    descriptor without error, it has read the root's real path and then the
    real path of the descriptor it returns, and the first is a string prefix
    of the second; and whenever the real path it reads for the descriptor it
    has opened lacks that prefix, it returns [-1] with the error "resolves
    outside the root directory" and has closed that descriptor.  This holds
    for every name, every flag and every kernel. *)
Theorem openFileUnderRootFallback_stays_under_root {K : Type} (h : kernel K)
    (dirfd : Z) (name : string) (flags mode : Z) (s : process K) :
  forall evs s' r,
    run h (openFileUnderRootFallback dirfd name flags mode) s = (evs, s', r) ->
    exists fd err,
      r = Some (fd, err) /\
      (err = None ->
       exists targetRoot target,
         collect readlinkOf evs
         = [(procPathForFd dirfd, Ok targetRoot); (procPathForFd fd, Ok target)] /\
         strings_HasPrefix target targetRoot = true) /\
      (forall targetRoot p target,
          collect readlinkOf evs = [(procPathForFd dirfd, Ok targetRoot); (p, Ok target)] ->
          strings_HasPrefix target targetRoot = false ->
          fd = -1 /\
          err = Some (ErrorfMsg "while resolving %q.  It resolves outside the root directory"
                        [ArgString name]) /\
          exists opened, p = procPathForFd opened /\ In opened (collect closeOf evs)).
Proof.
  intros evs s' r Hrun.
  unfold openFileUnderRootFallback, checkUnderRoot in Hrun.
  run_cases Hrun h;
    inversion Hrun; subst; clear Hrun;
    eexists; eexists; (split; [reflexivity |]); split.
  all: try (intros Herr; discriminate Herr).
  all: try (intros targetRoot p target Hlinks Hprefix; cbn in Hlinks; discriminate Hlinks).
  all: try (intros targetRoot p target Hlinks Hprefix; cbn in Hlinks;
            inversion Hlinks; subst;
            match goal with
            | E : negb (strings_HasPrefix _ _) = false |- _ =>
                apply negb_false_iff in E; congruence
            end).
  all: try (intros _; eexists; eexists; split; [reflexivity |];
            match goal with
            | E : negb (strings_HasPrefix _ _) = false |- _ =>
                apply negb_false_iff in E; exact E
            end).
  all: intros targetRoot p target Hlinks Hprefix; cbn in Hlinks; inversion Hlinks; subst;
    split; [reflexivity |]; split; [reflexivity |];
    eexists; split; [reflexivity |]; cbn; auto.
Qed.

(** ** Deduplication by hard link *)

Lemma collect_nil_of_none {A : Type} (f : event -> option A)
    (ok : forall X : Type, syscall X -> Prop) (evs : list event) :
  (forall e, eventOk ok e -> f e = None) ->
  Forall (eventOk ok) evs -> collect f evs = [].
Proof.
  intros Hf. induction 1 as [| e evs He _ IH]; [reflexivity |].
  unfold collect in *. simpl. rewrite (Hf e He). exact IH.
Qed.

(** Opening and closing under the root neither stats, links nor copies. *)
Lemma opens_silent (evs : list event) :
  Forall (eventOk opens) evs ->
  collect statOf evs = [] /\ collect linkatOf evs = [] /\ collect copyOf evs = [].
Proof.
  intros H. repeat split; apply (collect_nil_of_none _ opens); try exact H;
    intros [X c r | v | v] Hc; try reflexivity;
    unfold opens in Hc; destruct c; simpl in Hc; try discriminate; reflexivity.
Qed.

Lemma run_opens_silent {K A : Type} (h : kernel K) (p : prog A) (s : process K) evs s' r :
  always opens (fun _ => True) p ->
  run h p s = (evs, s', r) ->
  collect statOf evs = [] /\ collect linkatOf evs = [] /\ collect copyOf evs = [].
Proof.
  intros Hp Hrun. apply opens_silent. exact (proj1 (always_run _ _ h p Hp s evs s' r Hrun)).
Qed.

(** [doHardLink] returns nil exactly when a [linkat] succeeded. *)
Lemma doHardLink_run {K : Type} (h : kernel K) (srcFd destDirFd : Z) (destBase : string)
    (s : process K) evs s' r :
  run h (doHardLink srcFd destDirFd destBase) s = (evs, s', r) ->
  exists err,
    r = Some err /\
    (err = None <-> In None (collect linkatOf evs)) /\
    collect statOf evs = [] /\ collect copyOf evs = [].
Proof.
  intros Hrun. unfold doHardLink in Hrun.
  run_cases Hrun h; inversion Hrun; subst; clear Hrun;
    eexists; (split; [reflexivity |]); cbn; repeat split; auto;
    try (intros [E | [E | []]]; first [discriminate E | exact E]);
    try (intros [E | []]; discriminate E);
    try (intros E; discriminate E).
Qed.

Section FreshCopy.

Context {K : Type} (h : kernel K).
Variable newFileFlags : Z.
Variables (depth : nat) (srcFd : Z) (st : FileInfo) (fileMeta : fileMetadata) (dirfd mode : Z).

Lemma copyToFreshFile_run (closing : prog unit) (s : process K) evs s' md' f n err :
  always opens (fun _ => True) closing ->
  run h (copyToFreshFile newFileFlags depth (procPathForFd srcFd) st fileMeta dirfd mode closing) s
  = (evs, s', Some (md', (f, n, err))) ->
  md' = fileMeta /\ collect statOf evs = [] /\ collect linkatOf evs = [] /\
  freshCopyOutcome h newFileFlags depth srcFd st fileMeta dirfd mode s evs f n err.
Proof.
  intros Hclosing Hrun. unfold copyToFreshFile in Hrun.
  rewrite run_bind in Hrun.
  destruct (run h (openFileUnderRoot _ _ _ _ _) s) as [[e4 s4] [[dstFile oerr] |]] eqn:Eopen;
    [| discriminate Hrun].
  destruct (run_opens_silent h _ _ _ _ _ (openFileUnderRoot_opens _ _ _ _ _) Eopen)
    as (Hs4 & Hl4 & Hc4).
  destruct oerr as [e |].
  - (* the destination does not open *)
    rewrite run_bind in Hrun.
    destruct (run h closing s4) as [[e5 s5] [[] |]] eqn:Eclose; [| discriminate Hrun].
    destruct (run_opens_silent h _ _ _ _ _ Hclosing Eclose) as (Hs5 & Hl5 & Hc5).
    cbn in Hrun. inversion Hrun; subst; clear Hrun.
    rewrite app_nil_r, !collect_app, Hs4, Hl4, Hs5, Hl5.
    repeat split. right; left.
    exists e, dstFile, e4, e5, s4. rewrite collect_app, Hc4, Hc5.
    repeat split; try reflexivity. exact Eopen.
  - cbn [run bind call] in Hrun.
    destruct (h _ (driversCopy_CopyRegularToFile _ _ _ _ _) (kern s4)) as [cerr k5] eqn:Ecopy.
    destruct cerr as [e |].
    + (* the copy fails *)
      rewrite run_bind in Hrun.
      destruct (run h (File_Close dstFile) _) as [[e6 s6] [c |]] eqn:Ec; [| discriminate Hrun].
      destruct (run_opens_silent h _ _ _ _ _ (File_Close_opens _) Ec) as (Hs6 & Hl6 & Hc6).
      rewrite run_bind in Hrun.
      destruct (run h closing s6) as [[e5 s5] [[] |]] eqn:Eclose; [| discriminate Hrun].
      destruct (run_opens_silent h _ _ _ _ _ Hclosing Eclose) as (Hs5 & Hl5 & Hc5).
      cbn in Hrun. inversion Hrun; subst; clear Hrun.
      rewrite app_nil_r.
      collect_norm; rewrite Hs4, Hl4, Hs5, Hl5, Hs6, Hl6.
      repeat split. right; right.
      exists e, dstFile. collect_norm; rewrite Hc4, Hc5, Hc6. repeat split; reflexivity.
    + (* the copy succeeds *)
      rewrite run_bind in Hrun.
      destruct (run h closing _) as [[e5 s5] [[] |]] eqn:Eclose; [| discriminate Hrun].
      destruct (run_opens_silent h _ _ _ _ _ Hclosing Eclose) as (Hs5 & Hl5 & Hc5).
      cbn in Hrun. inversion Hrun; subst; clear Hrun.
      rewrite app_nil_r.
      collect_norm; rewrite Hs4, Hl4, Hs5, Hl5.
      repeat split. left.
      collect_norm; rewrite Hc4, Hc5. repeat split; try reflexivity.
      exists e4, ([Called (driversCopy_CopyRegularToFile (procPathForFd srcFd) f st true true) None]
                  ++ e5), s4.
      split; [reflexivity | exact Eopen].
Qed.

End FreshCopy.

Lemma File_Close_returns {K : Type} (h : kernel K) (f : option osFile) (s : process K)
    evs s' r :
  run h (File_Close f) s = (evs, s', r) -> exists c, r = Some c.
Proof.
  unfold File_Close. intros Hrun. run_cases Hrun h; inversion Hrun; subst; eexists; reflexivity.
Qed.

Lemma opens_opensOrCopies (X : Type) (c : syscall X) : opens X c -> opensOrCopies X c.
Proof. intros H. left. exact H. Qed.

(** The fresh copy never links, whether it returns or not. *)
Lemma copyToFreshFile_never_links {K : Type} (h : kernel K) (newFileFlags : Z) (depth : nat)
    (src : string) (st : FileInfo) (fileMeta : fileMetadata) (dirfd mode : Z)
    (closing : prog unit) (s : process K) evs s' r :
  always opens (fun _ => True) closing ->
  run h (copyToFreshFile newFileFlags depth src st fileMeta dirfd mode closing) s = (evs, s', r) ->
  collect linkatOf evs = [].
Proof.
  intros Hclosing Hrun.
  assert (Hall : always opensOrCopies (fun _ => True)
                   (copyToFreshFile newFileFlags depth src st fileMeta dirfd mode closing)).
  { assert (Hc : always opensOrCopies (fun _ : unit => True) closing).
    { eapply always_weaken; [| | exact Hclosing]; [apply opens_opensOrCopies | auto]. }
    assert (Ho : forall f, always opensOrCopies (fun _ : option error => True) (File_Close f)).
    { intros f. eapply always_weaken; [| | apply File_Close_opens];
        [apply opens_opensOrCopies | auto]. }
    unfold copyToFreshFile. eapply always_bind with (mid := fun _ => True).
    - eapply always_weaken; [| | apply openFileUnderRoot_opens];
        [apply opens_opensOrCopies | auto].
    - intros [dstFile err] _. destruct err as [e |].
      + eapply always_bind; [exact Hc |]. intros _ _. constructor. exact I.
      + eapply always_bind with (mid := fun _ => True).
        * apply always_call; [right; reflexivity | auto].
        * intros cerr _. destruct cerr as [e |].
          -- eapply always_bind; [apply Ho |]. intros _ _.
             eapply always_bind; [exact Hc |]. intros _ _. constructor. exact I.
          -- eapply always_bind; [exact Hc |]. intros _ _. constructor. exact I. }
  apply (collect_nil_of_none _ opensOrCopies);
    [| exact (proj1 (always_run _ _ h _ Hall s evs s' r Hrun))].
  intros [X c x | v | v] Hc; try reflexivity.
  destruct c; destruct Hc as [Hc | Hc]; simpl in Hc; try discriminate; reflexivity.
Qed.

Section FreshCopyEnds.

Context {K : Type} (h : kernel K).
Variable newFileFlags : Z.
Variables (depth : nat) (srcFd : Z) (st : FileInfo) (fileMeta : fileMetadata) (dirfd mode : Z).

(** Every run of the fresh copy, returning or not: the destination is
    opened, and what follows depends on how that ended. *)
Lemma copyToFreshFile_ends (closing : prog unit) (s : process K) evs s' r :
  always opens (fun _ => True) closing ->
  (forall s0 e s1 r0, run h closing s0 = (e, s1, r0) -> r0 = Some tt) ->
  run h (copyToFreshFile newFileFlags depth (procPathForFd srcFd) st fileMeta dirfd mode closing) s
  = (evs, s', r) ->
  collect statOf evs = [] /\ collect linkatOf evs = [] /\
  exists e4 s4 opened post,
    evs = e4 ++ post /\
    run h (openFileUnderRoot depth dirfd (Name (meta fileMeta)) newFileFlags mode) s
    = (e4, s4, opened) /\
    collect copyOf e4 = [] /\
    freshCopyEnds srcFd st fileMeta opened post r.
Proof.
  intros Hclosing Hreturns Hrun. unfold copyToFreshFile in Hrun.
  rewrite run_bind in Hrun.
  destruct (run h (openFileUnderRoot _ _ _ _ _) s) as [[e4 s4] opened] eqn:Eopen.
  destruct (run_opens_silent h _ _ _ _ _ (openFileUnderRoot_opens _ _ _ _ _) Eopen)
    as (Hs4 & Hl4 & Hc4).
  destruct opened as [[dstFile oerr] |].
  2: { inversion Hrun; subst. split; [exact Hs4 |]. split; [exact Hl4 |].
       exists evs, s', None, []. rewrite app_nil_r. repeat split. exact Hc4. }
  destruct oerr as [e |].
  - (* the destination does not open *)
    rewrite run_bind in Hrun.
    destruct (run h closing s4) as [[e5 s5] r5] eqn:Eclose.
    rewrite (Hreturns _ _ _ _ Eclose) in *.
    destruct (run_opens_silent h _ _ _ _ _ Hclosing Eclose) as (Hs5 & Hl5 & Hc5).
    cbn in Hrun. inversion Hrun; subst; clear Hrun.
    rewrite app_nil_r, !collect_app, Hs4, Hl4, Hs5, Hl5.
    split; [reflexivity |]. split; [reflexivity |].
    exists e4, s4, (Some (dstFile, Some e)), e5. repeat split; assumption.
  - cbn [run bind call] in Hrun.
    destruct (h _ (driversCopy_CopyRegularToFile _ _ _ _ _) (kern s4)) as [cerr k5] eqn:Ecopy.
    destruct cerr as [e |].
    + (* the copy fails *)
      rewrite run_bind in Hrun.
      destruct (run h (File_Close dstFile) _) as [[e6 s6] r6] eqn:Ec.
      destruct (File_Close_returns h _ _ _ _ _ Ec) as (c & ->).
      destruct (run_opens_silent h _ _ _ _ _ (File_Close_opens _) Ec) as (Hs6 & Hl6 & Hc6).
      rewrite run_bind in Hrun.
      destruct (run h closing s6) as [[e5 s5] r5] eqn:Eclose.
      rewrite (Hreturns _ _ _ _ Eclose) in *.
      destruct (run_opens_silent h _ _ _ _ _ Hclosing Eclose) as (Hs5 & Hl5 & Hc5).
      cbn in Hrun. inversion Hrun; subst; clear Hrun.
      rewrite app_nil_r.
      split; [collect_norm; rewrite Hs4, Hs5, Hs6; reflexivity |].
      split; [collect_norm; rewrite Hl4, Hl5, Hl6; reflexivity |].
      eexists _, _, _, _. split; [reflexivity |]. split; [reflexivity |]. split; [exact Hc4 |].
      eexists _, _. split; [reflexivity |]. split; [| reflexivity].
      rewrite collect_app, Hc6, Hc5. reflexivity.
    + (* the copy succeeds *)
      rewrite run_bind in Hrun.
      destruct (run h closing _) as [[e5 s5] r5] eqn:Eclose.
      rewrite (Hreturns _ _ _ _ Eclose) in *.
      destruct (run_opens_silent h _ _ _ _ _ Hclosing Eclose) as (Hs5 & Hl5 & Hc5).
      cbn in Hrun. inversion Hrun; subst; clear Hrun.
      rewrite app_nil_r.
      split; [collect_norm; rewrite Hs4, Hs5; reflexivity |].
      split; [collect_norm; rewrite Hl4, Hl5; reflexivity |].
      eexists _, _, _, _. split; [reflexivity |]. split; [reflexivity |]. split; [exact Hc4 |].
      eexists _, _. split; [reflexivity |]. split; [exact Hc5 | reflexivity].
Qed.

End FreshCopyEnds.

Section Dedup.

Context {K : Type} (h : kernel K).
Variable newFileFlags : Z.
Variables (depth : nat) (srcFd : Z) (fileMeta : fileMetadata) (dirfd mode : Z).

(** The ways in which [copyFileContent] with deduplication can return. *)
Lemma copyFileContent_run (s : process K) evs s' md' f n err :
  run h (copyFileContent newFileFlags depth srcFd fileMeta dirfd mode true) s
  = (evs, s', Some (md', (f, n, err))) ->
  (exists e, collect statOf evs = [(procPathForFd srcFd, Err e)] /\
             collect linkatOf evs = [] /\ err <> None)
  \/
  (exists st,
      collect statOf evs = [(procPathForFd srcFd, Ok st)] /\
      ((In None (collect linkatOf evs) /\
        md' = set_skipSetAttrs fileMeta true /\ f = None /\ n = Size st /\ err = None /\
        collect copyOf evs = [])
       \/
       (~ In None (collect linkatOf evs) /\
        md' = fileMeta /\
        exists pre s3 evs3,
          evs = pre ++ evs3 /\ collect copyOf pre = [] /\
          freshCopyOutcome h newFileFlags depth srcFd st fileMeta dirfd mode s3 evs3 f n err))).
Proof.
  intros Hrun. unfold copyFileContent in Hrun. cbn [run bind call] in Hrun.
  destruct (h _ (os_Stat _) (kern s)) as [[st | e] k0] eqn:Estat.
  2: { cbn in Hrun. inversion Hrun; subst. left. exists e. cbn. repeat split. discriminate. }
  right. exists st.
  destruct (filepath_Split (Name (meta fileMeta))) as [destDirPath destBase].
  cbn [run bind] in Hrun. rewrite run_bind in Hrun.
  destruct (run h (openFileUnderRoot _ _ _ _ _) _) as [[e1 s1] [[destDir derr] |]] eqn:Edir;
    [| discriminate Hrun].
  destruct (run_opens_silent h _ _ _ _ _ (openFileUnderRoot_opens _ _ _ _ _) Edir)
    as (Hs1 & Hl1 & Hc1).
  destruct derr as [de |].
  - (* the destination's directory does not open *)
    destruct (run h (copyToFreshFile _ _ _ _ _ _ _ _) s1) as [[evs3 s3] r3] eqn:Efresh.
    inversion Hrun; subst; clear Hrun.
    destruct (copyToFreshFile_run h _ _ _ _ _ _ _ _ _ _ _ _ _ _ _ (always_Ret _ _ tt I) Efresh)
      as (Hmd & Hs3 & Hl3 & Hout).
    collect_norm; rewrite Hs1, Hl1, Hs3, Hl3. cbn. split; [reflexivity |].
    right. split; [intros [] |]. split; [exact Hmd |].
    exists ([Called (os_Stat (procPathForFd srcFd)) (Ok st)] ++ e1), s1, evs3.
    split; [reflexivity |].
    split; [collect_norm; rewrite Hc1; reflexivity | exact Hout].
  - rewrite run_bind in Hrun.
    destruct (run h (doHardLink _ _ _) s1) as [[e2 s2] r2] eqn:Elink.
    destruct (doHardLink_run h _ _ _ _ _ _ _ Elink) as (lerr & -> & Hiff & Hs2 & Hc2).
    destruct lerr as [le |].
    + (* the link fails *)
      destruct (run h (copyToFreshFile _ _ _ _ _ _ _ _) s2) as [[evs3 s3] r3] eqn:Efresh.
      inversion Hrun; subst; clear Hrun.
      assert (Hclosing : always opens (fun _ : unit => True) (File_Close destDir ;;; Ret tt)).
      { eapply always_bind; [apply File_Close_opens |]. intros _ _. constructor. exact I. }
      destruct (copyToFreshFile_run h _ _ _ _ _ _ _ _ _ _ _ _ _ _ _ Hclosing Efresh)
        as (Hmd & Hs3 & Hl3 & Hout).
      collect_norm; rewrite Hs1, Hl1, Hs2, Hs3, Hl3. cbn. rewrite app_nil_r.
      split; [reflexivity |].
      right. split; [intros Hin; apply Hiff in Hin; discriminate Hin |]. split; [exact Hmd |].
      exists ([Called (os_Stat (procPathForFd srcFd)) (Ok st)] ++ e1 ++ e2), s2, evs3.
      split; [cbn; rewrite app_assoc; reflexivity |].
      split; [collect_norm; rewrite Hc1, Hc2; reflexivity | exact Hout].
    + (* the link succeeds *)
      rewrite run_bind in Hrun.
      destruct (run h (File_Close destDir) s2) as [[e3 s3] [c |]] eqn:Eclose;
        [| discriminate Hrun].
      destruct (run_opens_silent h _ _ _ _ _ (File_Close_opens _) Eclose) as (Hs3 & Hl3 & Hc3).
      cbn in Hrun. inversion Hrun; subst; clear Hrun.
      rewrite app_nil_r.
      collect_norm; rewrite Hs1, Hl1, Hs2, Hs3, Hl3, Hc1, Hc2, Hc3. cbn.
      rewrite app_nil_r.
      split; [reflexivity |].
      left. split; [apply Hiff; reflexivity |]. repeat split.
Qed.

(** After a hard link that succeeded there is nothing left that could fail
    to return. *)
Lemma copyFileContent_linked_returns (s : process K) evs s' r :
  run h (copyFileContent newFileFlags depth srcFd fileMeta dirfd mode true) s = (evs, s', r) ->
  In None (collect linkatOf evs) ->
  exists x, r = Some x.
Proof.
  intros Hrun Hin. unfold copyFileContent in Hrun. cbn [run bind call] in Hrun.
  destruct (h _ (os_Stat _) (kern s)) as [[st | e] k0] eqn:Estat.
  2: { cbn in Hrun. inversion Hrun; subst. eexists; reflexivity. }
  destruct (filepath_Split (Name (meta fileMeta))) as [destDirPath destBase].
  cbn [run bind] in Hrun. rewrite run_bind in Hrun.
  destruct (run h (openFileUnderRoot _ _ _ _ _) _) as [[e1 s1] r1] eqn:Edir.
  destruct (run_opens_silent h _ _ _ _ _ (openFileUnderRoot_opens _ _ _ _ _) Edir)
    as (_ & Hl1 & _).
  destruct r1 as [[destDir derr] |].
  2: { inversion Hrun; subst. rewrite collect_cons, Hl1 in Hin. destruct Hin. }
  destruct derr as [de |].
  - destruct (run h (copyToFreshFile _ _ _ _ _ _ _ _) s1) as [[evs3 s3] r3] eqn:Efresh.
    inversion Hrun; subst; clear Hrun.
    rewrite collect_cons, collect_app, Hl1 in Hin.
    rewrite (copyToFreshFile_never_links h _ _ _ _ _ _ _ _ _ _ _ _ (always_Ret _ _ tt I) Efresh)
      in Hin.
    destruct Hin.
  - rewrite run_bind in Hrun.
    destruct (run h (doHardLink _ _ _) s1) as [[e2 s2] r2] eqn:Elink.
    destruct (doHardLink_run h _ _ _ _ _ _ _ Elink) as (lerr & -> & Hiff & _).
    destruct lerr as [le |].
    + destruct (run h (copyToFreshFile _ _ _ _ _ _ _ _) s2) as [[evs3 s3] r3] eqn:Efresh.
      inversion Hrun; subst; clear Hrun.
      assert (Hclosing : always opens (fun _ : unit => True) (File_Close destDir ;;; Ret tt)).
      { eapply always_bind; [apply File_Close_opens |]. intros _ _. constructor. exact I. }
      rewrite collect_cons, !collect_app, Hl1 in Hin.
      rewrite (copyToFreshFile_never_links h _ _ _ _ _ _ _ _ _ _ _ _ Hclosing Efresh) in Hin.
      cbn in Hin. rewrite app_nil_r in Hin. apply Hiff in Hin. discriminate Hin.
    + rewrite run_bind in Hrun.
      destruct (run h (File_Close destDir) s2) as [[e3 s3] r3] eqn:Eclose.
      destruct (File_Close_returns h _ _ _ _ _ Eclose) as (c & ->).
      cbn in Hrun. inversion Hrun; subst. eexists; reflexivity.
Qed.

(** Every run of [copyFileContent] with deduplication, returning or not. *)
Lemma copyFileContent_ends (s : process K) evs s' r :
  run h (copyFileContent newFileFlags depth srcFd fileMeta dirfd mode true) s = (evs, s', r) ->
  let src := procPathForFd srcFd in
  let destFile := Name (meta fileMeta) in
  (exists e,
      evs = [Called (os_Stat src) (Err e)] /\
      r = Some (fileMeta,
                (None, -1, Some (Errorf "copy file content for %q: %w" [ArgString destFile] e))))
  \/
  (exists st rest,
      evs = Called (os_Stat src) (Ok st) :: rest /\
      collect statOf rest = [] /\
      (In None (collect linkatOf evs) \/
       (exists s0 s1,
           run h (openFileUnderRoot depth dirfd (fst (filepath_Split destFile)) 0 0) s0
           = (rest, s1, None) /\ r = None) \/
       (exists pre s3 e4 s4 opened post,
           evs = pre ++ e4 ++ post /\
           collect copyOf pre = [] /\ collect copyOf e4 = [] /\
           run h (openFileUnderRoot depth dirfd destFile newFileFlags mode) s3
           = (e4, s4, opened) /\
           freshCopyEnds srcFd st fileMeta opened post r))).
Proof.
  intros Hrun src destFile. unfold copyFileContent in Hrun. cbn [run bind call] in Hrun.
  fold src in Hrun. fold destFile in Hrun.
  destruct (h _ (os_Stat src) (kern s)) as [[st | e] k0] eqn:Estat.
  2: { cbn in Hrun. inversion Hrun; subst. left. exists e. split; reflexivity. }
  right. exists st.
  destruct (filepath_Split destFile) as [destDirPath destBase] eqn:Esplit.
  cbn [run bind fst] in Hrun. rewrite run_bind in Hrun.
  destruct (run h (openFileUnderRoot _ _ _ _ _) _) as [[e1 s1] r1] eqn:Edir.
  destruct (run_opens_silent h _ _ _ _ _ (openFileUnderRoot_opens _ _ _ _ _) Edir)
    as (Hs1 & Hl1 & Hc1).
  destruct r1 as [[destDir derr] |].
  2: { inversion Hrun; subst. exists e1. split; [reflexivity |]. split; [exact Hs1 |].
       right; left. eexists _, _. split; [exact Edir | reflexivity]. }
  destruct derr as [de |].
  - (* the destination's directory does not open *)
    destruct (run h (copyToFreshFile _ _ _ _ _ _ _ _) s1) as [[evs3 s3] r3] eqn:Efresh.
    inversion Hrun; subst; clear Hrun.
    destruct (copyToFreshFile_ends h _ _ _ _ _ _ _ _ _ _ _ _ (always_Ret _ _ tt I)
                ltac:(intros ? ? ? ? H0; cbn in H0; inversion H0; reflexivity) Efresh)
      as (Hs3 & Hl3 & e4 & s4 & opened & post & Hevs & Hopen & Hc4 & Hends).
    eexists. split; [reflexivity |].
    split; [rewrite collect_app, Hs1, Hs3; reflexivity |].
    right; right.
    exists (Called (os_Stat src) (Ok st) :: e1), s1, e4, s4, opened, post.
    split; [rewrite Hevs; reflexivity |]. split; [rewrite collect_cons, Hc1; reflexivity |].
    split; [exact Hc4 |]. split; [exact Hopen | exact Hends].
  - rewrite run_bind in Hrun.
    destruct (run h (doHardLink _ _ _) s1) as [[e2 s2] r2] eqn:Elink.
    destruct (doHardLink_run h _ _ _ _ _ _ _ Elink) as (lerr & -> & Hiff & Hs2 & Hc2).
    destruct lerr as [le |].
    + (* the link fails *)
      destruct (run h (copyToFreshFile _ _ _ _ _ _ _ _) s2) as [[evs3 s3] r3] eqn:Efresh.
      inversion Hrun; subst; clear Hrun.
      assert (Hclosing : always opens (fun _ : unit => True) (File_Close destDir ;;; Ret tt)).
      { eapply always_bind; [apply File_Close_opens |]. intros _ _. constructor. exact I. }
      assert (Hreturns : forall s0 e s4 r0,
                 run h (File_Close destDir ;;; Ret tt) s0 = (e, s4, r0) -> r0 = Some tt).
      { intros s0 e s4 r0 H0. rewrite run_bind in H0.
        destruct (run h (File_Close destDir) s0) as [[e' s0'] r'] eqn:Ec.
        destruct (File_Close_returns h _ _ _ _ _ Ec) as (c & ->).
        cbn in H0. inversion H0. reflexivity. }
      destruct (copyToFreshFile_ends h _ _ _ _ _ _ _ _ _ _ _ _ Hclosing Hreturns Efresh)
        as (Hs3 & Hl3 & e4 & s4 & opened & post & Hevs & Hopen & Hc4 & Hends).
      eexists. split; [reflexivity |].
      split; [rewrite !collect_app, Hs1, Hs2, Hs3; reflexivity |].
      right; right.
      exists (Called (os_Stat src) (Ok st) :: e1 ++ e2), s2, e4, s4, opened, post.
      split; [rewrite Hevs; cbn; rewrite <- app_assoc; reflexivity |].
      split; [rewrite collect_cons, collect_app, Hc1, Hc2; reflexivity |].
      split; [exact Hc4 |]. split; [exact Hopen | exact Hends].
    + (* the link succeeds *)
      rewrite run_bind in Hrun.
      destruct (run h (File_Close destDir) s2) as [[e3 s3] r3] eqn:Eclose.
      destruct (run_opens_silent h _ _ _ _ _ (File_Close_opens _) Eclose) as (Hs3 & Hl3 & Hc3).
      destruct r3 as [c |]; cbn in Hrun; inversion Hrun; subst; clear Hrun.
      all: eexists; (split; [reflexivity |]).
      all: split; [rewrite ?app_nil_r, !collect_app, Hs1, Hs2, Hs3; reflexivity |].
      all: left; rewrite ?app_nil_r, collect_cons, !collect_app, Hl1, Hl3; cbn;
        rewrite app_nil_r; apply Hiff; reflexivity.
Qed.

(** C2: [copyFileContent] with deduplication enabled, on any kernel, in
    every run.  If a hard link from the source to the destination succeeded,
    the function returns: the entry marked skip-attributes, the size that the
    stat of the source reported, no file handle and no error, and nothing was
    copied.  Otherwise, the source stat'ed, the entry stays as it is and the
    function goes on to the fresh file: it opens the destination under the
    root with [newFileFlags]; when that succeeds it copies the source into
    the handle, once, and returns the handle and the size of the stat if the
    copy succeeds, and the error of the copy, no handle and the size [-1] if
    it fails; when the destination does not open it copies nothing and
    returns the error of the open, no handle and the size [-1].  (The run
    ends without a result only where an open under the root exhausts the
    stack.)  When the stat fails, it is the only call, and its error is
    returned with no handle and the size [-1]. *)
Theorem copyFileContent_hardlink_or_copy (s : process K) evs s' r :
  run h (copyFileContent newFileFlags depth srcFd fileMeta dirfd mode true) s = (evs, s', r) ->
  let src := procPathForFd srcFd in
  let destFile := Name (meta fileMeta) in
  (In None (collect linkatOf evs) ->
   exists st,
     collect statOf evs = [(src, Ok st)] /\
     r = Some (set_skipSetAttrs fileMeta true, (None, Size st, None)) /\
     skipSetAttrs (set_skipSetAttrs fileMeta true) = true /\
     collect copyOf evs = [])
  /\
  (~ In None (collect linkatOf evs) ->
   forall st,
     collect statOf evs = [(src, Ok st)] ->
     (exists rest s0 s1,
         evs = Called (os_Stat src) (Ok st) :: rest /\
         run h (openFileUnderRoot depth dirfd (fst (filepath_Split destFile)) 0 0) s0
         = (rest, s1, None) /\
         r = None)
     \/
     (exists pre s3 e4 s4 opened post,
         evs = pre ++ e4 ++ post /\
         collect copyOf pre = [] /\ collect copyOf e4 = [] /\
         run h (openFileUnderRoot depth dirfd destFile newFileFlags mode) s3
         = (e4, s4, opened) /\
         freshCopyEnds srcFd st fileMeta opened post r))
  /\
  (forall e,
     collect statOf evs = [(src, Err e)] ->
     evs = [Called (os_Stat src) (Err e)] /\
     r = Some (fileMeta,
               (None, -1, Some (Errorf "copy file content for %q: %w" [ArgString destFile] e)))).
Proof.
  intros Hrun src destFile. split; [| split].
  - intros Hin.
    destruct (copyFileContent_linked_returns s _ _ _ Hrun Hin) as ([md' [[f n] err]] & ->).
    destruct (copyFileContent_run s _ _ _ _ _ _ Hrun)
      as [(e & Hstat & Hlink & Herr)
         | (st & Hstat & [(_ & Hmd & Hf & Hn & Herr & Hcopy) | (Hnot & _)])].
    + rewrite Hlink in Hin. destruct Hin.
    + exists st. subst. repeat split; assumption.
    + contradiction.
  - intros Hnot st Hstat.
    destruct (copyFileContent_ends s _ _ _ Hrun)
      as [(e & -> & _) | (st' & rest & -> & Hrest & Hcases)].
    + cbn in Hstat. discriminate Hstat.
    + rewrite collect_cons, Hrest in Hstat. cbn in Hstat. inversion Hstat; subst st'.
      destruct Hcases as [Hin | [(s0 & s1 & Hdir & ->) | Hfresh]].
      * contradiction.
      * left. exists rest, s0, s1. repeat split. exact Hdir.
      * right. exact Hfresh.
  - intros e Hstat.
    destruct (copyFileContent_ends s _ _ _ Hrun)
      as [(e' & -> & ->) | (st' & rest & -> & Hrest & _)].
    + cbn in Hstat. inversion Hstat; subst. split; reflexivity.
    + rewrite collect_cons, Hrest in Hstat. cbn in Hstat. discriminate Hstat.
Qed.


End Dedup.

Lemma copyFileContent_hardlink_or_copy_witness :
  let entry := regularEntry "a/b" [] false in
  let start :=
    mkProcess [Stat (Ok (mkFileInfo 42 420)); Int (Ok 4); Status (Some (Errno unix.EXDEV));
               Int (Ok 5); Status None; Status None] 0 in
  let evs :=
    [Called (os_Stat "/proc/self/fd/9") (Ok (mkFileInfo 42 420));
     LoadedSkipOpenat2 0;
     Called (unix_Openat2 3 "a/" (mkOpenHow 0 0 16)) (Ok 4);
     Called (unix_Linkat (-100) "/proc/self/fd/9" 4 "b" 1024) (Some (Errno unix.EXDEV));
     LoadedSkipOpenat2 0;
     Called (unix_Openat2 3 "a/b" (mkOpenHow freshFileFlags 420 16)) (Ok 5);
     Called (driversCopy_CopyRegularToFile "/proc/self/fd/9" (Some (mkFile 5 "a/b"))
               (mkFileInfo 42 420) true true) None;
     Called (unix_Close 4) None] in
  let r := Some (entry, (Some (mkFile 5 "a/b"), 42, None)) in
  run replay (copyFileContent freshFileFlags 2 9 entry 3 420 true) start
  = (evs, mkProcess [] 0, r) /\
  ~ In None (collect linkatOf evs) /\
  exists pre s3 e4 s4 opened post,
    evs = pre ++ e4 ++ post /\
    collect copyOf pre = [] /\ collect copyOf e4 = [] /\
    run replay (openFileUnderRoot 2 3 "a/b" freshFileFlags 420) s3 = (e4, s4, opened) /\
    freshCopyEnds 9 (mkFileInfo 42 420) entry opened post r.
Proof.
  cbv zeta.
  match goal with |- ?L = ?R /\ _ => assert (Hrun : L = R) by reflexivity end.
  split; [exact Hrun |].
  assert (Hnot : ~ In (@None error) [Some (Errno unix.EXDEV)]).
  { intros [E | []]. discriminate E. }
  split; [exact Hnot |].
  destruct (proj1 (proj2 (copyFileContent_hardlink_or_copy replay freshFileFlags 2 9
                            (regularEntry "a/b" [] false) 3 420 _ _ _ _ Hrun))
              Hnot (mkFileInfo 42 420) eq_refl)
    as [(rest & s0 & s1 & _ & _ & Hr) | Hfresh].
  - discriminate Hr.
  - exact Hfresh.
Defined.

(** C2, as the claim states it, fails when the fresh file cannot be made:
    the hard link is refused and the destination does not open, so that
    [copyFileContent] returns the error of the open with no handle and the
    size [-1], and nothing is copied. *)
Lemma copyFileContent_fresh_file_not_made :
  let entry := regularEntry "a/b" [] false in
  let start :=
    mkProcess [Stat (Ok (mkFileInfo 42 420)); Int (Ok 4); Status (Some (Errno unix.EXDEV));
               Int (Err (Errno unix.EACCES)); Status None] 0 in
  let evs :=
    [Called (os_Stat "/proc/self/fd/9") (Ok (mkFileInfo 42 420));
     LoadedSkipOpenat2 0;
     Called (unix_Openat2 3 "a/" (mkOpenHow 0 0 16)) (Ok 4);
     Called (unix_Linkat (-100) "/proc/self/fd/9" 4 "b" 1024) (Some (Errno unix.EXDEV));
     LoadedSkipOpenat2 0;
     Called (unix_Openat2 3 "a/b" (mkOpenHow freshFileFlags 420 16)) (Err (Errno unix.EACCES));
     Called (unix_Close 4) None] in
  run replay (copyFileContent freshFileFlags 2 9 entry 3 420 true) start
  = (evs, mkProcess [] 0,
     Some (entry,
           (None, -1,
            Some (Errorf "open file %q under rootfs for copy: %w" [ArgString "a/b"]
                    (Errorf "open %q under the rootfs: %w" [ArgString "a/b"]
                       (Errno unix.EACCES)))))) /\
  ~ In None (collect linkatOf evs) /\
  collect copyOf evs = [] /\
  collect openedOf evs = [4].
Proof.
  cbv zeta. split; [reflexivity |]. split; [| split; reflexivity].
  intros [E | []]. discriminate E.
Qed.


Lemma openFileUnderRootFallback_stays_under_root_witness :
  let start := mkProcess [Str (Ok "/var/lib/root"); Str (Ok "/proc/self/fd/3/a/b");
                          Int (Ok 7); Str (Ok "/etc/passwd"); Status None] 1 in
  let evs := [Called (os_Readlink "/proc/self/fd/3") (Ok "/var/lib/root");
              Called (securejoin_SecureJoin "/proc/self/fd/3" "a/b") (Ok "/proc/self/fd/3/a/b");
              Called (unix_Openat 3 "/proc/self/fd/3/a/b" 0 0) (Ok 7);
              Called (os_Readlink "/proc/self/fd/7") (Ok "/etc/passwd");
              Called (unix_Close 7) None] in
  run replay (openFileUnderRootFallback 3 "a/b" 0 0) start
  = (evs, mkProcess [] 1,
     Some (-1, Some (ErrorfMsg "while resolving %q.  It resolves outside the root directory"
                       [ArgString "a/b"]))) /\
  strings_HasPrefix "/etc/passwd" "/var/lib/root" = false /\
  exists opened, "/proc/self/fd/7" = procPathForFd opened /\ In opened (collect closeOf evs).
Proof.
  cbv zeta.
  match goal with |- ?L = ?R /\ _ => assert (Hrun : L = R) by reflexivity end.
  split; [exact Hrun |]. split; [reflexivity |].
  destruct (openFileUnderRootFallback_stays_under_root replay 3 "a/b" 0 0 _ _ _ _ Hrun)
    as (fd & err & Hr & _ & Hesc).
  destruct (Hesc "/var/lib/root" "/proc/self/fd/7" "/etc/passwd" eq_refl eq_refl)
    as (_ & _ & opened & Hp & Hin).
  exists opened. split; [exact Hp | exact Hin].
Defined.

(** ** Ensuring a directory *)

(** A directory that opens is returned as it is: one open, nothing
    created. *)
Lemma openOrCreateDirUnderRoot_existing {K : Type} (h : kernel K) (depth : nat) (dirfd : Z)
    (name : string) (mode : Z) (s : process K) evs s' fd :
  run h (openFileUnderRootRaw dirfd name (Z.lor unix.O_DIRECTORY unix.O_RDONLY) 0) s
  = (evs, s', Some (fd, None)) ->
  run h (openOrCreateDirUnderRoot (S depth) dirfd name mode) s
  = (evs, s', Some (os_NewFile (to_uintptr fd) name, None)).
Proof.
  intros Hopen. cbn [openOrCreateDirUnderRoot]. rewrite run_bind, Hopen. cbn.
  rewrite app_nil_r. reflexivity.
Qed.

(** A directory that is missing: the parent is ensured, the directory is
    made in it and opened from it, and the parent is closed. *)
Lemma openOrCreateDirUnderRoot_missing {K : Type} (h : kernel K) (depth : nat) (dirfd : Z)
    (name : string) (mode : Z) (s : process K)
    e0 s0 fd0 e e1 s1 pDir k2 e3 s3 fd e4 s4 c :
  run h (openFileUnderRootRaw dirfd name (Z.lor unix.O_DIRECTORY unix.O_RDONLY) 0) s
  = (e0, s0, Some (fd0, Some e)) ->
  errors_Is e unix.ENOENT = true ->
  run h (openOrCreateDirUnderRoot depth dirfd (filepath_Dir name) mode) s0
  = (e1, s1, Some (pDir, None)) ->
  h _ (unix_Mkdirat (to_int (File_Fd pDir)) (filepath_Base name) (to_uint32 mode)) (kern s1)
  = (None, k2) ->
  run h (openFileUnderRootRaw (to_int (File_Fd pDir)) (filepath_Base name)
           (Z.lor unix.O_DIRECTORY unix.O_RDONLY) 0) (mkProcess k2 (skipOpenat2 s1))
  = (e3, s3, Some (fd, None)) ->
  run h (File_Close pDir) s3 = (e4, s4, Some c) ->
  run h (openOrCreateDirUnderRoot (S depth) dirfd name mode) s
  = (e0 ++ e1
        ++ Called (unix_Mkdirat (to_int (File_Fd pDir)) (filepath_Base name) (to_uint32 mode))
             None
        :: e3 ++ e4,
     s4, Some (os_NewFile (to_uintptr fd) name, None)).
Proof.
  intros Hopen Hnoent Hparent Hmkdir Hopen2 Hclose.
  cbn [openOrCreateDirUnderRoot]. rewrite run_bind, Hopen. cbn iota. rewrite Hnoent.
  assert (Hdir : negb (String.eqb (filepath_Dir name) "") = true).
  { unfold filepath_Dir, filepath_Clean.
    destruct (list_ascii_of_string (fst (filepath_Split name))) as [| c0 l]; [reflexivity |].
    destruct (Ascii.eqb c0 slash); [reflexivity |].
    destruct (joinElements _) as [| c1 l1]; reflexivity. }
  rewrite Hdir. rewrite run_bind, Hparent. cbn iota.
  cbn [run bind call]. rewrite Hmkdir. rewrite run_bind, Hopen2. cbn iota.
  rewrite run_bind, Hclose. cbn. rewrite app_nil_r. reflexivity.
Qed.

(** C3: [openOrCreateDirUnderRoot] on a name that does not open
    ([ENOENT]) and that exists when the directory is made ([mkdirat] answers
    [EEXIST]: another worker has made it in between, or the name is a
    dangling symlink).  The function does not take "already exists" for
    success: it closes the parent and returns nil with the [ENOENT] of the
    first open. *)
Theorem openOrCreateDirUnderRoot_exists_on_mkdir :
  run replay (openOrCreateDirUnderRoot 2 3 "a" 0)
    (mkProcess [Int (Err (Errno unix.ENOENT)); Int (Ok 4);
                Status (Some (Errno unix.EEXIST)); Status None] 0)
  = ([LoadedSkipOpenat2 0;
      Called (unix_Openat2 3 "a" (mkOpenHow unix.O_DIRECTORY 0 16)) (Err (Errno unix.ENOENT));
      LoadedSkipOpenat2 0;
      Called (unix_Openat2 3 "." (mkOpenHow unix.O_DIRECTORY 0 16)) (Ok 4);
      Called (unix_Mkdirat 4 "a" 0) (Some (Errno unix.EEXIST));
      Called (unix_Close 4) None],
     mkProcess [] 0,
     Some (None, Some (Errno unix.ENOENT))).
Proof. reflexivity. Qed.

(** [safeMkdir], for comparison: [mkdirat] answering [EEXIST] is taken for
    success, and the directory is opened and its attributes are set. *)
Example safeMkdir_exists_is_success :
  run replay
    (safeMkdir typesToTar ignoredXattrs base64Decode 2 3 493 "a"
       (mkfileMetadata (mkFileMetadata "dir" "a" "" 0 0 None None []) [] false) strictOptions)
    (mkProcess [Status (Some (Errno unix.EEXIST)); Int (Ok 4);
                Status None; Status None; Status None; Status None] 0)
  = ([Called (unix_Mkdirat 3 "a" 493) (Some (Errno unix.EEXIST));
      LoadedSkipOpenat2 0;
      Called (unix_Openat2 3 "a" (mkOpenHow unix.O_DIRECTORY 0 16)) (Ok 4);
      Called (unix_Fchown 4 0 0) None;
      Called (unix_UtimesNanoAt (-100) "/proc/self/fd/4"
                [mkTimespec 0 1073741822; mkTimespec 0 1073741822] 0) None;
      Called (unix_Fchmod 4 493) None;
      Called (unix_Close 4) None],
     mkProcess [] 0,
     Some None).
Proof. reflexivity. Qed.

(** ** The capability flag *)

Lemma flagFree_bind {A B : Type} (p : prog A) (f : A -> prog B) :
  flagFree p -> (forall a, flagFree (f a)) -> flagFree (bind p f).
Proof. intros Hp Hf. induction Hp; simpl; try constructor; auto. Qed.

Ltac flagFree_step :=
  match goal with
  | |- flagFree (bind _ _) => apply flagFree_bind
  | |- flagFree (call _) => unfold call
  | |- flagFree (Sys _ _) => apply flagFree_Sys
  | |- flagFree (Ret _) => constructor
  | |- flagFree (match ?x with _ => _ end) => destruct x
  | |- forall _, _ => intro
  end.

Lemma openFileUnderRootFallback_flagFree (dirfd : Z) (name : string) (flags mode : Z) :
  flagFree (openFileUnderRootFallback dirfd name flags mode).
Proof. unfold openFileUnderRootFallback, checkUnderRoot. repeat flagFree_step. Qed.

Lemma openFileUnderRootFallback_notOpenat2 (dirfd : Z) (name : string) (flags mode : Z) :
  always notOpenat2 (fun _ => True) (openFileUnderRootFallback dirfd name flags mode).
Proof. unfold openFileUnderRootFallback, checkUnderRoot. always_auto. Qed.

(** A program that does not touch the flag leaves it as it is, and its
    trace shows no read and no write of it. *)
Lemma flagFree_run {K A : Type} (h : kernel K) (p : prog A) :
  flagFree p ->
  forall (s : process K) evs s' r,
    run h p s = (evs, s', r) ->
    skipOpenat2 s' = skipOpenat2 s /\
    Forall (fun e => loadOf e = None /\ storeOf e = None) evs.
Proof.
  induction 1 as [a | X c k Hk IH |]; intros s evs s' r Hrun; simpl in Hrun.
  - inversion Hrun; subst. split; [reflexivity | constructor].
  - destruct (h X c (kern s)) as [x kn].
    destruct (run h (k x) _) as [[evs1 s1] r1] eqn:E1. inversion Hrun; subst.
    destruct (IH _ _ _ _ _ E1) as [H1 H2]. split; [exact H1 |].
    constructor; [split; reflexivity | exact H2].
  - inversion Hrun; subst. split; [reflexivity | constructor].
Qed.

(** No [openat2] and no access to the flag: nothing of the protocol. *)
Lemma quiet_trace (evs : list event) :
  Forall (eventOk notOpenat2) evs ->
  Forall (fun e => loadOf e = None /\ storeOf e = None) evs ->
  collect protocolOf evs = [] /\ (forall prev, consulted prev evs = true) /\
  filter (fun e => negb (isLoad e)) evs = evs.
Proof.
  induction 1 as [| e evs He _ IH]; intros Hq; [repeat split |].
  inversion Hq as [| ? ? [Hl Hs] Hq']; subst.
  destruct (IH Hq') as (IH1 & IH2 & IH3).
  assert (Ho : openat2Of e = None).
  { destruct e as [X c r | v | v]; try reflexivity. destruct c; try reflexivity.
    destruct He. }
  assert (Hp : protocolOf e = None).
  { destruct e as [X c r | v | v]; simpl in *; try discriminate.
    unfold protocolOf. rewrite Ho. reflexivity. }
  assert (Hi : isLoad e = false) by (destruct e; [reflexivity | discriminate Hl | reflexivity]).
  split; [| split].
  - rewrite collect_cons, Hp. exact IH1.
  - intros prev. simpl. rewrite Ho, Hl. apply IH2.
  - simpl. rewrite Hi. simpl. rewrite IH3. reflexivity.
Qed.

Lemma openFileUnderRootFallback_quiet {K : Type} (h : kernel K) (dirfd : Z) (name : string)
    (flags mode : Z) (s : process K) evs s' r :
  run h (openFileUnderRootFallback dirfd name flags mode) s = (evs, s', r) ->
  skipOpenat2 s' = skipOpenat2 s /\
  collect protocolOf evs = [] /\ (forall prev, consulted prev evs = true) /\
  filter (fun e => negb (isLoad e)) evs = evs.
Proof.
  intros Hrun.
  destruct (flagFree_run h _ (openFileUnderRootFallback_flagFree dirfd name flags mode)
              s evs s' r Hrun) as [Hflag Hq].
  destruct (always_run _ _ h _ (openFileUnderRootFallback_notOpenat2 dirfd name flags mode)
              s evs s' r Hrun) as [Hno _].
  split; [exact Hflag | apply quiet_trace; assumption].
Qed.

Lemma consulted_weaken (prev : option Z) (evs : list event) :
  consulted None evs = true -> consulted prev evs = true.
Proof.
  destruct evs as [| e evs]; [reflexivity |]. simpl.
  destruct (openat2Of e); [discriminate | auto].
Qed.

Lemma consulted_app (prev : option Z) (l1 l2 : list event) :
  consulted prev l1 = true -> consulted None l2 = true -> consulted prev (l1 ++ l2) = true.
Proof.
  revert prev. induction l1 as [| e l1 IH]; intros prev H1 H2; simpl.
  - apply consulted_weaken. exact H2.
  - simpl in H1. destruct (openat2Of e).
    + destruct prev as [v |]; [| discriminate].
      apply andb_true_iff in H1. destruct H1 as [Hv H1].
      rewrite Hv. simpl. apply IH; assumption.
    + apply IH; assumption.
Qed.

(** One open under the root: what it does with the flag and with
    [openat2]. *)
Lemma openFileUnderRootRaw_protocol {K : Type} (h : kernel K) (dirfd : Z) (name : string)
    (flags mode : Z) (s : process K) evs s' r :
  run h (openFileUnderRootRaw dirfd name flags mode) s = (evs, s', r) ->
  consulted None evs = true /\
  (0 < skipOpenat2 s ->
   skipOpenat2 s' = skipOpenat2 s /\ collect protocolOf evs = [] /\
   run h (if String.eqb name "" then r <- call (unix_Dup dirfd) ;; Ret (returned r)
          else openFileUnderRootFallback dirfd name flags mode) s
   = (filter (fun e => negb (isLoad e)) evs, s', r)) /\
  (skipOpenat2 s <= 0 ->
   (skipOpenat2 s' = skipOpenat2 s /\
    (collect protocolOf evs = [] \/ collect protocolOf evs = [Attempt false]))
   \/
   (skipOpenat2 s' = 1 /\ collect protocolOf evs = [Attempt true; Downgrade 1])).
Proof.
  intros Hrun. unfold openFileUnderRootRaw in Hrun.
  destruct (String.eqb name "") eqn:Ename.
  - (* the root itself *)
    cbn [run bind call] in Hrun. destruct (h _ (unix_Dup dirfd) (kern s)) as [x kn] eqn:Edup.
    cbn in Hrun. inversion Hrun; subst; clear Hrun. cbn.
    split; [reflexivity |]. split.
    + intros _. rewrite Edup. repeat split.
    + intros _. left. split; [reflexivity | left; reflexivity].
  - cbn [run bind atomic_LoadInt32_skipOpenat2] in Hrun.
    destruct (skipOpenat2 s >? 0) eqn:Eflag.
    + (* the flag is set: the fallback *)
      destruct (run h (openFileUnderRootFallback _ _ _ _) s) as [[e1 s1] r1] eqn:Efb.
      inversion Hrun; subst; clear Hrun.
      destruct (openFileUnderRootFallback_quiet h _ _ _ _ _ _ _ _ Efb) as (Hf & Hp & Hc & Hfil).
      split; [simpl; apply Hc |]. split.
      * intros _. split; [exact Hf |]. split; [rewrite collect_cons; exact Hp |].
        simpl. rewrite Hfil. reflexivity.
      * intros Hle. rewrite Z.gtb_ltb in Eflag. apply Z.ltb_lt in Eflag. lia.
    + (* the flag is unset: openat2 *)
      rewrite Z.gtb_ltb in Eflag. apply Z.ltb_ge in Eflag.
      unfold openFileUnderRootOpenat2 in Hrun. cbn [run bind call] in Hrun.
      destruct (h _ (unix_Openat2 _ _ _) (kern s)) as [x kn] eqn:Eopen.
      destruct x as [fd | e]; cbn [returned run bind] in Hrun.
      * inversion Hrun; subst; clear Hrun. cbn.
        rewrite (proj2 (Z.leb_le _ _) Eflag).
        split; [reflexivity |]. split; [intros Hlt; lia |].
        intros _. left. split; [reflexivity | right; reflexivity].
      * destruct (errors_Is e unix.ENOSYS) eqn:Enosys.
        -- cbn [run bind atomic_StoreInt32_skipOpenat2] in Hrun.
           destruct (run h (openFileUnderRootFallback _ _ _ _) _) as [[e1 s1] r1] eqn:Efb.
           inversion Hrun; subst; clear Hrun.
           destruct (openFileUnderRootFallback_quiet h _ _ _ _ _ _ _ _ Efb)
             as (Hf & Hp & Hc & Hfil).
           split.
           { simpl. rewrite (proj2 (Z.leb_le _ _) Eflag). simpl. apply Hc. }
           split; [intros Hlt; lia |].
           intros _. right. split; [exact Hf |].
           collect_norm. rewrite Hp. cbn. rewrite Enosys. reflexivity.
        -- inversion Hrun; subst; clear Hrun. cbn.
           rewrite (proj2 (Z.leb_le _ _) Eflag), Enosys.
           split; [reflexivity |]. split; [intros Hlt; lia |].
           intros _. left. split; [reflexivity | right; reflexivity].
Qed.

(** One goroutine on its own: any number of opens under the root, one after
    the other, on any kernel.  Every [openat2] comes right after a read of
    [skipOpenat2] that found it unset.  Once the flag is set it stays as it is, [openat2] is not
    called again, and every open is the fallback's (the trace, the state and
    the results are those of the fallback, the reads of the flag apart).
    From an unset flag, the trace shows attempts that did not fail with
    [ENOSYS] and then either nothing more, the flag unchanged, or one attempt
    that failed with [ENOSYS], followed at once by the one write of the flag,
    of the value 1, and no attempt after it. *)
Lemma openAll_one_way {K : Type} (h : kernel K) (reqs : list openRequest) :
  forall (s : process K) evs s' r,
    run h (openAll reqs) s = (evs, s', r) ->
    consulted None evs = true /\
    (0 < skipOpenat2 s ->
     skipOpenat2 s' = skipOpenat2 s /\ collect protocolOf evs = [] /\
     run h (openAllFallback reqs) s = (filter (fun e => negb (isLoad e)) evs, s', r)) /\
    (skipOpenat2 s <= 0 ->
     exists n,
       (skipOpenat2 s' = skipOpenat2 s /\ collect protocolOf evs = repeat (Attempt false) n)
       \/
       (skipOpenat2 s' = 1 /\
        collect protocolOf evs = repeat (Attempt false) n ++ [Attempt true; Downgrade 1])).
Proof.
  induction reqs as [| q rest IH]; intros s evs s' r Hrun.
  - simpl in Hrun. inversion Hrun; subst. split; [reflexivity |]. split.
    + intros _. repeat split.
    + intros _. exists 0%nat. left. split; reflexivity.
  - cbn [openAll] in Hrun. rewrite run_bind in Hrun.
    destruct (run h (openFileUnderRootRaw _ _ _ _) s) as [[e1 s1] r1] eqn:Eraw.
    destruct (openFileUnderRootRaw_protocol h _ _ _ _ _ _ _ _ Eraw) as (Hc1 & Hset1 & Hunset1).
    destruct r1 as [a |].
    + rewrite run_bind in Hrun.
      destruct (run h (openAll rest) s1) as [[e2 s2] r2] eqn:Erest.
      destruct (IH _ _ _ _ Erest) as (Hc2 & Hset2 & Hunset2).
      assert (Hevs : evs = e1 ++ e2 /\ s' = s2 /\ r = option_map (cons a) r2).
      { destruct r2 as [rs |]; cbn in Hrun; inversion Hrun; subst;
          rewrite ?app_nil_r; repeat split. }
      destruct Hevs as (-> & -> & ->). clear Hrun.
      split; [apply consulted_app; assumption |]. split.
      * intros Hpos. destruct (Hset1 Hpos) as (Hf1 & Hp1 & Hfb1).
        destruct Hset2 as (Hf2 & Hp2 & Hfb2); [lia |].
        split; [lia |]. split; [collect_norm; rewrite Hp1, Hp2; reflexivity |].
        cbn [openAllFallback]. rewrite run_bind, Hfb1. rewrite run_bind, Hfb2.
        rewrite filter_app. destruct r2 as [rs |]; cbn; rewrite ?app_nil_r; reflexivity.
      * intros Hle. rewrite collect_app.
        destruct (Hunset1 Hle) as [(Hf1 & Hp1) | (Hf1 & Hp1)].
        -- destruct Hunset2 as [n [(Hf2 & Hp2) | (Hf2 & Hp2)]]; [lia | |].
           ++ destruct Hp1 as [Hp1 | Hp1]; rewrite Hp1, Hp2;
                [exists n | exists (S n)]; left; (split; [lia | reflexivity]).
           ++ destruct Hp1 as [Hp1 | Hp1]; rewrite Hp1, Hp2;
                [exists n | exists (S n)]; right; (split; [lia | reflexivity]).
        -- destruct Hset2 as (Hf2 & Hp2 & _); [lia |].
           exists 0%nat. right. rewrite Hp1, Hp2. split; [lia | reflexivity].
    + inversion Hrun; subst; clear Hrun.
      split; [exact Hc1 |]. split.
      * intros Hpos. destruct (Hset1 Hpos) as (Hf1 & Hp1 & Hfb1).
        split; [exact Hf1 |]. split; [exact Hp1 |].
        cbn [openAllFallback]. rewrite run_bind, Hfb1. reflexivity.
      * intros Hle.
        destruct (Hunset1 Hle) as [(Hf1 & [Hp1 | Hp1]) | (Hf1 & Hp1)].
        -- exists 0%nat. left. split; assumption.
        -- exists 1%nat. left. split; assumption.
        -- exists 0%nat. right. split; assumption.
Qed.

(** *** Goroutines that open at the same time *)

(** A run is the sequence of the program's actions. *)
Lemma run_step {K A : Type} (h : kernel K) (p : prog A) (s : process K) :
  run h p s =
  match step h p s with
  | Some (e, p', s1) => let '(evs, s', r) := run h p' s1 in (e :: evs, s', r)
  | None => ([], s, match p with Ret a => Some a | _ => None end)
  end.
Proof.
  destruct p as [a | X c k | k | v k |]; cbn; try reflexivity.
  destruct (h X c (kern s)) as [x kn]. reflexivity.
Qed.

(** A goroutine on its own does what [run] says, as far as it gets. *)
Lemma interleave_alone {K A : Type} (h : kernel K) (n : nat) (p : prog A) (s : process K) :
  fst (fst (interleave h (repeat 0%nat n) [p] s))
  = map (pair 0%nat) (firstn n (fst (fst (run h p s)))).
Proof.
  revert p s. induction n as [| n IH]; intros p s; [reflexivity |].
  cbn [repeat interleave nth_error]. rewrite (run_step h p s).
  destruct (step h p s) as [[[e p'] s1] |] eqn:Estep.
  - cbn [setNth]. specialize (IH p' s1).
    destruct (interleave h (repeat 0%nat n) [p'] s1) as [[tevs gs'] s'].
    destruct (run h p' s1) as [[evs s''] r]. cbn in *. rewrite IH. reflexivity.
  - rewrite IH. rewrite (run_step h p s), Estep. cbn. destruct n; reflexivity.
Qed.

Lemma nth_error_setNth_eq {A : Type} (n : nat) (x y : A) (l : list A) :
  nth_error l n = Some y -> nth_error (setNth n x l) n = Some x.
Proof.
  revert n. induction l as [| z l IH]; intros [| n] H; try discriminate H; cbn in *; auto.
Qed.

Lemma nth_error_setNth_neq {A : Type} (n m : nat) (x : A) (l : list A) :
  n <> m -> nth_error (setNth n x l) m = nth_error l m.
Proof.
  revert n m. induction l as [| z l IH]; intros [| n] [| m] H; cbn; try reflexivity.
  - contradiction.
  - apply IH. intros E. apply H. f_equal. exact E.
Qed.

Lemma obeys_weaken {A : Type} (post post' : phase -> Prop) (p : prog A) :
  (forall ph, post ph -> post' ph) ->
  forall ph, obeys post ph p -> obeys post' ph p.
Proof.
  intros Hpost. induction p as [a | X c k IH | k IH | v k IH |]; intros ph H; cbn [obeys bind] in *.
  - auto.
  - intros x. specialize (H x). destruct (phaseStep ph (Called c x)); [apply IH; exact H | exact H].
  - intros v. specialize (H v).
    destruct (phaseStep ph (LoadedSkipOpenat2 v)); [apply IH; exact H | exact H].
  - destruct (phaseStep ph (StoredSkipOpenat2 v)); [apply IH; exact H | exact H].
  - exact I.
Qed.

Lemma obeys_bind {A B : Type} (mid post : phase -> Prop) (p : prog A) (f : A -> prog B) :
  (forall ph a, mid ph -> obeys post ph (f a)) ->
  forall ph, obeys mid ph p -> obeys post ph (bind p f).
Proof.
  intros Hf. induction p as [a | X c k IH | k IH | v k IH |]; intros ph H; cbn [obeys bind] in *.
  - auto.
  - intros x. specialize (H x). destruct (phaseStep ph (Called c x)); [apply IH; exact H | exact H].
  - intros v. specialize (H v).
    destruct (phaseStep ph (LoadedSkipOpenat2 v)); [apply IH; exact H | exact H].
  - destruct (phaseStep ph (StoredSkipOpenat2 v)); [apply IH; exact H | exact H].
  - exact I.
Qed.

Lemma polite_bind {A B : Type} (p : prog A) (f : A -> prog B) :
  polite p -> (forall a, polite (f a)) -> polite (bind p f).
Proof.
  intros Hp Hf ph Hph. apply (obeys_bind settled); [| apply Hp; exact Hph].
  intros ph' a Hph'. apply Hf. exact Hph'.
Qed.

Lemma polite_Ret {A : Type} (a : A) : polite (Ret a).
Proof. intros ph Hph. exact Hph. Qed.

(** A call other than [openat2] may be made in any phase in which nothing
    is pending. *)
Lemma polite_call {X : Type} (c : syscall X) : notOpenat2 X c -> polite (call c).
Proof.
  intros Hc ph Hph x. cbn.
  assert (Ho : openat2Of (Called c x) = None) by (destruct c; try reflexivity; destruct Hc).
  cbn in Ho. rewrite Ho.
  destruct ph; [discriminate | discriminate | contradiction Hph; reflexivity].
Qed.

Ltac polite_step :=
  match goal with
  | |- polite (bind _ _) => apply polite_bind
  | |- polite (call _) => apply polite_call; exact I
  | |- polite (Ret _) => apply polite_Ret
  | |- polite (match ?x with _ => _ end) => destruct x
  | |- forall _, _ => intro
  end.

Lemma openFileUnderRootFallback_polite (dirfd : Z) (name : string) (flags mode : Z) :
  polite (openFileUnderRootFallback dirfd name flags mode).
Proof. unfold openFileUnderRootFallback, checkUnderRoot. repeat polite_step. Qed.

Lemma openFileUnderRootRaw_polite (dirfd : Z) (name : string) (flags mode : Z) :
  polite (openFileUnderRootRaw dirfd name flags mode).
Proof.
  unfold openFileUnderRootRaw. destruct (String.eqb name ""); [repeat polite_step |].
  intros ph Hph. cbn [bind atomic_LoadInt32_skipOpenat2 obeys]. intros v.
  assert (Hstep : phaseStep ph (LoadedSkipOpenat2 v)
                  = Some (if v <=? 0 then Consulted else Idle)).
  { destruct ph; try reflexivity. contradiction Hph. reflexivity. }
  rewrite Hstep. rewrite Z.gtb_ltb. destruct (v <=? 0) eqn:Ev.
  - apply Z.leb_le in Ev. rewrite (proj2 (Z.ltb_ge 0 v) Ev).
    unfold openFileUnderRootOpenat2. cbn [bind call obeys]. intros x.
    cbn [phaseStep openat2Of].
    destruct x as [fd | e]; cbn [returned bind obeys].
    + discriminate.
    + destruct (errors_Is e unix.ENOSYS) eqn:Enosys.
      * cbn [bind atomic_StoreInt32_skipOpenat2 obeys phaseStep Z.eqb Pos.eqb].
        apply openFileUnderRootFallback_polite. discriminate.
      * cbn [obeys]. discriminate.
  - apply Z.leb_gt in Ev. rewrite (proj2 (Z.ltb_lt 0 v) Ev).
    apply openFileUnderRootFallback_polite. discriminate.
Qed.

Lemma openAll_polite (reqs : list openRequest) : polite (openAll reqs).
Proof.
  induction reqs as [| q rest IH]; cbn [openAll]; [apply polite_Ret |].
  repeat (first [ apply openFileUnderRootRaw_polite | apply IH | polite_step ]).
Qed.

(** One action of a program that obeys: the action is one that the phase
    allows, a load finds the flag as it is, and only a store changes it. *)
Lemma step_obeys {K A : Type} (h : kernel K) (post : phase -> Prop) (ph : phase) (p : prog A)
    (s : process K) e p' s1 :
  obeys post ph p ->
  step h p s = Some (e, p', s1) ->
  exists ph',
    phaseStep ph e = Some ph' /\ obeys post ph' p' /\
    match loadOf e with Some v => v = skipOpenat2 s | None => True end /\
    skipOpenat2 s1 = flagAfter (skipOpenat2 s) [e].
Proof.
  intros Hp Hstep. destruct p as [a | X c k | k | v k |]; cbn [step] in Hstep;
    try discriminate Hstep.
  - destruct (h X c (kern s)) as [x kn]. inversion Hstep; subst; clear Hstep.
    cbn [obeys] in Hp. specialize (Hp x).
    destruct (phaseStep ph (Called c x)) as [ph' |]; [| contradiction].
    exists ph'. repeat split. exact Hp.
  - inversion Hstep; subst; clear Hstep. cbn [obeys] in Hp. specialize (Hp (skipOpenat2 s1)).
    destruct (phaseStep ph (LoadedSkipOpenat2 (skipOpenat2 s1))) as [ph' |]; [| contradiction].
    exists ph'. repeat split. exact Hp.
  - inversion Hstep; subst; clear Hstep. cbn [obeys] in Hp.
    destruct (phaseStep ph (StoredSkipOpenat2 v)) as [ph' |]; [| contradiction].
    exists ph'. repeat split. exact Hp.
Qed.

(** Goroutines that obey, however they are scheduled: the events conform. *)
Lemma interleave_conforms {K A : Type} (h : kernel K) (post : phase -> Prop)
    (sched : list nat) :
  forall (gs : list (prog A)) (s : process K) (phs : nat -> phase),
    (forall g p, nth_error gs g = Some p -> obeys post (phs g) p) ->
    conforms (skipOpenat2 s) phs (fst (fst (interleave h sched gs s))) = true /\
    skipOpenat2 (snd (interleave h sched gs s))
    = flagAfter (skipOpenat2 s) (allEvents (fst (fst (interleave h sched gs s)))).
Proof.
  induction sched as [| g sched IH]; intros gs s phs Hgs; [split; reflexivity |].
  cbn [interleave].
  destruct (nth_error gs g) as [p |] eqn:Eg; [| apply IH; exact Hgs].
  destruct (step h p s) as [[[e p'] s1] |] eqn:Estep; [| apply IH; exact Hgs].
  destruct (step_obeys h post (phs g) p s e p' s1 (Hgs g p Eg) Estep)
    as (ph' & Hph & Hp' & Hload & Hflag).
  assert (Hgs' : forall g' q, nth_error (setNth g p' gs) g' = Some q ->
                              obeys post (upd phs g ph' g') q).
  { intros g' q Hq. unfold upd. destruct (Nat.eqb g' g) eqn:E.
    - apply Nat.eqb_eq in E. subst g'.
      rewrite (nth_error_setNth_eq g p' p gs Eg) in Hq. inversion Hq; subst. exact Hp'.
    - apply Nat.eqb_neq in E. rewrite nth_error_setNth_neq in Hq by congruence.
      apply Hgs. exact Hq. }
  destruct (IH (setNth g p' gs) s1 (upd phs g ph') Hgs') as (IH1 & IH2).
  destruct (interleave h sched (setNth g p' gs) s1) as [[tevs gs'] s'].
  cbn [fst snd conforms allEvents map] in *. rewrite Hph.
  rewrite <- Hflag. rewrite IH1, andb_true_r. split.
  - destruct (loadOf e) as [v |]; [subst v; apply Z.eqb_refl | reflexivity].
  - rewrite IH2, Hflag. reflexivity.
Qed.

Lemma eventsOf_cons (g g' : nat) (e : event) (tevs : list (nat * event)) :
  eventsOf g ((g', e) :: tevs)
  = if Nat.eqb g' g then e :: eventsOf g tevs else eventsOf g tevs.
Proof. unfold eventsOf. cbn. destruct (Nat.eqb g' g); reflexivity. Qed.

Lemma eventsOf_app (g : nat) (l1 l2 : list (nat * event)) :
  eventsOf g (l1 ++ l2) = eventsOf g l1 ++ eventsOf g l2.
Proof. unfold eventsOf. rewrite filter_app, map_app. reflexivity. Qed.

Lemma flagAfter_app (flag : Z) (l1 l2 : list event) :
  flagAfter flag (l1 ++ l2) = flagAfter (flagAfter flag l1) l2.
Proof. unfold flagAfter. apply fold_left_app. Qed.

Lemma flagAfter_one (flag : Z) (e : event) :
  flagAfter flag [e] = match storeOf e with Some v => v | None => flag end.
Proof. reflexivity. Qed.

Lemma flagAfter_cons (flag : Z) (e : event) (evs : list event) :
  flagAfter flag (e :: evs) = flagAfter (flagAfter flag [e]) evs.
Proof. reflexivity. Qed.

Lemma conforms_cons (flag : Z) (phs : nat -> phase) (g : nat) (e : event)
    (rest : list (nat * event)) :
  conforms flag phs ((g, e) :: rest) = true ->
  exists ph',
    phaseStep (phs g) e = Some ph' /\
    match loadOf e with Some v => v = flag | None => True end /\
    conforms (flagAfter flag [e]) (upd phs g ph') rest = true.
Proof.
  cbn [conforms]. destruct (phaseStep (phs g) e) as [ph' |]; [| discriminate].
  intros H. apply andb_true_iff in H. destruct H as [Hl Hc].
  exists ph'. split; [reflexivity |]. split; [| exact Hc].
  destruct (loadOf e) as [v |]; [apply Z.eqb_eq; exact Hl | exact I].
Qed.

(** What the phases allow, event by event. *)
Lemma phaseStep_cases (ph ph' : phase) (e : event) :
  phaseStep ph e = Some ph' ->
  (exists v, e = LoadedSkipOpenat2 v /\ ph <> Failed /\
             ph' = (if v <=? 0 then Consulted else Idle)) \/
  (e = StoredSkipOpenat2 1 /\ ph = Failed /\ ph' = Idle) \/
  (exists enosys, openat2Of e = Some enosys /\ loadOf e = None /\ storeOf e = None /\
                  ph = Consulted /\ ph' = (if enosys then Failed else Idle)) \/
  (openat2Of e = None /\ loadOf e = None /\ storeOf e = None /\ protocolOf e = None /\
   ph <> Failed /\ ph' = Idle).
Proof.
  destruct e as [X c x | v | v]; cbn [phaseStep].
  - destruct (openat2Of (Called c x)) as [b |] eqn:Eo.
    + destruct ph; try discriminate. intros H. inversion H; subst.
      right; right; left. exists b. repeat split.
    + destruct ph; try discriminate; intros H; inversion H; subst;
        right; right; right; repeat split; try discriminate;
        unfold protocolOf; rewrite Eo; destruct c; reflexivity.
  - destruct ph; try discriminate; intros H; inversion H; subst;
      left; exists v; repeat split; discriminate.
  - destruct ph; try discriminate. destruct (v =? 1) eqn:Ev; [| discriminate].
    apply Z.eqb_eq in Ev. subst v. intros H. inversion H; subst.
    right; left. repeat split.
Qed.

Lemma upd_same (phs : nat -> phase) (g : nat) (ph : phase) : upd phs g ph g = ph.
Proof. unfold upd. rewrite Nat.eqb_refl. reflexivity. Qed.

Lemma upd_other (phs : nat -> phase) (g g' : nat) (ph : phase) :
  Nat.eqb g' g = false -> upd phs g ph g' = phs g'.
Proof. unfold upd. intros ->. reflexivity. Qed.

(** Every store writes 1. *)
Lemma conforms_stores (tevs : list (nat * event)) :
  forall flag phs,
    conforms flag phs tevs = true ->
    Forall (fun v => v = 1) (collect storeOf (allEvents tevs)).
Proof.
  induction tevs as [| [g e] rest IH]; intros flag phs H; [constructor |].
  destruct (conforms_cons _ _ _ _ _ H) as (ph' & Hph & _ & Hrest).
  unfold allEvents. cbn [map snd]. rewrite collect_cons.
  apply Forall_app. split; [| exact (IH _ _ Hrest)].
  destruct (phaseStep_cases _ _ _ Hph)
    as [(v & -> & _) | [(-> & _) | [(b & _ & _ & -> & _) | (_ & _ & -> & _)]]];
    cbn; repeat constructor.
Qed.

(** So the flag, once set, stays set. *)
Lemma flagAfter_stores (evs : list event) :
  Forall (fun v => v = 1) (collect storeOf evs) ->
  forall flag,
    (collect storeOf evs = [] /\ flagAfter flag evs = flag) \/
    (collect storeOf evs <> [] /\ flagAfter flag evs = 1).
Proof.
  induction evs as [| e evs IH]; intros Hall flag; [left; split; reflexivity |].
  rewrite collect_cons in Hall. apply Forall_app in Hall. destruct Hall as [He Hrest].
  rewrite flagAfter_cons, flagAfter_one, collect_cons.
  destruct (storeOf e) as [v |] eqn:Es.
  - inversion He; subst. right. split; [discriminate |].
    destruct (IH Hrest 1) as [(_ & ->) | (_ & ->)]; reflexivity.
  - cbn [app]. apply IH. exact Hrest.
Qed.

(** Each goroutine reads the flag right before each of its attempts. *)
Lemma conforms_consulted (g : nat) (tevs : list (nat * event)) :
  forall flag phs prev,
    conforms flag phs tevs = true ->
    (phs g = Consulted -> exists v, prev = Some v /\ v <= 0) ->
    consulted prev (eventsOf g tevs) = true.
Proof.
  induction tevs as [| [g' e] rest IH]; intros flag phs prev H Hprev; [reflexivity |].
  destruct (conforms_cons _ _ _ _ _ H) as (ph' & Hph & _ & Hrest).
  rewrite eventsOf_cons. destruct (Nat.eqb g' g) eqn:Eg.
  - apply Nat.eqb_eq in Eg. subst g'. cbn [consulted].
    destruct (phaseStep_cases _ _ _ Hph)
      as [(v & -> & _ & ->)
         | [(-> & _ & ->)
           | [(b & Ho & _ & _ & Hc & ->) | (Ho & Hl & _ & _ & _ & ->)]]].
    + cbn [openat2Of loadOf]. apply (IH _ _ _ Hrest). rewrite upd_same.
      destruct (v <=? 0) eqn:Ev; [| discriminate]. intros _. exists v.
      split; [reflexivity | apply Z.leb_le; exact Ev].
    + cbn [openat2Of loadOf]. apply (IH _ _ _ Hrest). rewrite upd_same. discriminate.
    + rewrite Ho. destruct (Hprev Hc) as (v & -> & Hv).
      rewrite (proj2 (Z.leb_le v 0) Hv). cbn [andb].
      apply (IH _ _ _ Hrest). rewrite upd_same. destruct b; discriminate.
    + rewrite Ho, Hl. apply (IH _ _ _ Hrest). rewrite upd_same. discriminate.
  - apply (IH _ _ _ Hrest). unfold upd. rewrite Nat.eqb_sym, Eg. exact Hprev.
Qed.

(** With the flag set and nothing pending, nothing of the protocol
    happens. *)
Lemma conforms_quiet (tevs : list (nat * event)) :
  forall flag phs,
    conforms flag phs tevs = true ->
    0 < flag -> (forall g, phs g = Idle) ->
    collect protocolOf (allEvents tevs) = [] /\ flagAfter flag (allEvents tevs) = flag.
Proof.
  induction tevs as [| [g e] rest IH]; intros flag phs H Hflag Hidle; [split; reflexivity |].
  destruct (conforms_cons _ _ _ _ _ H) as (ph' & Hph & Hload & Hrest).
  unfold allEvents. cbn [map snd]. rewrite collect_cons.
  rewrite flagAfter_cons. rewrite Hidle in Hph.
  destruct (phaseStep_cases _ _ _ Hph)
    as [(v & -> & _ & ->)
       | [(-> & Hc & _)
         | [(b & _ & _ & _ & Hc & _) | (_ & _ & Hs & Hp & _ & ->)]]];
    try discriminate Hc.
  - cbn in Hload. subst v. rewrite (proj2 (Z.leb_gt flag 0) Hflag) in Hrest.
    cbn [protocolOf openat2Of option_map app]. rewrite flagAfter_one in *. cbn [storeOf] in *.
    apply (IH _ _ Hrest Hflag). intros g'. unfold upd. destruct (Nat.eqb g' g); auto.
  - rewrite Hp. rewrite flagAfter_one, Hs in *. apply (IH _ _ Hrest Hflag).
    intros g'. unfold upd. destruct (Nat.eqb g' g); auto.
Qed.

Lemma conforms_app_l (l1 l2 : list (nat * event)) :
  forall flag phs, conforms flag phs (l1 ++ l2) = true -> conforms flag phs l1 = true.
Proof.
  induction l1 as [| [g e] l1 IH]; intros flag phs H; [reflexivity |].
  cbn [app conforms] in *. destruct (phaseStep (phs g) e) as [ph' |]; [| discriminate H].
  apply andb_true_iff in H. destruct H as [Hl Hc]. rewrite Hl. cbn [andb].
  exact (IH _ _ Hc).
Qed.

(** Every load finds the flag as the stores before it have left it. *)
Lemma conforms_loads (pre : list (nat * event)) :
  forall flag phs g v post,
    conforms flag phs (pre ++ (g, LoadedSkipOpenat2 v) :: post) = true ->
    v = flagAfter flag (allEvents pre).
Proof.
  induction pre as [| [g' e] pre IH]; intros flag phs g v post H.
  - destruct (conforms_cons _ _ _ _ _ H) as (_ & _ & Hload & _). exact Hload.
  - destruct (conforms_cons _ _ _ _ _ H) as (ph' & _ & _ & Hrest).
    unfold allEvents. cbn [map snd]. rewrite flagAfter_cons.
    exact (IH _ _ _ _ _ Hrest).
Qed.

Lemma ownProtocol_nil : ownProtocol [].
Proof. exists 0%nat, []. split; [reflexivity | left; reflexivity]. Qed.

Lemma ownProtocol_attempt (l : list protocolEvent) :
  ownProtocol l -> ownProtocol (Attempt false :: l).
Proof.
  intros (n & tail & -> & Htail). exists (S n), tail. split; [reflexivity | exact Htail].
Qed.

Lemma protocolFrom_own (flag : Z) (ph : phase) (l : list protocolEvent) :
  ph <> Failed -> protocolFrom flag ph l -> ownProtocol l.
Proof.
  destruct ph; cbn; intros Hph H; [| exact H | contradiction Hph; reflexivity].
  destruct (0 <? flag); [subst; apply ownProtocol_nil | exact H].
Qed.

Lemma protocolFrom_Idle (flag : Z) (ph : phase) (l : list protocolEvent) :
  ph <> Failed -> protocolFrom flag Idle l -> protocolFrom flag ph l.
Proof.
  destruct ph; intros Hph H; [exact H | | contradiction Hph; reflexivity].
  exact (protocolFrom_own flag Idle l ltac:(discriminate) H).
Qed.

Lemma protocolFrom_set (flag : Z) (ph : phase) (l : list protocolEvent) :
  protocolFrom 1 ph l -> protocolFrom flag ph l.
Proof.
  destruct ph; cbn; intros H; try exact H.
  subst. destruct (0 <? flag); [reflexivity | apply ownProtocol_nil].
Qed.

Lemma conforms_own (g : nat) (tevs : list (nat * event)) :
  forall flag phs,
    conforms flag phs tevs = true ->
    protocolFrom flag (phs g) (collect protocolOf (eventsOf g tevs)).
Proof.
  induction tevs as [| [g' e] rest IH]; intros flag phs H.
  - cbn. destruct (phs g); cbn; [destruct (0 <? flag) | |]; auto using ownProtocol_nil.
  - destruct (conforms_cons _ _ _ _ _ H) as (ph' & Hph & Hload & Hrest).
    specialize (IH _ _ Hrest). rewrite flagAfter_one in IH.
    rewrite eventsOf_cons. destruct (Nat.eqb g' g) eqn:Eg.
    + apply Nat.eqb_eq in Eg. subst g'. rewrite upd_same in IH. rewrite collect_cons.
      destruct (phaseStep_cases _ _ _ Hph)
        as [(v & -> & Hnf & ->)
           | [(-> & Hf & ->)
             | [(b & Ho & Hl & Hs & Hc & ->) | (Ho & Hl & Hs & Hp & Hnf & ->)]]].
      * cbn [protocolOf openat2Of option_map storeOf app] in *. cbn in Hload. subst v.
        destruct (flag <=? 0) eqn:Ef.
        -- apply protocolFrom_Idle; [exact Hnf |]. cbn.
           rewrite (proj2 (Z.ltb_ge 0 flag) (proj1 (Z.leb_le _ _) Ef)). exact IH.
        -- apply protocolFrom_Idle; [exact Hnf | exact IH].
      * cbn [protocolOf storeOf app] in *. rewrite Hf. cbn. right.
        cbn in IH. rewrite IH. reflexivity.
      * rewrite Hs in IH. rewrite Hc.
        assert (Hp : protocolOf e = Some (Attempt b)).
        { destruct e as [X c x | v | v]; try discriminate Ho.
          unfold protocolOf. rewrite Ho. reflexivity. }
        rewrite Hp. cbn [app protocolFrom]. destruct b.
        -- exists 0%nat. cbn in IH. destruct IH as [-> | ->]; eexists; split;
             try reflexivity; auto.
        -- apply ownProtocol_attempt. exact (protocolFrom_own flag Idle _ ltac:(discriminate) IH).
      * rewrite Hs in IH. rewrite Hp. cbn [app].
        apply protocolFrom_Idle; [exact Hnf | exact IH].
    + unfold upd in IH. rewrite Nat.eqb_sym, Eg in IH.
      destruct (storeOf e) as [v |] eqn:Es; [| exact IH].
      destruct (phaseStep_cases _ _ _ Hph)
        as [(v' & -> & _) | [(-> & _) | [(b & _ & _ & Hs & _) | (_ & _ & Hs & _)]]];
        try discriminate Es; try (rewrite Hs in Es; discriminate Es).
      cbn in Es. inversion Es; subst v. apply protocolFrom_set. exact IH.
Qed.

(** An attempt is made by a goroutine in whose hands the flag was found
    unset: by its last action before, a load. *)
Lemma conforms_attempt (g : nat) (e : event) (post : list (nat * event))
    (pre : list (nat * event)) :
  forall flag phs,
    conforms flag phs (pre ++ (g, e) :: post) = true ->
    openat2Of e <> None ->
    (phs g = Consulted /\ eventsOf g pre = []) \/
    (exists pre1 v pre2,
        pre = pre1 ++ (g, LoadedSkipOpenat2 v) :: pre2 /\ eventsOf g pre2 = [] /\
        v <= 0 /\ v = flagAfter flag (allEvents pre1)).
Proof.
  induction pre as [| [g' e'] pre IH]; intros flag phs H He.
  - left. split; [| reflexivity].
    destruct (conforms_cons _ _ _ _ _ H) as (ph' & Hph & _).
    destruct (phaseStep_cases _ _ _ Hph)
      as [(v & -> & _) | [(-> & _) | [(b & _ & _ & _ & Hc & _) | (Ho & _)]]];
      first [exact Hc | contradiction | exfalso; apply He; reflexivity].
  - cbn [app] in H. destruct (conforms_cons _ _ _ _ _ H) as (ph' & Hph & Hload & Hrest).
    destruct (IH _ _ Hrest He) as [(Hc & Hnone) | (pre1 & v & pre2 & -> & Hnone & Hv & Hflag)].
    + unfold upd in Hc. destruct (Nat.eqb g g') eqn:Eg.
      * apply Nat.eqb_eq in Eg. subst g'.
        destruct (phaseStep_cases _ _ _ Hph)
          as [(v & -> & _ & Hph')
             | [(_ & _ & Hph')
               | [(b & _ & _ & _ & _ & Hph') | (_ & _ & _ & _ & _ & Hph')]]];
          rewrite Hph' in Hc; try discriminate Hc.
        -- right. exists [], v, pre. split; [reflexivity |]. split; [exact Hnone |].
           cbn in Hload. subst v. destruct (flag <=? 0) eqn:Ef; [| discriminate Hc].
           split; [apply Z.leb_le; exact Ef | reflexivity].
        -- destruct b; discriminate Hc.
      * left. split; [exact Hc |]. rewrite eventsOf_cons, Nat.eqb_sym, Eg. exact Hnone.
    + right. exists ((g', e') :: pre1), v, pre2. split; [reflexivity |].
      split; [exact Hnone |]. split; [exact Hv |].
      unfold allEvents. cbn [map snd]. rewrite flagAfter_cons. exact Hflag.
Qed.

(** C6: any number of goroutines, each making any number of opens under
    the root one after the other, scheduled in any order on any kernel.  The
    flag is never reset: every write stores 1, so the flag ends as it started
    or as 1.  Each goroutine reads the flag right before each of its
    [openat2] calls and finds it unset; it writes the flag at most once,
    right after an [openat2] of its own that failed with [ENOSYS], and calls
    [openat2] no more after that.  Every read finds what the writes before
    it have left, so a goroutine that reads the flag after a write takes the
    fallback: an [openat2] is only made by a goroutine whose last action
    before it was a read of the flag that came before every write.  From a
    flag that is set at the start there is no [openat2] and no write at all.
    A goroutine on its own writes the flag once, right after the first
    [openat2] that failed with [ENOSYS], calls [openat2] no more after it,
    and from then on every open is the fallback's. *)
Theorem skipOpenat2_one_way {K : Type} (h : kernel K) (reqss : list (list openRequest))
    (sched : list nat) (s : process K) tevs gs' s' :
  interleave h sched (map openAll reqss) s = (tevs, gs', s') ->
  (* the flag is never reset *)
  Forall (fun v => v = 1) (collect storeOf (allEvents tevs)) /\
  ((collect storeOf (allEvents tevs) = [] /\ skipOpenat2 s' = skipOpenat2 s) \/
   (collect storeOf (allEvents tevs) <> [] /\ skipOpenat2 s' = 1)) /\
  (* each goroutine consults it before every attempt, and writes it at most once *)
  (forall g,
      consulted None (eventsOf g tevs) = true /\
      ownProtocol (collect protocolOf (eventsOf g tevs))) /\
  (* a load finds what the writes before it have left *)
  (forall pre g v post,
      tevs = pre ++ (g, LoadedSkipOpenat2 v) :: post ->
      v = flagAfter (skipOpenat2 s) (allEvents pre)) /\
  (* an attempt is made only by a goroutine that consulted the flag before
     any write of it *)
  (forall pre g e post,
      tevs = pre ++ (g, e) :: post -> openat2Of e <> None ->
      exists pre1 v pre2,
        pre = pre1 ++ (g, LoadedSkipOpenat2 v) :: pre2 /\ eventsOf g pre2 = [] /\
        v <= 0 /\ collect storeOf (allEvents pre1) = []) /\
  (* from a set flag: no attempt, no write *)
  (0 < skipOpenat2 s ->
   collect protocolOf (allEvents tevs) = [] /\ skipOpenat2 s' = skipOpenat2 s) /\
  (* one goroutine, on its own *)
  (forall (reqs : list openRequest) (s0 : process K) evs s1 r,
      run h (openAll reqs) s0 = (evs, s1, r) ->
      consulted None evs = true /\
      (0 < skipOpenat2 s0 ->
       skipOpenat2 s1 = skipOpenat2 s0 /\ collect protocolOf evs = [] /\
       run h (openAllFallback reqs) s0 = (filter (fun e => negb (isLoad e)) evs, s1, r)) /\
      (skipOpenat2 s0 <= 0 ->
       exists n,
         (skipOpenat2 s1 = skipOpenat2 s0 /\
          collect protocolOf evs = repeat (Attempt false) n)
         \/
         (skipOpenat2 s1 = 1 /\
          collect protocolOf evs = repeat (Attempt false) n ++ [Attempt true; Downgrade 1]))).
Proof.
  intros Hrun.
  assert (Hgs : forall g p, nth_error (map openAll reqss) g = Some p ->
                            obeys settled ((fun _ => Idle) g) p).
  { intros g p Hp. apply nth_error_In, in_map_iff in Hp. destruct Hp as (reqs & <- & _).
    apply openAll_polite. discriminate. }
  destruct (interleave_conforms h settled sched _ s _ Hgs) as (Hc & Hflag).
  rewrite Hrun in Hc, Hflag. cbn [fst snd] in Hc, Hflag.
  pose proof (conforms_stores _ _ _ Hc) as Hstores.
  split; [exact Hstores |]. split.
  { rewrite Hflag. apply flagAfter_stores. exact Hstores. }
  split.
  { intros g. split.
    - apply (conforms_consulted g tevs _ _ None Hc). discriminate.
    - exact (protocolFrom_own _ Idle _ ltac:(discriminate) (conforms_own g tevs _ _ Hc)). }
  split.
  { intros pre g v post ->. exact (conforms_loads pre _ _ _ _ _ Hc). }
  split.
  { intros pre g e post -> He.
    destruct (conforms_attempt g e post pre _ _ Hc He)
      as [(Hph & _) | (pre1 & v & pre2 & -> & Hnone & Hv & Hval)]; [discriminate Hph |].
    exists pre1, v, pre2. split; [reflexivity |]. split; [exact Hnone |].
    split; [exact Hv |].
    rewrite <- app_assoc in Hc. apply conforms_app_l in Hc.
    destruct (flagAfter_stores _ (conforms_stores _ _ _ Hc) (skipOpenat2 s))
      as [(Hno & _) | (_ & Hone)]; [exact Hno | lia]. }
  split.
  { intros Hset. rewrite Hflag. apply (conforms_quiet tevs _ _ Hc Hset). reflexivity. }
  intros reqs s0 evs s1 r Hseq.
  exact (openAll_one_way h reqs s0 evs s1 r Hseq).
Qed.

(** Two goroutines that open a file each, on a kernel without [openat2],
    where the second reads the flag before the first has written it. *)
Lemma skipOpenat2_one_way_witness :
  let reqs := [mkOpenRequest 3 "a" 0 0] in
  let enosys := Int (Err (Errno unix.ENOSYS)) in
  let start := mkProcess [enosys; enosys] 0 in
  let tevs :=
    fst (fst (interleave replay [0; 1; 0; 0; 1; 1]%nat [openAll reqs; openAll reqs] start)) in
  allEvents tevs
  = [LoadedSkipOpenat2 0; LoadedSkipOpenat2 0;
     Called (unix_Openat2 3 "a" (mkOpenHow 0 0 16)) (Err (Errno unix.ENOSYS));
     StoredSkipOpenat2 1;
     Called (unix_Openat2 3 "a" (mkOpenHow 0 0 16)) (Err (Errno unix.ENOSYS));
     StoredSkipOpenat2 1] /\
  (forall g,
      consulted None (eventsOf g tevs) = true /\
      ownProtocol (collect protocolOf (eventsOf g tevs))) /\
  exists pre1 v pre2,
    firstn 4 tevs = pre1 ++ (1%nat, LoadedSkipOpenat2 v) :: pre2 /\ eventsOf 1 pre2 = [] /\
    v <= 0 /\ collect storeOf (allEvents pre1) = [].
Proof.
  cbv zeta.
  destruct (interleave replay [0; 1; 0; 0; 1; 1]%nat
              [openAll [mkOpenRequest 3 "a" 0 0]; openAll [mkOpenRequest 3 "a" 0 0]]
              (mkProcess [Int (Err (Errno unix.ENOSYS)); Int (Err (Errno unix.ENOSYS))] 0))
    as [[tevs gs'] s'] eqn:Hrun.
  pose proof (skipOpenat2_one_way replay
                [[mkOpenRequest 3 "a" 0 0]; [mkOpenRequest 3 "a" 0 0]] _ _ _ _ _ Hrun)
    as (_ & _ & Hown & _ & Hattempt & _).
  vm_compute in Hrun. inversion Hrun; subst; clear Hrun. cbn [fst].
  split; [reflexivity |]. split; [exact Hown |].
  match goal with
  | |- context [firstn 4 ?l] =>
      exact (Hattempt (firstn 4 l) 1%nat (snd (nth 4 l (0%nat, LoadedSkipOpenat2 0)))
               (skipn 5 l) eq_refl ltac:(discriminate))
  end.
Defined.

(** C6, as the claim states it, fails when two goroutines open at the same
    time: the second has read the flag before the first writes it, so it
    calls [openat2] after the flag is set, and writes the flag a second
    time. *)
Lemma skipOpenat2_written_twice :
  let reqs := [mkOpenRequest 3 "a" 0 0] in
  let enosys := Int (Err (Errno unix.ENOSYS)) in
  let start := mkProcess [enosys; enosys] 0 in
  let r := interleave replay [0; 1; 0; 0; 1; 1]%nat [openAll reqs; openAll reqs] start in
  fst (fst r)
  = [(0, LoadedSkipOpenat2 0); (1, LoadedSkipOpenat2 0);
     (0, Called (unix_Openat2 3 "a" (mkOpenHow 0 0 16)) (Err (Errno unix.ENOSYS)));
     (0, StoredSkipOpenat2 1);
     (1, Called (unix_Openat2 3 "a" (mkOpenHow 0 0 16)) (Err (Errno unix.ENOSYS)));
     (1, StoredSkipOpenat2 1)]%nat /\
  collect protocolOf (allEvents (fst (fst r)))
  = [Attempt true; Downgrade 1; Attempt true; Downgrade 1] /\
  skipOpenat2 (snd r) = 1.
Proof. cbv zeta. vm_compute. repeat split. Qed.

(** *** After the downgrade, in every function of the file *)

Lemma afterDowngrade_bind {A B : Type} (p : prog A) (f : A -> prog B) :
  afterDowngrade p -> (forall a, afterDowngrade (f a)) -> afterDowngrade (bind p f).
Proof. intros Hp Hf. induction Hp; simpl; try constructor; auto. Qed.

(** With the flag set, such a program leaves the flag as it is, and its
    trace has no [openat2] and no write of the flag. *)
Lemma afterDowngrade_run {K A : Type} (h : kernel K) (p : prog A) :
  afterDowngrade p ->
  forall (s : process K) evs s' r,
    0 < skipOpenat2 s ->
    run h p s = (evs, s', r) ->
    skipOpenat2 s' = skipOpenat2 s /\ collect protocolOf evs = [].
Proof.
  induction 1 as [a | X c k Hc Hk IH | k Hk IH |]; intros s evs s' r Hset Hrun; simpl in Hrun.
  - inversion Hrun; subst. split; reflexivity.
  - destruct (h X c (kern s)) as [x kn].
    destruct (run h (k x) _) as [[evs1 s1] r1] eqn:E1. inversion Hrun; subst.
    destruct (IH x (mkProcess kn (skipOpenat2 s)) _ _ _ Hset E1) as [H1 H2].
    split; [exact H1 |].
    rewrite collect_cons, H2. destruct c; try reflexivity. destruct Hc.
  - destruct (run h (k (skipOpenat2 s)) s) as [[evs1 s1] r1] eqn:E1. inversion Hrun; subst.
    destruct (IH _ Hset _ _ _ _ Hset E1) as [H1 H2]. split; [exact H1 |].
    rewrite collect_cons, H2. reflexivity.
  - inversion Hrun; subst. split; reflexivity.
Qed.

Ltac afterDowngrade_step :=
  match goal with
  | |- afterDowngrade (bind _ _) => apply afterDowngrade_bind
  | |- afterDowngrade (call _) => unfold call
  | |- afterDowngrade (Sys _ _) => apply afterDowngrade_Sys; [exact I |]
  | |- afterDowngrade (Ret _) => constructor
  | |- afterDowngrade StackOverflow => constructor
  | |- afterDowngrade (match ?x with _ => _ end) => destruct x
  | |- forall _, _ => intro
  end.

Lemma openFileUnderRootFallback_afterDowngrade (dirfd : Z) (name : string) (flags mode : Z) :
  afterDowngrade (openFileUnderRootFallback dirfd name flags mode).
Proof. unfold openFileUnderRootFallback, checkUnderRoot. repeat afterDowngrade_step. Qed.

Lemma openFileUnderRootRaw_afterDowngrade (dirfd : Z) (name : string) (flags mode : Z) :
  afterDowngrade (openFileUnderRootRaw dirfd name flags mode).
Proof.
  unfold openFileUnderRootRaw. destruct (String.eqb name ""); [repeat afterDowngrade_step |].
  unfold atomic_LoadInt32_skipOpenat2. cbn [bind]. constructor. intros v Hv.
  rewrite Z.gtb_ltb, (proj2 (Z.ltb_lt 0 v) Hv).
  apply openFileUnderRootFallback_afterDowngrade.
Qed.

Lemma File_Close_afterDowngrade (f : option osFile) : afterDowngrade (File_Close f).
Proof. unfold File_Close. repeat afterDowngrade_step. Qed.

Lemma openOrCreateDirUnderRoot_afterDowngrade (depth : nat) (dirfd : Z) (name : string)
    (mode : Z) :
  afterDowngrade (openOrCreateDirUnderRoot depth dirfd name mode).
Proof.
  revert dirfd name mode. induction depth as [| depth IH]; intros dirfd name mode;
    cbn [openOrCreateDirUnderRoot]; [constructor |].
  repeat (first [ apply openFileUnderRootRaw_afterDowngrade
                | apply File_Close_afterDowngrade
                | apply IH
                | afterDowngrade_step ]).
Qed.

Lemma openFileUnderRoot_afterDowngrade (depth : nat) (dirfd : Z) (name : string)
    (flags mode : Z) :
  afterDowngrade (openFileUnderRoot depth dirfd name flags mode).
Proof.
  unfold openFileUnderRoot.
  repeat (first [ apply openFileUnderRootRaw_afterDowngrade
                | apply File_Close_afterDowngrade
                | apply openOrCreateDirUnderRoot_afterDowngrade
                | afterDowngrade_step ]).
Qed.

Lemma doHardLink_afterDowngrade (srcFd destDirFd : Z) (destBase : string) :
  afterDowngrade (doHardLink srcFd destDirFd destBase).
Proof. unfold doHardLink. repeat afterDowngrade_step. Qed.

Lemma copyFileContent_afterDowngrade (newFileFlags : Z) (depth : nat) (srcFd : Z)
    (fileMeta : fileMetadata) (dirfd mode : Z) (useHardLinks : bool) :
  afterDowngrade (copyFileContent newFileFlags depth srcFd fileMeta dirfd mode useHardLinks).
Proof.
  unfold copyFileContent, copyToFreshFile.
  repeat (first [ apply openFileUnderRoot_afterDowngrade
                | apply File_Close_afterDowngrade
                | apply doHardLink_afterDowngrade
                | afterDowngrade_step ]).
Qed.

Lemma setXattrs_afterDowngrade (xattrsToIgnore : string -> bool)
    (decode : string -> result (list Z)) (fd : Z) (name : string)
    (xattrs : list (string * string)) :
  afterDowngrade (setXattrs xattrsToIgnore decode fd name xattrs).
Proof.
  induction xattrs as [| [k v] rest IH]; cbn [setXattrs]; [constructor |].
  unfold unlessIgnorable.
  repeat (first [ apply IH | afterDowngrade_step ]).
Qed.

Lemma setFileAttrs_afterDowngrade (typeToTarType : string -> Z * option error)
    (xattrsToIgnore : string -> bool) (decode : string -> result (list Z)) (depth : nat)
    (dirfd : Z) (file : option osFile) (mode : Z) (metadata : fileMetadata)
    (options : TarOptions) (usePath : bool) :
  afterDowngrade (setFileAttrs typeToTarType xattrsToIgnore decode depth dirfd file mode metadata
                    options usePath).
Proof.
  unfold setFileAttrs, applyAttrs, unlessIgnorable.
  repeat (first [ apply openFileUnderRoot_afterDowngrade
                | apply File_Close_afterDowngrade
                | apply setXattrs_afterDowngrade
                | afterDowngrade_step ]).
Qed.

Lemma safeMkdir_afterDowngrade (typeToTarType : string -> Z * option error)
    (xattrsToIgnore : string -> bool) (decode : string -> result (list Z)) (depth : nat)
    (dirfd mode : Z) (name : string) (metadata : fileMetadata) (options : TarOptions) :
  afterDowngrade (safeMkdir typeToTarType xattrsToIgnore decode depth dirfd mode name metadata
                    options).
Proof.
  unfold safeMkdir.
  repeat (first [ apply openFileUnderRoot_afterDowngrade
                | apply openOrCreateDirUnderRoot_afterDowngrade
                | apply File_Close_afterDowngrade
                | apply setFileAttrs_afterDowngrade
                | afterDowngrade_step ]).
Qed.

(** ** The chunked blob reader *)

Lemma produce_sends (f : seekableFile) (chunks : list ImageSourceChunk) :
  produce f chunks = map SendStreams (map (sentView f) chunks) ++ [CloseStreams; CloseErrs].
Proof. induction chunks as [| c rest IH]; simpl; [| rewrite IH]; reflexivity. Qed.

Lemma rangeStreams_produce (f : seekableFile) (chunks : list ImageSourceChunk) :
  rangeStreams (S (List.length chunks)) (mkChannels (produce f chunks) false false)
  = (Some (map (sentView f) chunks), mkChannels [] true true).
Proof.
  induction chunks as [| c rest IH]; [reflexivity |].
  cbn [List.length]. remember (S (List.length rest)) as n eqn:En.
  cbn [rangeStreams recvStreams produce pending streamsClosed errsClosed settle].
  rewrite IH. reflexivity.
Qed.

Lemma sentView_valid (f : seekableFile) (chunk : ImageSourceChunk) :
  validChunk chunk -> sentView f chunk = chunkSection f chunk.
Proof.
  intros (Ho & Hl & Hsum). unfold sentView, chunkSection, io_NewSectionReader.
  assert (Hm : 0 <= maxInt64) by (unfold maxInt64; lia).
  rewrite (to_int64_in_range (Offset chunk)) by (unfold maxInt64 in *; lia).
  rewrite (to_int64_in_range (Length chunk)) by (unfold maxInt64 in *; lia).
  rewrite (to_int64_in_range (maxInt64 - Length chunk)) by (unfold maxInt64 in *; lia).
  rewrite (to_int64_in_range (Length chunk + Offset chunk)) by (unfold maxInt64 in *; lia).
  destruct (Offset chunk <=? maxInt64 - Length chunk) eqn:E.
  - rewrite (Z.add_comm (Length chunk)). reflexivity.
  - apply Z.leb_gt in E. lia.
Qed.

(** C7: [GetBlobAt] returns a nil error at once, whatever the chunks.  The
    goroutine it starts sends, on the data channel, one view per chunk, in
    the order of the request, closes the data channel and then the error
    channel, and sends nothing on the error channel: a consumer that ranges
    over the data channel receives exactly these views in this order, and
    the error channel then reports closed without a value.  The view of a
    chunk is the section reader over the file's reader at the chunk's offset
    and length as [int64]: for every chunk within the offsets a file can
    have, whatever the other chunks are, this is the section that starts at
    the chunk's offset, ends at offset plus length, and has the chunk's
    length as its size. *)
Theorem GetBlobAt_one_view_per_chunk (f : seekableFile) (chunks : list ImageSourceChunk) :
  let b := GetBlobAt f chunks in
  let consumed := rangeStreams (S (List.length chunks)) (startChannels b) in
  returnedErr b = None /\
  goroutine b = map SendStreams (map (sentView f) chunks) ++ [CloseStreams; CloseErrs] /\
  (forall e, ~ In (SendErrs e) (goroutine b)) /\
  fst consumed = Some (map (sentView f) chunks) /\
  List.length (map (sentView f) chunks) = List.length chunks /\
  snd consumed = mkChannels [] true true /\
  fst (recvErrs (snd consumed)) = ChannelClosed /\
  (forall chunk, validChunk chunk ->
     sentView f chunk = chunkSection f chunk /\
     match sentView f chunk with
     | io_NopCloser sr => SectionReader_Size sr = Length chunk /\ 0 <= SectionReader_Size sr
     end) /\
  (Forall validChunk chunks ->
   map (sentView f) chunks = map (chunkSection f) chunks /\
   Forall (fun v => match v with io_NopCloser sr => 0 <= SectionReader_Size sr end)
     (map (sentView f) chunks) /\
   map (fun v => match v with io_NopCloser sr => SectionReader_Size sr end)
     (map (sentView f) chunks)
   = map Length chunks).
Proof.
  cbv zeta. unfold GetBlobAt, startChannels. cbn [goroutine returnedErr].
  rewrite rangeStreams_produce. cbn [fst snd].
  split; [reflexivity |]. split; [apply produce_sends |]. split.
  { intros e Hin. rewrite produce_sends in Hin. apply in_app_or in Hin.
    destruct Hin as [Hin | [Hin | [Hin | []]]]; try discriminate Hin.
    apply in_map_iff in Hin. destruct Hin as (v & Hv & _). discriminate Hv. }
  split; [reflexivity |]. split; [apply length_map |].
  split; [reflexivity |]. split; [reflexivity |].
  assert (Hone : forall chunk, validChunk chunk ->
            sentView f chunk = chunkSection f chunk /\
            match sentView f chunk with
            | io_NopCloser sr => SectionReader_Size sr = Length chunk /\ 0 <= SectionReader_Size sr
            end).
  { intros c Hc. rewrite (sentView_valid f c Hc). split; [reflexivity |].
    unfold chunkSection, SectionReader_Size. cbn. destruct Hc as (_ & Hl & _). lia. }
  split; [exact Hone |].
  intros Hvalid. induction Hvalid as [| c rest Hc Hrest (IH1 & IH2 & IH3)];
    [repeat split; constructor |].
  cbn [map]. destruct (Hone c Hc) as (Hv & Hs). rewrite IH1, Hv. split; [reflexivity |].
  rewrite <- IH1, <- Hv. split.
  - constructor; [| exact IH2]. destruct (sentView f c). apply Hs.
  - rewrite IH3. f_equal. destruct (sentView f c). apply Hs.
Qed.

(** A view is bounded by its section: over a reader that returns no more
    bytes than the buffer holds, a read returns no more than what is left of
    the section. *)
Lemma SectionReader_Read_bounded (s : SectionReader) (n : nat) :
  (forall m off, (List.length (fst (ReadAt (sr_r s) m off)) <= m)%nat) ->
  sr_off s <= sr_limit s ->
  Z.of_nat (List.length (fst (fst (SectionReader_Read s n)))) <= sr_limit s - sr_off s.
Proof.
  intros Hreader Hle. unfold SectionReader_Read.
  destruct (sr_off s >=? sr_limit s) eqn:E; [cbn; lia |].
  rewrite Z.geb_leb in E. apply Z.leb_gt in E.
  destruct (Z.of_nat n >? sr_limit s - sr_off s) eqn:En.
  - pose proof (Hreader (Z.to_nat (sr_limit s - sr_off s)) (sr_off s)) as H.
    destruct (ReadAt (sr_r s) _ (sr_off s)) as [got err]. cbn in *. lia.
  - rewrite Z.gtb_ltb in En. apply Z.ltb_ge in En.
    pose proof (Hreader n (sr_off s)) as H.
    destruct (ReadAt (sr_r s) n (sr_off s)) as [got err]. cbn in *. lia.
Qed.

(** The example of the spec: two chunks, [0,10) and [20,25). *)
Example GetBlobAt_two_chunks :
  let f := newSeekableFile (bytesReader (repeat 7 25)) in
  let b := GetBlobAt f [mkChunk 0 10; mkChunk 20 5] in
  fst (rangeStreams 3 (startChannels b))
  = Some [io_NopCloser (mkSectionReader (reader f) 0 0 10 10);
          io_NopCloser (mkSectionReader (reader f) 20 20 25 5)] /\
  returnedErr b = None /\
  fst (fst (SectionReader_Read (mkSectionReader (reader f) 0 0 10 10) 64))
  = repeat 7 10 /\
  fst (fst (SectionReader_Read (mkSectionReader (reader f) 20 20 25 5) 64))
  = repeat 7 5.
Proof. repeat split. Qed.

Lemma GetBlobAt_one_view_per_chunk_witness :
  let f := newSeekableFile (bytesReader (repeat 7 25)) in
  let chunks := [mkChunk 0 10; mkChunk 20 5] in
  Forall validChunk chunks /\
  map (sentView f) chunks
  = [io_NopCloser (mkSectionReader (reader f) 0 0 10 10);
     io_NopCloser (mkSectionReader (reader f) 20 20 25 5)] /\
  map (fun v => match v with io_NopCloser sr => SectionReader_Size sr end)
    (map (sentView f) chunks)
  = [10; 5].
Proof.
  cbv zeta.
  assert (Hvalid : Forall validChunk [mkChunk 0 10; mkChunk 20 5]).
  { repeat constructor; cbn; unfold maxInt64; lia. }
  split; [exact Hvalid |].
  destruct (GetBlobAt_one_view_per_chunk (newSeekableFile (bytesReader (repeat 7 25)))
              [mkChunk 0 10; mkChunk 20 5]) as (_ & _ & _ & _ & _ & _ & _ & _ & Hall).
  destruct (Hall Hvalid) as (Hviews & _ & Hsizes).
  split; [exact Hviews | exact Hsizes].
Defined.

(** C7, as the claim states it, fails for a chunk beyond the offsets of
    [int64]: the offset [2^63] of a chunk becomes [-2^63] in the conversion,
    so the view sent for it is a section that starts before the source, and a
    read of it fails. *)
Lemma GetBlobAt_offset_beyond_int64 :
  let f := newSeekableFile (bytesReader (repeat 7 25)) in
  let chunk := mkChunk (2 ^ 63) 1 in
  let view := mkSectionReader (reader f) (- 2 ^ 63) (- 2 ^ 63) (- 2 ^ 63 + 1) 1 in
  fst (rangeStreams 2 (startChannels (GetBlobAt f [chunk]))) = Some [io_NopCloser view] /\
  io_NopCloser view <> chunkSection f chunk /\
  sr_base view <> Offset chunk /\
  fst (SectionReader_Read view 1) = ([], Some (ErrorsNew "negative offset")).
Proof.
  cbv zeta. split; [reflexivity |]. split; [| split; [| reflexivity]].
  - intros H. inversion H.
  - cbn. discriminate.
Qed.

(** * Further properties *)

(** ** Timestamps *)

(** X1: an instant is handed to [utimensat] as a normalised timespec of the
    same number of nanoseconds, which the kernel cannot take for the value
    that means "leave the timestamp as it is"; that value is what a nil or
    zero time gives. *)
Theorem timeToTimespec_normalised (ns : Z) :
  let ts := timeToTimespec (Some (TimeAt ns)) in
  0 <= Nsec ts < 1000000000 /\
  Sec ts * 1000000000 + Nsec ts = ns /\
  Nsec ts <> Nsec (timeToTimespec None) /\
  timeToTimespec (Some TimeZero) = timeToTimespec None /\
  timeToTimespec None = mkTimespec 0 1073741822.
Proof.
  cbn zeta. unfold timeToTimespec, unix_NsecToTimespec.
  pose proof (Z.quot_rem' ns 1000000000) as Hqr.
  assert (Hrem : - 1000000000 < Z.rem ns 1000000000 < 1000000000).
  { pose proof (Z.rem_bound_abs ns 1000000000 ltac:(lia)). lia. }
  destruct (Z.rem ns 1000000000 <? 0) eqn:E; cbn [Sec Nsec].
  - apply Z.ltb_lt in E. repeat split; try lia. cbn. lia.
  - apply Z.ltb_ge in E. repeat split; try lia. cbn. lia.
Qed.

(** ** Hard links *)

(** X2: [doHardLink] links from the source's path under /proc/self/fd.
    A first [linkat] that succeeds, or that fails with an error that is not
    "exists", is the only call, and its answer is the result.  When it fails
    with "exists", the destination is unlinked, the same [linkat] is made a
    second and last time, and its answer is the result, whatever the
    [unlinkat] answered. *)
Theorem doHardLink_retries_once {K : Type} (h : kernel K) (srcFd destDirFd : Z)
    (destBase : string) (s : process K) evs s' r :
  run h (doHardLink srcFd destDirFd destBase) s = (evs, s', r) ->
  let link :=
    unix_Linkat unix.AT_FDCWD (procPathForFd srcFd) destDirFd destBase unix.AT_SYMLINK_FOLLOW in
  (exists e1,
      evs = [Called link e1] /\ r = Some e1 /\
      (forall e, e1 = Some e -> os_IsExist e = false)) \/
  (exists e u e2,
      os_IsExist e = true /\
      evs = [Called link (Some e); Called (unix_Unlinkat destDirFd destBase 0) u;
             Called link e2] /\
      r = Some e2).
Proof.
  intros Hrun link. unfold doHardLink in Hrun.
  run_cases Hrun h; inversion Hrun; subst; clear Hrun.
  - right. do 3 eexists. split; [eassumption |]. split; reflexivity.
  - left. eexists. split; [reflexivity |]. split; [reflexivity |].
    intros e' E. inversion E; subst. assumption.
  - left. eexists. split; [reflexivity |]. split; [reflexivity |]. intros e' E. discriminate E.
Qed.

Lemma doHardLink_retries_once_witness :
  let link := unix_Linkat unix.AT_FDCWD "/proc/self/fd/7" 4 "b" unix.AT_SYMLINK_FOLLOW in
  (exists e1,
      [Called link (Some (Errno unix.EEXIST)); Called (unix_Unlinkat 4 "b" 0) (Some (Errno unix.EPERM));
       Called link None] = [Called link e1] /\ Some (@None error) = Some e1 /\
      (forall e, e1 = Some e -> os_IsExist e = false)) \/
  (exists e u e2,
      os_IsExist e = true /\
      [Called link (Some (Errno unix.EEXIST)); Called (unix_Unlinkat 4 "b" 0) (Some (Errno unix.EPERM));
       Called link None]
      = [Called link (Some e); Called (unix_Unlinkat 4 "b" 0) u; Called link e2] /\
      Some (@None error) = Some e2).
Proof.
  exact (doHardLink_retries_once replay 7 4 "b"
           (mkProcess [Status (Some (Errno unix.EEXIST)); Status (Some (Errno unix.EPERM));
                       Status None] 0)
           _ _ _ eq_refl).
Defined.

(** ** The calls of a run, by name *)

Lemma always_names {K A : Type} (allowed : sysname -> bool) (h : kernel K) (p : prog A)
    (s : process K) evs s' r :
  always (calls allowed) (fun _ => True) p ->
  run h p s = (evs, s', r) ->
  forallb allowed (names evs) = true.
Proof.
  intros Hp Hrun.
  pose proof (proj1 (always_run _ _ h p Hp s evs s' r Hrun)) as Hall. clear Hrun Hp.
  induction Hall as [| e evs He _ IH]; [reflexivity |].
  unfold names in *. rewrite collect_cons.
  destruct e as [X c x | v | v]; simpl; [| exact IH | exact IH].
  rewrite IH. unfold calls in He. simpl in He. rewrite He. reflexivity.
Qed.

Lemma forallb_not_In (allowed : sysname -> bool) (n : sysname) (l : list sysname) :
  forallb allowed l = true -> allowed n = false -> ~ In n l.
Proof.
  intros Hall Hn Hin. rewrite forallb_forall in Hall. rewrite (Hall n Hin) in Hn. discriminate Hn.
Qed.

Lemma openFileUnderRootRaw_looks_up (dirfd : Z) (name : string) (flags mode : Z) :
  always (calls lookingUp) (fun _ => True) (openFileUnderRootRaw dirfd name flags mode).
Proof.
  unfold openFileUnderRootRaw, openFileUnderRootOpenat2, openFileUnderRootFallback,
    checkUnderRoot.
  always_auto.
Qed.

(** The raw open always returns. *)
Lemma openFileUnderRootRaw_returns {K : Type} (h : kernel K) (dirfd : Z) (name : string)
    (flags mode : Z) (s : process K) evs s' r :
  run h (openFileUnderRootRaw dirfd name flags mode) s = (evs, s', r) ->
  exists fd err, r = Some (fd, err).
Proof.
  intros Hrun.
  unfold openFileUnderRootRaw, openFileUnderRootOpenat2, openFileUnderRootFallback,
    checkUnderRoot, atomic_LoadInt32_skipOpenat2, atomic_StoreInt32_skipOpenat2 in Hrun.
  run_cases Hrun h; inversion Hrun; subst;
    try match goal with |- context [returned ?x] => destruct (returned x) end;
    eexists; eexists; reflexivity.
Qed.

Lemma run_bind_inv {K A B : Type} (h : kernel K) (p : prog A) (f : A -> prog B)
    (s : process K) evs s' b :
  run h (bind p f) s = (evs, s', Some b) ->
  exists e1 s1 a e2,
    run h p s = (e1, s1, Some a) /\ run h (f a) s1 = (e2, s', Some b) /\ evs = e1 ++ e2.
Proof.
  rewrite run_bind. destruct (run h p s) as [[e1 s1] [a |]]; [| discriminate].
  destruct (run h (f a) s1) as [[e2 s2] r] eqn:E2. intros H. inversion H; subst.
  exists e1, s1, a, e2. repeat split. exact E2.
Qed.

(** ** Opening under the root *)

(** X3: without [O_CREAT], [openFileUnderRoot] is one raw open and nothing
    else: the run makes the calls of [openFileUnderRootRaw] and no other,
    creates no directory, and returns the descriptor as a file of the name
    asked for, or nil with the raw open's error wrapped.  The bound on the
    recursion plays no part. *)
Theorem openFileUnderRoot_without_create {K : Type} (h : kernel K) (depth : nat) (dirfd : Z)
    (name : string) (flags mode : Z) (s : process K) evs s' r :
  Z.land flags unix.O_CREAT = 0 ->
  run h (openFileUnderRoot depth dirfd name flags mode) s = (evs, s', r) ->
  exists fd err,
    run h (openFileUnderRootRaw dirfd name flags mode) s = (evs, s', Some (fd, err)) /\
    r = Some match err with
             | None => (os_NewFile (to_uintptr fd) name, None)
             | Some e =>
                 (None, Some (Errorf "open %q under the rootfs: %w" [ArgString name] e))
             end /\
    ~ In N_Mkdirat (names evs).
Proof.
  intros Hflags Hrun. unfold openFileUnderRoot in Hrun. rewrite run_bind in Hrun.
  destruct (run h (openFileUnderRootRaw dirfd name flags mode) s) as [[e0 s0] r0] eqn:Eraw.
  destruct (openFileUnderRootRaw_returns h _ _ _ _ _ _ _ _ Eraw) as (fd & err & ->).
  pose proof (always_names lookingUp h _ _ _ _ _
                (openFileUnderRootRaw_looks_up dirfd name flags mode) Eraw) as Hnames.
  assert (Hrun' : (e0, s0,
                   Some match err with
                        | None => (os_NewFile (to_uintptr fd) name, None)
                        | Some e =>
                            (None,
                             Some (Errorf "open %q under the rootfs: %w" [ArgString name] e))
                        end) = (evs, s', r)).
  { rewrite <- Hrun. destruct err as [e |]; cbn iota.
    - rewrite Hflags. cbn. rewrite andb_false_r. cbn. rewrite app_nil_r. reflexivity.
    - cbn. rewrite app_nil_r. reflexivity. }
  inversion Hrun'; subst. exists fd, err. repeat split.
  apply (forallb_not_In lookingUp); [exact Hnames | reflexivity].
Qed.

Lemma openFileUnderRoot_without_create_witness :
  exists fd err,
    run replay
      (openFileUnderRootRaw 3 "etc/passwd" (Z.lor unix.O_PATH unix.O_NOFOLLOW) 0)
      (mkProcess [Int (Err (Errno unix.ENOENT))] 0)
    = ([LoadedSkipOpenat2 0;
        Called (unix_Openat2 3 "etc/passwd"
                  (mkOpenHow (Z.lor unix.O_PATH unix.O_NOFOLLOW) 0 unix.RESOLVE_IN_ROOT))
          (Err (Errno unix.ENOENT))],
       mkProcess [] 0, Some (fd, err)) /\
    Some (@None osFile,
          Some (Errorf "open %q under the rootfs: %w" [ArgString "etc/passwd"]
                  (Errno unix.ENOENT)))
    = Some match err with
           | None => (os_NewFile (to_uintptr fd) "etc/passwd", None)
           | Some e =>
               (None, Some (Errorf "open %q under the rootfs: %w" [ArgString "etc/passwd"] e))
           end /\
    ~ In N_Mkdirat
        (names [LoadedSkipOpenat2 0;
                Called (unix_Openat2 3 "etc/passwd"
                          (mkOpenHow (Z.lor unix.O_PATH unix.O_NOFOLLOW) 0
                             unix.RESOLVE_IN_ROOT))
                  (Err (Errno unix.ENOENT))]).
Proof.
  exact (openFileUnderRoot_without_create replay 5 3 "etc/passwd"
           (Z.lor unix.O_PATH unix.O_NOFOLLOW) 0
           (mkProcess [Int (Err (Errno unix.ENOENT))] 0) _ _ _ eq_refl eq_refl).
Defined.

Lemma always_any {A : Type} (p : prog A) : always (fun _ _ => True) (fun _ => True) p.
Proof. induction p; constructor; auto. Qed.

(** X4: whenever [openFileUnderRoot] returns an error, whatever the flags,
    the file returned is nil and the error is that of its first raw open,
    wrapped with the name asked for: what went wrong while the parent
    directory was created, or in the second open, is not reported.  The
    errno of the first open stays visible to [errors.Is]. *)
Theorem openFileUnderRoot_reports_first_error {K : Type} (h : kernel K) (depth : nat)
    (dirfd : Z) (name : string) (flags mode : Z) (s : process K) evs s' f err :
  run h (openFileUnderRoot depth dirfd name flags mode) s = (evs, s', Some (f, Some err)) ->
  f = None /\
  exists e0 s0 fd e rest,
    run h (openFileUnderRootRaw dirfd name flags mode) s = (e0, s0, Some (fd, Some e)) /\
    evs = e0 ++ rest /\
    err = Errorf "open %q under the rootfs: %w" [ArgString name] e /\
    forall target, errors_Is err target = errors_Is e target.
Proof.
  intros Hrun. unfold openFileUnderRoot in Hrun.
  apply run_bind_inv in Hrun. destruct Hrun as (e0 & s0 & [fd err0] & rest & Hraw & Hrest & ->).
  destruct err0 as [e |]; [| cbn in Hrest; inversion Hrest].
  assert (Hpost : always (fun _ _ => True)
                    (fun r : option osFile * option error =>
                       match r with
                       | (f, Some err) =>
                           f = None /\
                           err = Errorf "open %q under the rootfs: %w" [ArgString name] e
                       | _ => True
                       end)
                    (let failed : prog (option osFile * option error) :=
                       Ret (None, Some (Errorf "open %q under the rootfs: %w"
                                          [ArgString name] e)) in
                     let hasCreate := negb (Z.land flags unix.O_CREAT =? 0) in
                     if errors_Is e unix.ENOENT && hasCreate then
                       let parent := filepath_Dir name in
                       if negb (String.eqb parent "") then
                         '(newDirfd, err2) <- openOrCreateDirUnderRoot depth dirfd parent 0 ;;
                         match err2 with
                         | None =>
                             '(fd, err) <- openFileUnderRootRaw (to_int (File_Fd newDirfd))
                                             (filepath_Base name) flags mode ;;
                             match err with
                             | None =>
                                 File_Close newDirfd ;;;
                                 Ret (os_NewFile (to_uintptr fd) name, None)
                             | Some _ =>
                                 File_Close newDirfd ;;;
                                 failed
                             end
                         | Some _ => failed
                         end
                       else failed
                     else failed)).
  { cbn zeta. always_auto; try apply always_any; try (split; reflexivity). }
  pose proof (proj2 (always_run _ _ h _ Hpost _ _ _ _ Hrest) _ eq_refl) as [-> ->].
  split; [reflexivity |]. exists e0, s0, fd, e, rest. repeat split. exact Hraw.
Qed.

Lemma openFileUnderRoot_reports_first_error_witness :
  @None osFile = None /\
  exists e0 s0 fd e rest,
    run replay (openFileUnderRootRaw 3 "a/b" (Z.lor unix.O_CREAT unix.O_WRONLY) 420)
      (mkProcess [Int (Err (Errno unix.ENOENT)); Int (Err (Errno unix.EACCES))] 0)
    = (e0, s0, Some (fd, Some e)) /\
    [LoadedSkipOpenat2 0;
     Called (unix_Openat2 3 "a/b"
               (mkOpenHow (Z.lor unix.O_CREAT unix.O_WRONLY) 420 unix.RESOLVE_IN_ROOT))
       (Err (Errno unix.ENOENT));
     LoadedSkipOpenat2 0;
     Called (unix_Openat2 3 "a"
               (mkOpenHow (Z.lor unix.O_DIRECTORY unix.O_RDONLY) 0 unix.RESOLVE_IN_ROOT))
       (Err (Errno unix.EACCES))]
    = e0 ++ rest /\
    Errorf "open %q under the rootfs: %w" [ArgString "a/b"] (Errno unix.ENOENT)
    = Errorf "open %q under the rootfs: %w" [ArgString "a/b"] e /\
    forall target,
      errors_Is (Errorf "open %q under the rootfs: %w" [ArgString "a/b"] (Errno unix.ENOENT))
        target
      = errors_Is e target.
Proof.
  exact (openFileUnderRoot_reports_first_error replay 3 3 "a/b"
           (Z.lor unix.O_CREAT unix.O_WRONLY) 420
           (mkProcess [Int (Err (Errno unix.ENOENT)); Int (Err (Errno unix.EACCES))] 0)
           _ _ _ _ eq_refl).
Defined.

(** ** Descriptors: what is opened is closed or returned *)

Lemma occurrences_app (x : Z) (l1 l2 : list Z) :
  occurrences x (l1 ++ l2) = occurrences x l1 + occurrences x l2.
Proof. induction l1 as [| y l1 IH]; simpl; [reflexivity | rewrite IH; lia]. Qed.

Lemma occurrences_nonneg (x : Z) (l : list Z) : 0 <= occurrences x l.
Proof. induction l as [| y l IH]; simpl; [lia | destruct (y =? x); lia]. Qed.

Lemma occurrences_In (x : Z) (l : list Z) : 0 < occurrences x l -> In x l.
Proof.
  induction l as [| y l IH]; simpl; [lia |].
  destruct (y =? x) eqn:E; [apply Z.eqb_eq in E; auto |]. intros H. right. apply IH. lia.
Qed.

Lemma tally_app (x : Z) (l1 l2 : list event) : tally x (l1 ++ l2) = tally x l1 + tally x l2.
Proof. unfold tally. rewrite !collect_app, !occurrences_app. lia. Qed.

Lemma tally_nil (x : Z) : tally x [] = 0.
Proof. reflexivity. Qed.

Lemma tally_cons (x : Z) (e : event) (l : list event) : tally x (e :: l) = tally x [e] + tally x l.
Proof. apply (tally_app x [e] l). Qed.

Lemma accounted_Ret {A : Type} (pre : Z -> Z) (held : A -> Z -> Z) (a : A) :
  (forall x, pre x = held a x) -> accounted pre held (Ret a).
Proof.
  intros H K h s evs s' a' Hrun _ x. simpl in Hrun. inversion Hrun; subst.
  rewrite tally_nil. rewrite <- H. lia.
Qed.

Lemma accounted_StackOverflow {A : Type} (pre : Z -> Z) (held : A -> Z -> Z) :
  accounted pre held StackOverflow.
Proof. intros K h s evs s' a Hrun. simpl in Hrun. inversion Hrun. Qed.

Lemma accounted_bind {A B : Type} (pre : Z -> Z) (mid : A -> Z -> Z) (held : B -> Z -> Z)
    (p : prog A) (f : A -> prog B) :
  accounted pre mid p -> (forall a, accounted (mid a) held (f a)) ->
  accounted pre held (bind p f).
Proof.
  intros Hp Hf K h s evs s' b Hrun Hvalid x.
  apply run_bind_inv in Hrun. destruct Hrun as (e1 & s1 & a & e2 & H1 & H2 & ->).
  rewrite collect_app in Hvalid. apply Forall_app in Hvalid. destruct Hvalid as [Hv1 Hv2].
  rewrite tally_app.
  pose proof (Hp K h s e1 s1 a H1 Hv1 x). pose proof (Hf a K h s1 e2 s' b H2 Hv2 x). lia.
Qed.

Lemma accounted_call {X : Type} (pre : Z -> Z) (c : syscall X) :
  accounted pre (fun r x => tally x [Called c r] + pre x) (call c).
Proof.
  intros K h s evs s' a Hrun _ x. rewrite run_call in Hrun. inversion Hrun; subst. reflexivity.
Qed.

Lemma accounted_load (pre : Z -> Z) :
  accounted pre (fun _ x => pre x) atomic_LoadInt32_skipOpenat2.
Proof.
  intros K h s evs s' a Hrun _ x. simpl in Hrun. inversion Hrun; subst. reflexivity.
Qed.

Lemma accounted_store (pre : Z -> Z) (v : Z) :
  accounted pre (fun _ x => pre x) (atomic_StoreInt32_skipOpenat2 v).
Proof.
  intros K h s evs s' a Hrun _ x. simpl in Hrun. inversion Hrun; subst. reflexivity.
Qed.

Lemma accounted_weaken {A : Type} (pre : Z -> Z) (held held' : A -> Z -> Z) (p : prog A) :
  accounted pre held p -> (forall a x, held a x = held' a x) -> accounted pre held' p.
Proof.
  intros Hp Heq K h s evs s' a Hrun Hvalid x. rewrite <- Heq. exact (Hp K h s evs s' a Hrun Hvalid x).
Qed.

(** A program that makes no call that opens or closes. *)
Lemma accounted_keeps {A : Type} (pre : Z -> Z) (p : prog A) :
  always (calls keepsDescriptors) (fun _ => True) p -> accounted pre (fun _ x => pre x) p.
Proof.
  intros Hp K h s evs s' a Hrun _ x.
  pose proof (proj1 (always_run _ _ h p Hp s evs s' _ Hrun)) as Hall. clear Hrun Hp.
  assert (H0 : tally x evs = 0); [| lia].
  induction Hall as [| e evs He _ IH]; [reflexivity |].
  rewrite tally_cons, IH.
  destruct e as [X c r | v | v]; try reflexivity.
  unfold calls in He. simpl in He. destruct c; try discriminate He; reflexivity.
Qed.

Lemma own_os_NewFile (fd : Z) (name : string) (x : Z) :
  own (os_NewFile (to_uintptr fd) name) x = ownNew fd x.
Proof. unfold ownNew, os_NewFile. destruct (to_int (to_uintptr fd) <? 0); reflexivity. Qed.

Lemma ownNew_valid (fd x : Z) : validFd fd -> ownNew fd x = if fd =? x then 1 else 0.
Proof.
  intros [H0 H1]. unfold ownNew, os_NewFile, to_int, to_uintptr.
  assert (E : to_int64 (fd mod 2 ^ 64) = fd).
  { unfold maxInt64 in H1. rewrite Z.mod_small by lia. apply to_int64_in_range.
    unfold maxInt64. lia. }
  rewrite E. destruct (fd <? 0) eqn:En; [apply Z.ltb_lt in En; lia |].
  cbn [own sysfd]. rewrite (proj2 (Z.leb_le 0 fd) H0). reflexivity.
Qed.

Lemma run_bind_assoc {K A B C : Type} (h : kernel K) (p : prog A) (f : A -> prog B)
    (g : B -> prog C) (s : process K) :
  run h (bind (bind p f) g) s = run h (bind p (fun x => bind (f x) g)) s.
Proof.
  rewrite (run_bind h (bind p f) g), (run_bind h p f), (run_bind h p).
  destruct (run h p s) as [[e1 s1] [a |]]; [| reflexivity].
  rewrite (run_bind h (f a) g).
  destruct (run h (f a) s1) as [[e2 s2] [b |]]; [| reflexivity].
  destruct (run h (g b) s2) as [[e3 s3] r]. rewrite app_assoc. reflexivity.
Qed.

Lemma accounted_assoc {A B C : Type} (pre : Z -> Z) (held : C -> Z -> Z) (p : prog A)
    (f : A -> prog B) (g : B -> prog C) :
  accounted pre held (bind p (fun x => bind (f x) g)) ->
  accounted pre held (bind (bind p f) g).
Proof.
  intros H K h s evs s' a Hrun. rewrite run_bind_assoc in Hrun. exact (H K h s evs s' a Hrun).
Qed.

Ltac accounted_arith :=
  unfold tally, collect, opened;
  cbn [fst snd own flat_map app openedOf closeOf occurrences];
  rewrite ?own_os_NewFile;
  repeat match goal with |- context [if ?b then _ else _] => destruct b end;
  try lia.

Ltac accounted_ret := apply accounted_Ret; intro; accounted_arith.

Ltac accounted_step lemmas :=
  match goal with
  | |- context [returned ?r] => is_var r; destruct r; cbn [returned]
  | |- accounted _ _ (bind (call _) _) => eapply accounted_bind; [apply accounted_call |]
  | |- accounted _ _ (bind atomic_LoadInt32_skipOpenat2 _) =>
      eapply accounted_bind; [apply accounted_load |]
  | |- accounted _ _ (bind (atomic_StoreInt32_skipOpenat2 _) _) =>
      eapply accounted_bind; [apply accounted_store |]
  | |- accounted _ _ (bind (Ret _) _) => cbn [bind]
  | |- accounted _ _ (bind (bind _ _) _) => apply accounted_assoc
  | |- accounted _ _ (bind (match ?x with _ => _ end) _) => destruct x
  | |- accounted _ _ (bind _ _) => eapply accounted_bind; [lemmas |]
  | |- accounted _ _ (match ?x with _ => _ end) => destruct x
  | |- accounted _ _ (Ret _) => accounted_ret
  | |- accounted _ _ StackOverflow => apply accounted_StackOverflow
  | |- accounted _ _ (let _ := _ in _) => cbv zeta
  | |- forall _, _ => intro
  | |- accounted _ _ _ =>
      eapply accounted_weaken; [lemmas | intros ? ?; accounted_arith]
  end.

Lemma checkUnderRoot_accounted (pre : Z -> Z) (name targetRoot : string) (fd : Z) :
  accounted pre (fun r x => pre x - (if fd =? x then 1 else 0) + opened r x)
    (checkUnderRoot name targetRoot fd).
Proof. unfold checkUnderRoot. repeat accounted_step fail. Qed.

Lemma openFileUnderRootFallback_accounted (pre : Z -> Z) (dirfd : Z) (name : string)
    (flags mode : Z) :
  accounted pre (fun r x => pre x + opened r x)
    (openFileUnderRootFallback dirfd name flags mode).
Proof.
  unfold openFileUnderRootFallback.
  repeat accounted_step ltac:(apply checkUnderRoot_accounted).
Qed.

Lemma openFileUnderRootRaw_accounted (pre : Z -> Z) (dirfd : Z) (name : string)
    (flags mode : Z) :
  accounted pre (fun r x => pre x + opened r x) (openFileUnderRootRaw dirfd name flags mode).
Proof.
  unfold openFileUnderRootRaw, openFileUnderRootOpenat2.
  repeat accounted_step ltac:(apply openFileUnderRootFallback_accounted).
Qed.

(** The same, for the file that [os.NewFile] makes of the descriptor. *)
Lemma openFileUnderRootRaw_accounted_file (pre : Z -> Z) (dirfd : Z) (name : string)
    (flags mode : Z) :
  accounted pre
    (fun r x => pre x + match snd r with None => ownNew (fst r) x | Some _ => 0 end)
    (openFileUnderRootRaw dirfd name flags mode).
Proof.
  intros K h s evs s' [fd err] Hrun Hvalid x.
  pose proof (openFileUnderRootRaw_accounted pre dirfd name flags mode K h s evs s' _
                Hrun Hvalid x) as Hx.
  rewrite Hx. unfold opened. cbn [fst snd]. destruct err as [e |]; [reflexivity |].
  pose proof (openFileUnderRootRaw_accounted (fun _ => 0) dirfd name flags mode K h s evs s' _
                Hrun Hvalid fd) as Hfd.
  unfold opened in Hfd. cbn [fst snd] in Hfd. rewrite Z.eqb_refl in Hfd.
  assert (Hin : In fd (collect openedOf evs)).
  { apply occurrences_In. unfold tally in Hfd.
    pose proof (occurrences_nonneg fd (collect closeOf evs)). lia. }
  rewrite Forall_forall in Hvalid. rewrite (ownNew_valid fd x (Hvalid fd Hin)). reflexivity.
Qed.

Lemma File_Close_accounted (pre : Z -> Z) (f : option osFile) :
  accounted pre (fun _ x => pre x - own f x) (File_Close f).
Proof.
  unfold File_Close. destruct f as [f |]; [| accounted_ret].
  destruct (sysfd f <? 0) eqn:E.
  - apply accounted_Ret. intro x. cbn [own]. apply Z.ltb_lt in E.
    destruct (0 <=? sysfd f) eqn:E'; [apply Z.leb_le in E'; lia |]. cbn. lia.
  - eapply accounted_weaken; [apply accounted_call |]. intros a x. apply Z.ltb_ge in E.
    unfold tally, collect. cbn [own flat_map app openedOf closeOf occurrences].
    rewrite (proj2 (Z.leb_le 0 (sysfd f)) E). cbn [andb].
    destruct (sysfd f =? x); lia.
Qed.

Ltac accounted_opening IH :=
  first [ apply openFileUnderRootRaw_accounted_file
        | apply File_Close_accounted
        | IH ].

Lemma openOrCreateDirUnderRoot_accounted (depth : nat) :
  forall (pre : Z -> Z) (dirfd : Z) (name : string) (mode : Z),
    accounted pre (fun r x => pre x + match snd r with None => own (fst r) x | Some _ => 0 end)
      (openOrCreateDirUnderRoot depth dirfd name mode).
Proof.
  induction depth as [| depth IH]; intros pre dirfd name mode; cbn [openOrCreateDirUnderRoot].
  - apply accounted_StackOverflow.
  - repeat accounted_step ltac:(accounted_opening ltac:(apply IH)).
Qed.

Lemma openFileUnderRoot_accounted (pre : Z -> Z) (depth : nat) (dirfd : Z) (name : string)
    (flags mode : Z) :
  accounted pre (fun r x => pre x + match snd r with None => own (fst r) x | Some _ => 0 end)
    (openFileUnderRoot depth dirfd name flags mode).
Proof.
  unfold openFileUnderRoot.
  repeat accounted_step
    ltac:(accounted_opening ltac:(apply openOrCreateDirUnderRoot_accounted)).
Qed.

Lemma openOrCreateDirUnderRoot_fileOrError (depth : nat) (dirfd : Z) (name : string)
    (mode : Z) :
  always (fun _ _ => True) fileOrError (openOrCreateDirUnderRoot depth dirfd name mode).
Proof.
  revert dirfd name mode. induction depth as [| depth IH]; intros dirfd name mode;
    cbn [openOrCreateDirUnderRoot]; [constructor |].
  always_auto; try apply always_any; try reflexivity; try exact I.
Qed.

Lemma openFileUnderRoot_fileOrError (depth : nat) (dirfd : Z) (name : string)
    (flags mode : Z) :
  always (fun _ _ => True) fileOrError (openFileUnderRoot depth dirfd name flags mode).
Proof.
  unfold openFileUnderRoot. always_auto; try apply always_any; try reflexivity; try exact I.
Qed.

Lemma doHardLink_keeps (srcFd destDirFd : Z) (destBase : string) :
  always (calls keepsDescriptors) (fun _ => True) (doHardLink srcFd destDirFd destBase).
Proof. unfold doHardLink. always_auto. Qed.

Lemma setXattrs_keeps (xattrsToIgnore : string -> bool) (decode : string -> result (list Z))
    (fd : Z) (name : string) (xattrs : list (string * string)) :
  always (calls keepsDescriptors) (fun _ => True)
    (setXattrs xattrsToIgnore decode fd name xattrs).
Proof.
  induction xattrs as [| [k v] rest IH]; cbn [setXattrs]; [constructor; exact I |].
  unfold unlessIgnorable. always_auto; try exact IH.
Qed.

Lemma applyAttrs_keeps (xattrsToIgnore : string -> bool) (decode : string -> result (list Z))
    (fd dirfd : Z) (baseName : string) (usePath : bool) (mode : Z) (metadata : fileMetadata)
    (options : TarOptions) :
  always (calls keepsDescriptors) (fun _ => True)
    (applyAttrs xattrsToIgnore decode fd dirfd baseName usePath mode metadata options).
Proof.
  unfold applyAttrs, unlessIgnorable. always_auto; try apply setXattrs_keeps.
Qed.

Section Accounting.

Variable newFileFlags : Z.
Variable typeToTarType : string -> Z * option error.
Variable xattrsToIgnore : string -> bool.
Variable decode : string -> result (list Z).

Ltac accounted_file :=
  first [ apply openFileUnderRoot_accounted
        | apply openOrCreateDirUnderRoot_accounted
        | apply File_Close_accounted
        | apply accounted_keeps; first [ apply doHardLink_keeps | apply applyAttrs_keeps ] ].

Lemma copyToFreshFile_accounted (pre closed : Z -> Z) (depth : nat) (src : string)
    (st : FileInfo) (fileMeta : fileMetadata) (dirfd mode : Z) (closing : prog unit) :
  (forall pre', accounted pre' (fun _ x => pre' x - closed x) closing) ->
  accounted pre (fun r x => pre x - closed x + own (fst (fst (snd r))) x)
    (copyToFreshFile newFileFlags depth src st fileMeta dirfd mode closing).
Proof.
  intros Hclosing. unfold copyToFreshFile.
  repeat accounted_step ltac:(first [ apply Hclosing | accounted_file ]).
Qed.

Lemma copyFileContent_accounted (pre : Z -> Z) (depth : nat) (srcFd : Z)
    (fileMeta : fileMetadata) (dirfd mode : Z) (useHardLinks : bool) :
  accounted pre (fun r x => pre x + own (fst (fst (snd r))) x)
    (copyFileContent newFileFlags depth srcFd fileMeta dirfd mode useHardLinks).
Proof.
  unfold copyFileContent.
  repeat accounted_step
    ltac:(first [ accounted_file
                | match goal with
                  | |- accounted _ _ (copyToFreshFile _ _ _ _ _ _ _ (Ret tt)) =>
                      apply copyToFreshFile_accounted with (closed := fun _ => 0);
                      intros; accounted_ret
                  | |- accounted _ _ (copyToFreshFile _ _ _ _ _ _ _ (bind (File_Close ?f) _)) =>
                      apply copyToFreshFile_accounted with (closed := own f);
                      intros; repeat accounted_step ltac:(accounted_file)
                  end ]).
Qed.

Lemma setFileAttrs_accounted (pre : Z -> Z) (depth : nat) (dirfd : Z) (file : option osFile)
    (mode : Z) (metadata : fileMetadata) (options : TarOptions) (usePath : bool) :
  accounted pre (fun _ x => pre x)
    (setFileAttrs typeToTarType xattrsToIgnore decode depth dirfd file mode metadata options
       usePath).
Proof.
  unfold setFileAttrs. repeat accounted_step ltac:(accounted_file).
Qed.

Lemma safeMkdir_accounted (pre : Z -> Z) (depth : nat) (dirfd mode : Z) (name : string)
    (metadata : fileMetadata) (options : TarOptions) :
  accounted pre (fun _ x => pre x)
    (safeMkdir typeToTarType xattrsToIgnore decode depth dirfd mode name metadata options).
Proof.
  unfold safeMkdir.
  repeat accounted_step ltac:(first [ accounted_file | apply setFileAttrs_accounted ]).
Qed.

Lemma linkAndSetAttrs_accounted (pre closed : Z -> Z) (depth : nat) (dirfd mode : Z)
    (metadata : fileMetadata) (options : TarOptions) (sourceFile : option osFile)
    (destDirFd : Z) (destBase : string) (closing : prog unit) :
  (forall pre', accounted pre' (fun _ x => pre' x - closed x) closing) ->
  accounted pre (fun _ x => pre x - closed x - own sourceFile x)
    (linkAndSetAttrs typeToTarType xattrsToIgnore decode depth dirfd mode metadata options
       sourceFile destDirFd destBase closing).
Proof.
  intros Hclosing. unfold linkAndSetAttrs.
  repeat accounted_step
    ltac:(first [ apply Hclosing | accounted_file | apply setFileAttrs_accounted ]).
Qed.

Lemma safeLink_accounted (pre : Z -> Z) (depth : nat) (dirfd mode : Z)
    (metadata : fileMetadata) (options : TarOptions) :
  accounted pre (fun _ x => pre x)
    (safeLink typeToTarType xattrsToIgnore decode depth dirfd mode metadata options).
Proof.
  unfold safeLink.
  repeat accounted_step
    ltac:(first [ accounted_file
                | match goal with
                  | |- accounted _ _ (linkAndSetAttrs _ _ _ _ _ _ _ _ _ _ _ (Ret tt)) =>
                      apply linkAndSetAttrs_accounted with (closed := fun _ => 0);
                      intros; accounted_ret
                  | |- accounted _ _
                         (linkAndSetAttrs _ _ _ _ _ _ _ _ _ _ _ (bind (File_Close ?f) _)) =>
                      apply linkAndSetAttrs_accounted with (closed := own f);
                      intros; repeat accounted_step ltac:(accounted_file)
                  end ]).
Qed.

End Accounting.


(** X5: the fallback leaves no descriptor behind.  On every kernel and for
    every answer, each descriptor it has opened (the parent directory, the
    file) is closed before it returns, but for the one it returns without
    error. *)
Theorem openFileUnderRootFallback_descriptors {K : Type} (h : kernel K) (dirfd : Z)
    (name : string) (flags mode : Z) (s : process K) evs s' r :
  run h (openFileUnderRootFallback dirfd name flags mode) s = (evs, s', r) ->
  exists fd err,
    r = Some (fd, err) /\
    forall x, tally x evs = match err with
                            | None => if fd =? x then 1 else 0
                            | Some _ => 0
                            end.
Proof.
  intros Hrun. unfold openFileUnderRootFallback, checkUnderRoot in Hrun.
  run_cases Hrun h; inversion Hrun; subst; clear Hrun;
    eexists; eexists; (split; [reflexivity |]); intro x;
    unfold tally, collect; cbn [flat_map app openedOf closeOf occurrences];
    repeat match goal with |- context [if ?b then _ else _] => destruct b end; lia.
Qed.

Lemma openFileUnderRootFallback_descriptors_witness :
  exists fd err,
    Some (5, @None error) = Some (fd, err) /\
    forall x,
      tally x
        [Called (os_Readlink "/proc/self/fd/3") (Ok "/root");
         Called (securejoin_SecureJoin "/proc/self/fd/3" "a/") (Ok "/root/a");
         Called (unix_Open "/root/a" (Z.lor unix.O_PATH unix.O_CLOEXEC) 0) (Ok 4);
         Called (unix_Openat 4 "b" (to_int unix.O_NOFOLLOW) (to_uint32 0)) (Ok 5);
         Called (os_Readlink "/proc/self/fd/5") (Ok "/root/a/b");
         Called (unix_Close 4) None]
      = match err with
        | None => if fd =? x then 1 else 0
        | Some _ => 0
        end.
Proof.
  exact (openFileUnderRootFallback_descriptors replay 3 "a/b" unix.O_NOFOLLOW 0
           (mkProcess [Str (Ok "/root"); Str (Ok "/root/a"); Int (Ok 4); Int (Ok 5);
                       Str (Ok "/root/a/b"); Status None] 1)
           _ _ _ eq_refl).
Defined.

(** A raw open that returns without error returns a descriptor that the run
    has opened. *)
Lemma openFileUnderRootRaw_valid {K : Type} (h : kernel K) (dirfd : Z) (name : string)
    (flags mode : Z) (s : process K) evs s' fd :
  run h (openFileUnderRootRaw dirfd name flags mode) s = (evs, s', Some (fd, None)) ->
  Forall validFd (collect openedOf evs) -> validFd fd.
Proof.
  intros Hrun Hvalid.
  pose proof (openFileUnderRootRaw_accounted (fun _ => 0) dirfd name flags mode K h s evs s' _
                Hrun Hvalid fd) as Hfd.
  unfold opened in Hfd. cbn [fst snd] in Hfd. rewrite Z.eqb_refl in Hfd.
  rewrite Forall_forall in Hvalid. apply Hvalid. apply occurrences_In.
  unfold tally in Hfd. pose proof (occurrences_nonneg fd (collect closeOf evs)). lia.
Qed.

Lemma os_NewFile_valid (fd : Z) (name : string) :
  validFd fd -> os_NewFile (to_uintptr fd) name = Some (mkFile fd name).
Proof.
  intros [H0 H1]. unfold os_NewFile, to_int, to_uintptr.
  assert (E : to_int64 (fd mod 2 ^ 64) = fd).
  { unfold maxInt64 in H1. rewrite Z.mod_small by lia. apply to_int64_in_range.
    unfold maxInt64. lia. }
  rewrite E. destruct (fd <? 0) eqn:En; [apply Z.ltb_lt in En; lia | reflexivity].
Qed.

(** Taking apart a run that returns, bind by bind. *)
Ltac run_inv H :=
  repeat
    match type of H with
    | run _ (bind _ _) _ = (_, _, Some _) =>
        let e1 := fresh "e" in
        let s1 := fresh "s" in
        let a := fresh "a" in
        let e2 := fresh "e" in
        let H1 := fresh "Hrun" in
        apply run_bind_inv in H; destruct H as (e1 & s1 & a & e2 & H1 & H & ->)
    | run _ (match ?x with _ => _ end) _ = _ => destruct x eqn:?
    | run _ (Ret _) _ = _ => cbn [run] in H; inversion H; subst; clear H
    | run _ StackOverflow _ = _ => cbn [run] in H; discriminate H
    end.

Ltac run_inv_all :=
  repeat
    match goal with
    | H : run _ (bind _ _) _ = (_, _, Some _) |- _ =>
        let e1 := fresh "e" in
        let s1 := fresh "s" in
        let a := fresh "a" in
        let e2 := fresh "e" in
        let H1 := fresh "Hrun" in
        apply run_bind_inv in H; destruct H as (e1 & s1 & a & e2 & H1 & H & ->)
    | H : run _ (match ?x with _ => _ end) _ = _ |- _ => destruct x eqn:?
    | H : run _ (Ret _) _ = _ |- _ => cbn [run] in H; inversion H; subst; clear H
    | H : run _ StackOverflow _ = _ |- _ => cbn [run] in H; discriminate H
    | H : run _ (call _) _ = _ |- _ => rewrite run_call in H; inversion H; subst; clear H
    end.

Ltac split_valid H :=
  repeat rewrite collect_app in H; repeat rewrite Forall_app in H;
  repeat match goal with
         | H' : _ /\ _ |- _ => destruct H' as [? ?]
         end.

Lemma openOrCreateDirUnderRoot_file {K : Type} (h : kernel K) (depth : nat) (dirfd : Z)
    (name : string) (mode : Z) (s : process K) evs s' f :
  run h (openOrCreateDirUnderRoot depth dirfd name mode) s = (evs, s', Some (f, None)) ->
  Forall validFd (collect openedOf evs) ->
  exists fd, validFd fd /\ f = Some (mkFile fd name).
Proof.
  intros Hrun Hvalid. destruct depth as [| depth]; [discriminate Hrun |].
  cbn [openOrCreateDirUnderRoot] in Hrun. run_inv Hrun; split_valid Hvalid.
  all: match goal with
       | Hraw : run _ (openFileUnderRootRaw _ _ _ _) _ = (_, _, Some (?fd, None)) |- _ =>
           exists fd; split;
           [ eapply openFileUnderRootRaw_valid; eassumption
           | apply os_NewFile_valid; eapply openFileUnderRootRaw_valid; eassumption ]
       end.
Qed.

Lemma openFileUnderRoot_file {K : Type} (h : kernel K) (depth : nat) (dirfd : Z)
    (name : string) (flags mode : Z) (s : process K) evs s' f :
  run h (openFileUnderRoot depth dirfd name flags mode) s = (evs, s', Some (f, None)) ->
  Forall validFd (collect openedOf evs) ->
  exists fd, validFd fd /\ f = Some (mkFile fd name).
Proof.
  intros Hrun Hvalid. unfold openFileUnderRoot in Hrun. run_inv Hrun; split_valid Hvalid.
  all: match goal with
       | Hraw : run _ (openFileUnderRootRaw _ _ _ _) _ = (_, _, Some (?fd, None)) |- _ =>
           exists fd; split;
           [ eapply openFileUnderRootRaw_valid; eassumption
           | apply os_NewFile_valid; eapply openFileUnderRootRaw_valid; eassumption ]
       end.
Qed.

(** X6: [openOrCreateDirUnderRoot] returns a directory or an error, never
    both and never neither, and leaves nothing else open.  On a kernel that
    hands out valid descriptors, a return without error gives a file of the
    name asked for that holds the one descriptor still open; a return with
    an error gives nil, and every descriptor opened on the way (the
    ancestors that were opened or created) has been closed. *)
Theorem openOrCreateDirUnderRoot_descriptors {K : Type} (h : kernel K) (depth : nat)
    (dirfd : Z) (name : string) (mode : Z) (s : process K) evs s' f err :
  run h (openOrCreateDirUnderRoot depth dirfd name mode) s = (evs, s', Some (f, err)) ->
  Forall validFd (collect openedOf evs) ->
  match err with
  | None =>
      exists fd, f = Some (mkFile fd name) /\ 0 <= fd /\
                 forall x, tally x evs = if fd =? x then 1 else 0
  | Some _ => f = None /\ forall x, tally x evs = 0
  end.
Proof.
  intros Hrun Hvalid.
  pose proof (openOrCreateDirUnderRoot_accounted depth (fun _ => 0) dirfd name mode K h s evs s'
                _ Hrun Hvalid) as Hacc.
  cbn [fst snd] in Hacc. destruct err as [e |].
  - split; [| intro x; pose proof (Hacc x) as Hx; cbn beta in Hx; lia].
    exact (proj2 (always_run _ _ h _ (openOrCreateDirUnderRoot_fileOrError depth dirfd name mode)
                    _ _ _ _ Hrun) _ eq_refl).
  - destruct (openOrCreateDirUnderRoot_file h depth dirfd name mode s evs s' f Hrun Hvalid)
      as (fd & [H0 H1] & ->).
    exists fd. split; [reflexivity |]. split; [exact H0 |]. intro x.
    pose proof (Hacc x) as Hx. cbn [own sysfd] in Hx.
    rewrite (proj2 (Z.leb_le 0 fd) H0) in Hx. cbn [andb] in Hx. lia.
Qed.

Lemma openOrCreateDirUnderRoot_descriptors_witness :
  exists fd, Some (mkFile 5 "a/b") = Some (mkFile fd "a/b") /\ 0 <= fd /\
             forall x,
               tally x
                 [LoadedSkipOpenat2 0;
                  Called (unix_Openat2 3 "a/b"
                            (mkOpenHow (Z.lor unix.O_DIRECTORY unix.O_RDONLY) 0
                               unix.RESOLVE_IN_ROOT))
                    (Err (Errno unix.ENOENT));
                  LoadedSkipOpenat2 0;
                  Called (unix_Openat2 3 "a"
                            (mkOpenHow (Z.lor unix.O_DIRECTORY unix.O_RDONLY) 0
                               unix.RESOLVE_IN_ROOT))
                    (Ok 4);
                  Called (unix_Mkdirat 4 "b" 0) None;
                  LoadedSkipOpenat2 0;
                  Called (unix_Openat2 4 "b"
                            (mkOpenHow (Z.lor unix.O_DIRECTORY unix.O_RDONLY) 0
                               unix.RESOLVE_IN_ROOT))
                    (Ok 5);
                  Called (unix_Close 4) None]
               = if fd =? x then 1 else 0.
Proof.
  refine (openOrCreateDirUnderRoot_descriptors replay 3 3 "a/b" 0
            (mkProcess [Int (Err (Errno unix.ENOENT)); Int (Ok 4); Status None; Int (Ok 5);
                        Status None] 0)
            _ _ _ None eq_refl _).
  repeat constructor; unfold validFd, maxInt64; lia.
Defined.

(** X7: [openFileUnderRoot] returns a file or an error, never both and
    never neither, and leaves nothing else open.  On a kernel that hands out
    valid descriptors, a return without error gives a file of the name asked
    for that holds the one descriptor still open; a return with an error
    gives nil, and the parent directory that was opened to create the file
    in has been closed, as has every ancestor. *)
Theorem openFileUnderRoot_descriptors {K : Type} (h : kernel K) (depth : nat) (dirfd : Z)
    (name : string) (flags mode : Z) (s : process K) evs s' f err :
  run h (openFileUnderRoot depth dirfd name flags mode) s = (evs, s', Some (f, err)) ->
  Forall validFd (collect openedOf evs) ->
  match err with
  | None =>
      exists fd, f = Some (mkFile fd name) /\ 0 <= fd /\
                 forall x, tally x evs = if fd =? x then 1 else 0
  | Some _ => f = None /\ forall x, tally x evs = 0
  end.
Proof.
  intros Hrun Hvalid.
  pose proof (openFileUnderRoot_accounted (fun _ => 0) depth dirfd name flags mode K h s evs s'
                _ Hrun Hvalid) as Hacc.
  cbn [fst snd] in Hacc. destruct err as [e |].
  - split; [| intro x; pose proof (Hacc x) as Hx; cbn beta in Hx; lia].
    exact (proj2 (always_run _ _ h _ (openFileUnderRoot_fileOrError depth dirfd name flags mode)
                    _ _ _ _ Hrun) _ eq_refl).
  - destruct (openFileUnderRoot_file h depth dirfd name flags mode s evs s' f Hrun Hvalid)
      as (fd & [H0 H1] & ->).
    exists fd. split; [reflexivity |]. split; [exact H0 |]. intro x.
    pose proof (Hacc x) as Hx. cbn [own sysfd] in Hx.
    rewrite (proj2 (Z.leb_le 0 fd) H0) in Hx. cbn [andb] in Hx. lia.
Qed.

Lemma openFileUnderRoot_descriptors_witness :
  @None osFile = None /\
  forall x,
    tally x
      [LoadedSkipOpenat2 0;
       Called (unix_Openat2 3 "a/b"
                 (mkOpenHow (Z.lor unix.O_CREAT unix.O_WRONLY) 420 unix.RESOLVE_IN_ROOT))
         (Err (Errno unix.ENOENT));
       LoadedSkipOpenat2 0;
       Called (unix_Openat2 3 "a"
                 (mkOpenHow (Z.lor unix.O_DIRECTORY unix.O_RDONLY) 0 unix.RESOLVE_IN_ROOT))
         (Ok 4);
       LoadedSkipOpenat2 0;
       Called (unix_Openat2 4 "b"
                 (mkOpenHow (Z.lor unix.O_CREAT unix.O_WRONLY) 420 unix.RESOLVE_IN_ROOT))
         (Err (Errno unix.EACCES));
       Called (unix_Close 4) None]
    = 0.
Proof.
  refine (openFileUnderRoot_descriptors replay 3 3 "a/b" (Z.lor unix.O_CREAT unix.O_WRONLY) 420
            (mkProcess [Int (Err (Errno unix.ENOENT)); Int (Ok 4); Int (Err (Errno unix.EACCES));
                        Status None] 0)
            _ _ _ (Some _) eq_refl _).
  repeat constructor; unfold validFd, maxInt64; lia.
Defined.

Ltac valid_trace :=
  match goal with
  | |- Forall validFd ?l =>
      let l' := eval vm_compute in l in
      change (Forall validFd l'); repeat constructor; unfold validFd, maxInt64; lia
  end.

Lemma copyFileContent_error_shape (newFileFlags : Z) (depth : nat) (srcFd : Z)
    (fileMeta : fileMetadata) (dirfd mode : Z) (useHardLinks : bool) :
  always (fun _ _ => True)
    (fun r : fileMetadata * (option osFile * Z * option error) =>
       match r with
       | (_, (f, n, Some _)) => f = None /\ n = -1
       | _ => True
       end)
    (copyFileContent newFileFlags depth srcFd fileMeta dirfd mode useHardLinks).
Proof.
  unfold copyFileContent, copyToFreshFile.
  always_auto; try apply always_any; try (split; reflexivity); try exact I.
Qed.

(** X8: [copyFileContent] leaves open the destination file it returns and
    nothing else.  On a kernel that hands out valid descriptors, whether the
    file was deduplicated, copied, or neither, the destination's directory
    opened for the hard link is closed, and so is a destination whose copy
    failed; with an error the file returned is nil and the size is [-1]. *)
Theorem copyFileContent_descriptors {K : Type} (h : kernel K) (newFileFlags : Z) (depth : nat)
    (srcFd : Z) (fileMeta : fileMetadata) (dirfd mode : Z) (useHardLinks : bool)
    (s : process K) evs s' md' f n err :
  run h (copyFileContent newFileFlags depth srcFd fileMeta dirfd mode useHardLinks) s
  = (evs, s', Some (md', (f, n, err))) ->
  Forall validFd (collect openedOf evs) ->
  (forall x, tally x evs = own f x) /\
  (err <> None -> f = None /\ n = -1).
Proof.
  intros Hrun Hvalid. split.
  - intro x.
    pose proof (copyFileContent_accounted newFileFlags (fun _ => 0) depth srcFd fileMeta dirfd
                  mode useHardLinks K h s evs s' _ Hrun Hvalid x) as Hx.
    cbn [fst snd] in Hx. lia.
  - intros Herr.
    pose proof (proj2 (always_run _ _ h _
                         (copyFileContent_error_shape newFileFlags depth srcFd fileMeta dirfd
                            mode useHardLinks) _ _ _ _ Hrun) _ eq_refl) as Hshape.
    cbn in Hshape. destruct err as [e |]; [exact Hshape | congruence].
Qed.

Lemma copyFileContent_descriptors_witness :
  let evs :=
    fst (fst (run replay
                (copyFileContent freshFileFlags 3 7 (regularEntry "a/b" [] false) 3 420 true)
                (mkProcess [Stat (Ok (mkFileInfo 10 0)); Int (Ok 4);
                            Status (Some (Errno unix.EXDEV)); Int (Ok 5); Status None;
                            Status None] 0))) in
  (forall x, tally x evs = own (Some (mkFile 5 "a/b")) x) /\
  (@None error <> None -> Some (mkFile 5 "a/b") = None /\ 10 = -1).
Proof.
  refine (copyFileContent_descriptors replay freshFileFlags 3 7 (regularEntry "a/b" [] false)
            3 420 true
            (mkProcess [Stat (Ok (mkFileInfo 10 0)); Int (Ok 4);
                        Status (Some (Errno unix.EXDEV)); Int (Ok 5); Status None;
                        Status None] 0)
            _ _ _ _ _ _ eq_refl _).
  valid_trace.
Defined.

(** X9: [setFileAttrs] leaves the descriptors as it found them: on a kernel
    that hands out valid descriptors, the parent directory it opens to set
    attributes by path is closed on every return, with or without an error,
    and the file it was given is not closed. *)
Theorem setFileAttrs_descriptors {K : Type} (h : kernel K)
    (typeToTarType : string -> Z * option error) (xattrsToIgnore : string -> bool)
    (decode : string -> result (list Z)) (depth : nat) (dirfd : Z) (file : option osFile)
    (mode : Z) (metadata : fileMetadata) (options : TarOptions) (usePath : bool)
    (s : process K) evs s' r :
  run h (setFileAttrs typeToTarType xattrsToIgnore decode depth dirfd file mode metadata options
           usePath) s
  = (evs, s', Some r) ->
  Forall validFd (collect openedOf evs) ->
  forall x, tally x evs = 0.
Proof.
  intros Hrun Hvalid x.
  pose proof (setFileAttrs_accounted typeToTarType xattrsToIgnore decode (fun _ => 0) depth
                dirfd file mode metadata options usePath K h s evs s' _ Hrun Hvalid x) as Hx.
  cbn beta in Hx. lia.
Qed.

Lemma setFileAttrs_descriptors_witness :
  let evs :=
    fst (fst (run replay
                (setFileAttrs typesToTar ignoredXattrs base64Decode 3 3 (Some (mkFile 6 "a/l"))
                   511 (plainEntry "symlink" "a/l" "t") strictOptions false)
                (mkProcess [Int (Ok 4); Status None; Status (Some (Errno unix.EPERM))] 0))) in
  tally 4 evs = 0 /\ tally 6 evs = 0.
Proof.
  split;
    (refine (setFileAttrs_descriptors replay typesToTar ignoredXattrs base64Decode 3 3
               (Some (mkFile 6 "a/l")) 511 (plainEntry "symlink" "a/l" "t") strictOptions false
               (mkProcess [Int (Ok 4); Status None; Status (Some (Errno unix.EPERM))] 0)
               _ _ _ eq_refl _ _);
     valid_trace).
Defined.

(** X10: [safeMkdir] leaves no descriptor behind: on a kernel that hands
    out valid descriptors, the parent directory and the new directory it
    opens are closed on every return, with or without an error. *)
Theorem safeMkdir_descriptors {K : Type} (h : kernel K)
    (typeToTarType : string -> Z * option error) (xattrsToIgnore : string -> bool)
    (decode : string -> result (list Z)) (depth : nat) (dirfd mode : Z) (name : string)
    (metadata : fileMetadata) (options : TarOptions) (s : process K) evs s' r :
  run h (safeMkdir typeToTarType xattrsToIgnore decode depth dirfd mode name metadata options) s
  = (evs, s', Some r) ->
  Forall validFd (collect openedOf evs) ->
  forall x, tally x evs = 0.
Proof.
  intros Hrun Hvalid x.
  pose proof (safeMkdir_accounted typeToTarType xattrsToIgnore decode (fun _ => 0) depth
                dirfd mode name metadata options K h s evs s' _ Hrun Hvalid x) as Hx.
  cbn beta in Hx. lia.
Qed.

Lemma safeMkdir_descriptors_witness :
  let evs :=
    fst (fst (run replay
                (safeMkdir typesToTar ignoredXattrs base64Decode 3 3 493 "a/b"
                   (plainEntry "dir" "a/b" "") strictOptions)
                (mkProcess [Int (Ok 4); Status None; Int (Ok 5);
                            Status (Some (Errno unix.EPERM)); Status None; Status None] 0))) in
  tally 4 evs = 0 /\ tally 5 evs = 0.
Proof.
  split;
    (refine (safeMkdir_descriptors replay typesToTar ignoredXattrs base64Decode 3 3 493 "a/b"
               (plainEntry "dir" "a/b" "") strictOptions
               (mkProcess [Int (Ok 4); Status None; Int (Ok 5);
                           Status (Some (Errno unix.EPERM)); Status None; Status None] 0)
               _ _ _ eq_refl _ _);
     valid_trace).
Defined.

(** X11: [safeLink] leaves no descriptor behind: on a kernel that hands out
    valid descriptors, the link's source, the destination's directory and
    the new name it opens are closed on every return, with or without an
    error. *)
Theorem safeLink_descriptors {K : Type} (h : kernel K)
    (typeToTarType : string -> Z * option error) (xattrsToIgnore : string -> bool)
    (decode : string -> result (list Z)) (depth : nat) (dirfd mode : Z)
    (metadata : fileMetadata) (options : TarOptions) (s : process K) evs s' r :
  run h (safeLink typeToTarType xattrsToIgnore decode depth dirfd mode metadata options) s
  = (evs, s', Some r) ->
  Forall validFd (collect openedOf evs) ->
  forall x, tally x evs = 0.
Proof.
  intros Hrun Hvalid x.
  pose proof (safeLink_accounted typeToTarType xattrsToIgnore decode (fun _ => 0) depth
                dirfd mode metadata options K h s evs s' _ Hrun Hvalid x) as Hx.
  cbn beta in Hx. lia.
Qed.

Lemma safeLink_descriptors_witness :
  let evs :=
    fst (fst (run replay
                (safeLink typesToTar ignoredXattrs base64Decode 3 3 420
                   (plainEntry "hardlink" "d/new" "old") strictOptions)
                (mkProcess [Int (Ok 4); Int (Ok 5); Status None; Int (Ok 6); Status None;
                            Status None; Status None; Status None; Status None;
                            Status None] 0))) in
  tally 4 evs = 0 /\ tally 5 evs = 0 /\ tally 6 evs = 0.
Proof.
  split; [| split];
    (refine (safeLink_descriptors replay typesToTar ignoredXattrs base64Decode 3 3 420
               (plainEntry "hardlink" "d/new" "old") strictOptions
               (mkProcess [Int (Ok 4); Int (Ok 5); Status None; Int (Ok 6); Status None;
                           Status None; Status None; Status None; Status None;
                           Status None] 0)
               _ _ _ eq_refl _ _);
     valid_trace).
Defined.

(** ** Runs over the larger set of calls *)

Lemma xrun_bind {K A B : Type} (h : xkernel K) (p : xprog A) (f : A -> xprog B)
    (s : process K) :
  xrun h (xbind p f) s =
  match xrun h p s with
  | (evs, s1, Some a) =>
      let '(evs', s2, r) := xrun h (f a) s1 in (evs ++ evs', s2, r)
  | (evs, s1, None) => (evs, s1, None)
  end.
Proof.
  revert s. induction p as [a | X c k IH | k IH | v k IH | ]; intros s; simpl.
  - destruct (xrun h (f a) s) as [[evs s2] r]. reflexivity.
  - destruct (h X c (kern s)) as [x kn]. rewrite IH.
    destruct (xrun h (k x) _) as [[evs s1] [a |]]; [| reflexivity].
    destruct (xrun h (f a) s1) as [[evs' s2] r]. reflexivity.
  - rewrite IH. destruct (xrun h (k (skipOpenat2 s)) s) as [[evs s1] [a |]]; [| reflexivity].
    destruct (xrun h (f a) s1) as [[evs' s2] r]. reflexivity.
  - rewrite IH. destruct (xrun h k _) as [[evs s1] [a |]]; [| reflexivity].
    destruct (xrun h (f a) s1) as [[evs' s2] r]. reflexivity.
  - reflexivity.
Qed.

(** A program over the smaller set of calls runs as it does on the kernel's
    answers to those calls. *)
Lemma xrun_lift {K A : Type} (h : xkernel K) (p : prog A) (s : process K) :
  xrun h (lift p) s =
  let '(evs, s', r) := run (restrict h) p s in (map liftEvent evs, s', r).
Proof.
  revert s. induction p as [a | X c k IH | k IH | v k IH | ]; intros s; simpl.
  - reflexivity.
  - unfold restrict at 1. destruct (h X (base c) (kern s)) as [x kn]. rewrite IH.
    destruct (run (restrict h) (k x) _) as [[evs s1] r]. reflexivity.
  - rewrite IH. destruct (run (restrict h) (k (skipOpenat2 s)) s) as [[evs s1] r]. reflexivity.
  - rewrite IH. destruct (run (restrict h) k _) as [[evs s1] r]. reflexivity.
  - reflexivity.
Qed.


Lemma xrun_lift_inv {K A : Type} (h : xkernel K) (p : prog A) (s : process K) evs s' r :
  xrun h (lift p) s = (evs, s', r) ->
  exists e, run (restrict h) p s = (e, s', r) /\ evs = map liftEvent e.
Proof.
  rewrite xrun_lift. destruct (run (restrict h) p s) as [[e s1] r1]. intros H.
  inversion H; subst. exists e. split; reflexivity.
Qed.

Lemma xrun_xcall {K X : Type} (h : xkernel K) (c : xsyscall X) (s : process K) :
  xrun h (xcall c) s =
  ([XCalled c (fst (h X c (kern s)))],
   mkProcess (snd (h X c (kern s))) (skipOpenat2 s),
   Some (fst (h X c (kern s)))).
Proof. unfold xcall. simpl. destruct (h X c (kern s)). reflexivity. Qed.

Lemma baseEvents_app (l1 l2 : list xevent) :
  baseEvents (l1 ++ l2) = baseEvents l1 ++ baseEvents l2.
Proof. unfold baseEvents. apply flat_map_app. Qed.

Lemma baseEvents_lift (evs : list event) : baseEvents (map liftEvent evs) = evs.
Proof.
  induction evs as [| e evs IH]; [reflexivity |].
  cbn [map]. change (baseEvents (liftEvent e :: map liftEvent evs))
    with (baseOf (liftEvent e) ++ baseEvents (map liftEvent evs)).
  rewrite IH. destruct e; reflexivity.
Qed.


(** ** Ownership of whiteouts *)

(** X12: [checkChownErr] never hides an error and never makes one: nil
    stays nil, an error stays an error with the same errno for [errors.Is],
    unchanged unless it is [EINVAL], in which case it is wrapped in the
    message about the user namespace with the identifiers and the name asked
    for. *)
Theorem checkChownErr_keeps_error (err : option error) (name : string) (uid gid : Z) :
  (checkChownErr err name uid gid = None <-> err = None) /\
  forall e, err = Some e ->
    exists e',
      checkChownErr err name uid gid = Some e' /\
      (forall target, errors_Is e' target = errors_Is e target) /\
      (errors_Is e unix.EINVAL = false -> e' = e) /\
      (errors_Is e unix.EINVAL = true ->
       exists format, e' = Errorf format [ArgInt uid; ArgInt gid; ArgString name] e).
Proof.
  split.
  - unfold checkChownErr. destruct err as [e |]; [| tauto].
    destruct (errors_Is e unix.EINVAL); split; intro H; discriminate H.
  - intros e ->. unfold checkChownErr. destruct (errors_Is e unix.EINVAL) eqn:E.
    + eexists. split; [reflexivity |]. split; [reflexivity |].
      split; [intro H; discriminate H |]. intros _. eexists. reflexivity.
    + exists e. split; [reflexivity |]. split; [reflexivity |].
      split; [reflexivity |]. intro H; discriminate H.
Qed.






(** ** Symlinks and device nodes *)













(** ** Directories made on the way *)

Lemma mkdirWith_modes (m : Z) (evs : list event) :
  Forall (eventOk (mkdirWith m)) evs -> Forall (eq m) (collect mkdirModeOf evs).
Proof.
  induction 1 as [| e evs He _ IH]; [constructor |].
  rewrite collect_cons. destruct e as [X c x | v | v]; try exact IH.
  destruct c; try exact IH. simpl in He. subst. constructor; [reflexivity | exact IH].
Qed.

Lemma opens_mkdirWith_never (m : Z) (X : Type) (c : syscall X) :
  calls lookingUp X c -> mkdirWith m X c.
Proof. unfold calls. destruct c; simpl; try discriminate; intros _; exact I. Qed.

Lemma openFileUnderRootRaw_mkdirWith (m dirfd : Z) (name : string) (flags mode : Z) :
  always (mkdirWith m) (fun _ => True) (openFileUnderRootRaw dirfd name flags mode).
Proof.
  eapply always_weaken; [apply opens_mkdirWith_never | | apply openFileUnderRootRaw_looks_up].
  auto.
Qed.

Lemma File_Close_mkdirWith (m : Z) (f : option osFile) :
  always (mkdirWith m) (fun _ => True) (File_Close f).
Proof. unfold File_Close. always_auto. Qed.

Lemma openOrCreateDirUnderRoot_mkdirWith (depth : nat) (dirfd : Z) (name : string) (mode : Z) :
  always (mkdirWith (to_uint32 mode)) (fun _ => True)
    (openOrCreateDirUnderRoot depth dirfd name mode).
Proof.
  revert dirfd name. induction depth as [| depth IH]; intros dirfd name;
    cbn [openOrCreateDirUnderRoot]; [constructor |].
  always_auto; try apply openFileUnderRootRaw_mkdirWith; try apply File_Close_mkdirWith;
    try apply IH.
Qed.

Lemma openFileUnderRoot_mkdirWith (depth : nat) (dirfd : Z) (name : string) (flags mode : Z) :
  always (mkdirWith 0) (fun _ => True) (openFileUnderRoot depth dirfd name flags mode).
Proof.
  unfold openFileUnderRoot.
  always_auto; try apply openFileUnderRootRaw_mkdirWith; try apply File_Close_mkdirWith;
    try apply (openOrCreateDirUnderRoot_mkdirWith depth dirfd _ 0).
Qed.

Lemma doHardLink_mkdirWith (m srcFd destDirFd : Z) (destBase : string) :
  always (mkdirWith m) (fun _ => True) (doHardLink srcFd destDirFd destBase).
Proof. unfold doHardLink. always_auto. Qed.

Lemma setXattrs_mkdirWith (m : Z) (xattrsToIgnore : string -> bool)
    (decode : string -> result (list Z)) (fd : Z) (name : string)
    (xattrs : list (string * string)) :
  always (mkdirWith m) (fun _ => True) (setXattrs xattrsToIgnore decode fd name xattrs).
Proof.
  induction xattrs as [| [k v] rest IH]; cbn [setXattrs]; [constructor; exact I |].
  unfold unlessIgnorable. always_auto; try exact IH.
Qed.

Lemma setFileAttrs_mkdirWith (typeToTarType : string -> Z * option error)
    (xattrsToIgnore : string -> bool) (decode : string -> result (list Z)) (depth : nat)
    (dirfd : Z) (file : option osFile) (mode : Z) (metadata : fileMetadata)
    (options : TarOptions) (usePath : bool) :
  always (mkdirWith 0) (fun _ => True)
    (setFileAttrs typeToTarType xattrsToIgnore decode depth dirfd file mode metadata options
       usePath).
Proof.
  unfold setFileAttrs, applyAttrs, unlessIgnorable.
  always_auto; try apply openFileUnderRoot_mkdirWith; try apply File_Close_mkdirWith;
    try apply setXattrs_mkdirWith.
Qed.

(** X17: a directory that is missing on the way to a file is made with
    mode 0.  [openOrCreateDirUnderRoot] makes every directory it makes with
    the mode it was given, and the functions that create a file or a link
    give it 0: every [mkdirat] of a run of [openFileUnderRoot] (whatever the
    mode of the file), of [copyFileContent] and of [safeLink] asks for mode
    0, on every kernel. *)
Theorem missing_parents_are_made_with_mode_0 {K : Type} (h : kernel K) (s : process K)
    (depth : nat) (dirfd : Z) (name : string) (flags mode : Z) :
  Forall (eq (to_uint32 mode))
    (collect mkdirModeOf
       (fst (fst (run h (openOrCreateDirUnderRoot depth dirfd name mode) s)))) /\
  Forall (eq 0)
    (collect mkdirModeOf
       (fst (fst (run h (openFileUnderRoot depth dirfd name flags mode) s)))) /\
  (forall newFileFlags srcFd fileMeta useHardLinks,
      Forall (eq 0)
        (collect mkdirModeOf
           (fst (fst (run h (copyFileContent newFileFlags depth srcFd fileMeta dirfd mode
                               useHardLinks) s))))) /\
  (forall typeToTarType xattrsToIgnore decode metadata options,
      Forall (eq 0)
        (collect mkdirModeOf
           (fst (fst (run h (safeLink typeToTarType xattrsToIgnore decode depth dirfd mode
                               metadata options) s))))).
Proof.
  assert (Hrun : forall (A : Type) (m : Z) (p : prog A),
             always (mkdirWith m) (fun _ => True) p ->
             Forall (eq m) (collect mkdirModeOf (fst (fst (run h p s))))).
  { intros A m p Hp. destruct (run h p s) as [[evs s'] r] eqn:E.
    apply mkdirWith_modes. exact (proj1 (always_run _ _ h p Hp s evs s' r E)). }
  split; [apply Hrun, openOrCreateDirUnderRoot_mkdirWith |].
  split; [apply Hrun, openFileUnderRoot_mkdirWith |].
  split.
  - intros newFileFlags srcFd fileMeta useHardLinks. apply Hrun.
    unfold copyFileContent, copyToFreshFile.
    always_auto; try apply openFileUnderRoot_mkdirWith; try apply File_Close_mkdirWith;
      try apply doHardLink_mkdirWith.
  - intros typeToTarType xattrsToIgnore decode metadata options. apply Hrun.
    unfold safeLink, linkAndSetAttrs.
    always_auto; try apply openFileUnderRoot_mkdirWith; try apply File_Close_mkdirWith;
      try apply doHardLink_mkdirWith; try apply setFileAttrs_mkdirWith;
      try apply (openOrCreateDirUnderRoot_mkdirWith depth dirfd _ 0).
Qed.

(** ** How attributes are set *)

Lemma opens_byName (fd : Z) (base : string) (md : FileMetadata) (mode : Z)
    (X : Type) (c : syscall X) :
  opens X c -> byName fd base md mode X c.
Proof. unfold opens. destruct c; simpl; try discriminate; intros _; exact I. Qed.

Lemma setXattrs_byName (xattrsToIgnore : string -> bool) (decode : string -> result (list Z))
    (fd : Z) (base : string) (md : FileMetadata) (mode : Z) (name : string)
    (xattrs : list (string * string)) :
  always (byName fd base md mode) (fun _ => True)
    (setXattrs xattrsToIgnore decode fd name xattrs).
Proof.
  induction xattrs as [| [k v] rest IH]; cbn [setXattrs]; [constructor; exact I |].
  unfold unlessIgnorable. always_auto; try exact IH; try (split; reflexivity).
Qed.

Lemma setXattrs_byDescriptor (xattrsToIgnore : string -> bool)
    (decode : string -> result (list Z)) (fd : Z) (md : FileMetadata) (mode : Z)
    (name : string) (xattrs : list (string * string)) :
  always (byDescriptor fd md mode) (fun _ => True)
    (setXattrs xattrsToIgnore decode fd name xattrs).
Proof.
  induction xattrs as [| [k v] rest IH]; cbn [setXattrs]; [constructor; exact I |].
  unfold unlessIgnorable. always_auto; try exact IH; try (split; reflexivity).
Qed.

(** X18: how [setFileAttrs] reaches the file.  For a symlink entry, or
    when the caller asks for it, ownership, times and mode are set by name:
    on the last element of the entry's name, in a directory, with
    [AT_SYMLINK_NOFOLLOW], and never through the descriptor ([fchown] and
    [fchmod] are not called), so that a symlink is changed and not what it
    points to; extended attributes still go through the descriptor.
    Otherwise every call acts on the descriptor of the file that was given,
    the times through its path under /proc/self/fd, and nothing is opened or
    addressed by name.  In both cases the owner, the times and the mode
    passed are those of the entry and of the call.  This holds for every
    call the function can make, on every kernel. *)
Theorem setFileAttrs_by_name_or_by_descriptor {K : Type} (h : kernel K) (s : process K)
    (typeToTarType : string -> Z * option error) (xattrsToIgnore : string -> bool)
    (decode : string -> result (list Z)) (depth : nat) (dirfd : Z) (file : option osFile)
    (mode : Z) (metadata : fileMetadata) (options : TarOptions) (usePath : bool) :
  let md := meta metadata in
  let fd := to_int (File_Fd file) in
  let symlink := fst (typeToTarType (Type_ md)) =? tar_TypeSymlink in
  Forall
    (eventOk (if usePath || symlink
              then byName fd (filepath_Base (Name md)) md mode
              else byDescriptor fd md mode))
    (fst (fst (run h (setFileAttrs typeToTarType xattrsToIgnore decode depth dirfd file mode
                        metadata options usePath) s))).
Proof.
  intros md fd symlink.
  match goal with
  | |- Forall (eventOk ?ok) (fst (fst (run h ?p s))) =>
      assert (Hp : always ok (fun _ => True) p);
      [| destruct (run h p s) as [[evs s'] r] eqn:E;
         exact (proj1 (always_run _ _ h p Hp s evs s' r E)) ]
  end.
  unfold setFileAttrs. subst symlink md fd.
  destruct (typeToTarType (Type_ (meta metadata))) as [t err]. cbn [fst].
  destruct (t =? tar_TypeSymlink), usePath; cbn [orb].
  all: destruct (skipSetAttrs metadata); [constructor; exact I |].
  all: match goal with
       | |- always _ _ (if ?b then _ else _) => destruct b; [constructor; exact I |]
       end.
  all: destruct err as [e |]; [constructor; exact I |]; cbn iota.
  all: unfold applyAttrs, unlessIgnorable.
  all: always_auto.
  all: try (eapply always_weaken;
            [apply opens_byName | intros ? _; exact I
             | first [apply openFileUnderRoot_opens | apply File_Close_opens]]).
  all: try apply setXattrs_byName; try apply setXattrs_byDescriptor.
  all: try (repeat split; reflexivity).
Qed.

(** ** Errors that are overlooked *)

Lemma insensitive_run {K A : Type} (g : forall X : Type, syscall X -> X -> X) (h : kernel K)
    (p : prog A) :
  insensitive g p ->
  forall s : process K,
    run (answering g h) p s
    = let '(evs, s', r) := run h p s in (map (answered g) evs, s', r).
Proof.
  induction 1 as [a | X c k Hk _ IH | k _ IH | v k _ IH |]; intros s; simpl.
  - reflexivity.
  - unfold answering at 1. destruct (h X c (kern s)) as [x kn]. rewrite Hk, IH.
    destruct (run h (k x) _) as [[evs s1] r]. reflexivity.
  - rewrite IH. destruct (run h (k (skipOpenat2 s)) s) as [[evs s1] r]. reflexivity.
  - rewrite IH. destruct (run h k _) as [[evs s1] r]. reflexivity.
  - reflexivity.
Qed.

Lemma insensitive_bind {A B : Type} (g : forall X : Type, syscall X -> X -> X) (p : prog A)
    (f : A -> prog B) :
  insensitive g p -> (forall a, insensitive g (f a)) -> insensitive g (bind p f).
Proof.
  intros Hp Hf. induction Hp as [a | X c k Hk _ IH | k _ IH | v k _ IH |]; simpl.
  - apply Hf.
  - constructor; [intro x; rewrite Hk; reflexivity | exact IH].
  - constructor. exact IH.
  - constructor. exact IH.
  - constructor.
Qed.

(** The calls whose answers are left as they are. *)
Lemma insensitive_other {A : Type} (ignoreChown : bool) (p : prog A) :
  always (calls (fun n => negb (attribute n))) (fun _ => True) p ->
  insensitive (forgiving ignoreChown) p.
Proof.
  induction 1 as [a _ | X c k Hc _ IH | k _ IH | v k _ IH |]; constructor; auto.
  intro x. unfold calls in Hc. destruct c; simpl in Hc; try discriminate Hc; reflexivity.
Qed.

Lemma opens_not_attribute (X : Type) (c : syscall X) :
  opens X c -> calls (fun n => negb (attribute n)) X c.
Proof. unfold opens, calls. destruct c; simpl; try discriminate; reflexivity. Qed.

Lemma setXattrs_insensitive (ignoreChown : bool) (xattrsToIgnore : string -> bool)
    (decode : string -> result (list Z)) (fd : Z) (name : string)
    (xattrs : list (string * string)) :
  insensitive (forgiving ignoreChown) (setXattrs xattrsToIgnore decode fd name xattrs).
Proof.
  induction xattrs as [| [k v] rest IH]; cbn [setXattrs]; [constructor |].
  destruct (xattrsToIgnore k); [exact IH |].
  destruct (decode v) as [data | e]; [| constructor].
  cbn [bind call]. constructor.
  - intro err. cbn [forgiving bind]. unfold unlessIgnorable.
    destruct err as [e |]; [| reflexivity].
    destruct (canIgnore (Some e)) eqn:E; [reflexivity |]. rewrite E. reflexivity.
  - intro err. cbn [bind]. unfold unlessIgnorable.
    destruct err as [e |]; [| exact IH]. destruct (canIgnore (Some e)); [exact IH | constructor].
Qed.

Ltac insensitive_answer :=
  let x := fresh "x" in
  intro x; cbn [forgiving bind]; unfold unlessIgnorable;
  destruct x as [? |]; try reflexivity;
  try match goal with
      | |- context [IgnoreChownErrors ?o] => destruct (IgnoreChownErrors o); cbn [negb]
      end;
  try reflexivity;
  match goal with
  | |- context [canIgnore (Some ?e)] =>
      let E := fresh "E" in
      destruct (canIgnore (Some e)) eqn:E; rewrite ?E; reflexivity
  end.

Ltac insensitive_step lemmas :=
  match goal with
  | |- insensitive _ (bind (call _) _) => cbn [bind call]
  | |- insensitive _ (call _) => unfold call
  | |- insensitive _ (Sys _ _) => constructor; [insensitive_answer | intro; cbn [bind]]
  | |- insensitive _ (bind (if ?b then _ else _) _) => destruct b
  | |- insensitive _ (bind _ _) => apply insensitive_bind; [lemmas | intro]
  | |- insensitive _ (unlessIgnorable _ _ _) => unfold unlessIgnorable
  | |- insensitive _ (match ?x with _ => _ end) => destruct x
  | |- insensitive _ (let _ := _ in _) => cbv zeta
  | |- insensitive _ (Ret _) => constructor
  | |- insensitive _ StackOverflow => constructor
  | |- insensitive _ _ => lemmas
  end.

Lemma applyAttrs_insensitive (xattrsToIgnore : string -> bool)
    (decode : string -> result (list Z)) (fd dirfd : Z) (baseName : string) (usePath : bool)
    (mode : Z) (metadata : fileMetadata) (options : TarOptions) :
  insensitive (forgiving (IgnoreChownErrors options))
    (applyAttrs xattrsToIgnore decode fd dirfd baseName usePath mode metadata options).
Proof.
  unfold applyAttrs. repeat insensitive_step ltac:(apply setXattrs_insensitive).
Qed.

Lemma setFileAttrs_insensitive (typeToTarType : string -> Z * option error)
    (xattrsToIgnore : string -> bool) (decode : string -> result (list Z)) (depth : nat)
    (dirfd : Z) (file : option osFile) (mode : Z) (metadata : fileMetadata)
    (options : TarOptions) (usePath : bool) :
  insensitive (forgiving (IgnoreChownErrors options))
    (setFileAttrs typeToTarType xattrsToIgnore decode depth dirfd file mode metadata options
       usePath).
Proof.
  unfold setFileAttrs.
  repeat insensitive_step
    ltac:(first [ apply applyAttrs_insensitive
                | apply insensitive_other; eapply always_weaken;
                  [ apply opens_not_attribute | intros ? _; exact I
                  | first [apply openFileUnderRoot_opens | apply File_Close_opens] ] ]).
Qed.

(** X19: [setFileAttrs] cannot tell an overlooked error from success.  On
    every kernel, if each error of [fsetxattr], [utimensat], [fchmod] and
    [fchmodat] that is [ENOSYS] or [ENOTSUP], and with [IgnoreChownErrors]
    each error of [fchown] and [fchownat], is replaced by success, the run
    makes the same calls with the same arguments in the same order and
    returns the same result: after such an error the remaining attributes
    are still applied, and the error is not reported. *)
Theorem setFileAttrs_overlooked_errors {K : Type} (h : kernel K) (s : process K)
    (typeToTarType : string -> Z * option error) (xattrsToIgnore : string -> bool)
    (decode : string -> result (list Z)) (depth : nat) (dirfd : Z) (file : option osFile)
    (mode : Z) (metadata : fileMetadata) (options : TarOptions) (usePath : bool) :
  let p := setFileAttrs typeToTarType xattrsToIgnore decode depth dirfd file mode metadata
             options usePath in
  let g := forgiving (IgnoreChownErrors options) in
  run (answering g h) p s
  = (map (answered g) (fst (fst (run h p s))), snd (fst (run h p s)), snd (run h p s)).
Proof.
  intros p g. subst p g. rewrite insensitive_run by apply setFileAttrs_insensitive.
  destruct (run h _ s) as [[evs s'] r]. reflexivity.
Qed.

Lemma calls_no_chown (allowed : sysname -> bool) (evs : list event) :
  allowed N_Fchown = false -> allowed N_Fchownat = false ->
  Forall (eventOk (calls allowed)) evs -> collect chownOf evs = [].
Proof.
  intros H1 H2. apply collect_nil_of_none.
  intros [X c x | v | v] Hc; try reflexivity.
  unfold eventOk, calls in Hc. destruct c; try reflexivity; simpl in Hc; congruence.
Qed.

Lemma setXattrs_afterChown (xattrsToIgnore : string -> bool)
    (decode : string -> result (list Z)) (fd : Z) (name : string)
    (xattrs : list (string * string)) :
  always (calls afterChownCall) (fun _ => True)
    (setXattrs xattrsToIgnore decode fd name xattrs).
Proof.
  induction xattrs as [| [k v] rest IH]; cbn [setXattrs]; [constructor; exact I |].
  unfold unlessIgnorable. always_auto; try exact IH.
Qed.

Lemma applyAttrs_chown_failure {K : Type} (h : kernel K) (xattrsToIgnore : string -> bool)
    (decode : string -> result (list Z)) (fd dirfd : Z) (baseName : string) (usePath : bool)
    (mode : Z) (metadata : fileMetadata) (options : TarOptions) (s : process K) evs s' r e :
  IgnoreChownErrors options = false ->
  run h (applyAttrs xattrsToIgnore decode fd dirfd baseName usePath mode metadata options) s
  = (evs, s', r) ->
  In (Some e) (collect chownOf evs) ->
  r = Some (Some (Errorf "chown %q to %d:%d: %w"
                    [ArgString (Name (meta metadata)); ArgInt (UID (meta metadata));
                     ArgInt (GID (meta metadata))] e)) /\
  filter attribute (names evs) = [if usePath then N_Fchownat else N_Fchown].
Proof.
  intros Hstrict Hrun Hin. unfold applyAttrs in Hrun. rewrite Hstrict in Hrun.
  cbn [negb] in Hrun.
  destruct usePath; rewrite run_bind, run_call in Hrun; cbn beta iota in Hrun;
    match type of Hrun with
    | context [fst ?t] => destruct (fst t) as [e' |] eqn:Ex
    end;
    [ cbn in Hrun; inversion Hrun; subst; cbn in Hin; destruct Hin as [E | []];
      inversion E; subst; split; reflexivity
    | exfalso
    | cbn in Hrun; inversion Hrun; subst; cbn in Hin; destruct Hin as [E | []];
      inversion E; subst; split; reflexivity
    | exfalso ].
  all: match type of Hrun with
       | context [run _ ?p ?s0] =>
           destruct (run h p s0) as [[evs1 s1] r1] eqn:E1;
           assert (Hp : always (calls afterChownCall) (fun _ => True) p)
       end.
  all: try (unfold unlessIgnorable; always_auto; apply setXattrs_afterChown).
  all: inversion Hrun; subst; cbn [app] in Hin; rewrite collect_cons in Hin;
    cbn [chownOf app] in Hin; destruct Hin as [E | Hin]; [discriminate E |];
    rewrite (calls_no_chown afterChownCall evs1 eq_refl eq_refl
               (proj1 (always_run _ _ h _ Hp _ _ _ _ E1))) in Hin; exact Hin.
Qed.

Lemma filter_attribute_none (allowed : sysname -> bool) (l : list sysname) :
  (forall n, allowed n = true -> attribute n = false) ->
  forallb allowed l = true -> filter attribute l = [].
Proof.
  intros Hn. induction l as [| n l IH]; [reflexivity |]. cbn [forallb filter].
  intros H. apply andb_prop in H. destruct H as [H1 H2]. rewrite (Hn n H1). exact (IH H2).
Qed.

Lemma opens_no_attribute {K A : Type} (h : kernel K) (p : prog A) (s : process K) evs s' r :
  always opens (fun _ => True) p ->
  run h p s = (evs, s', r) ->
  filter attribute (names evs) = [] /\ collect chownOf evs = [].
Proof.
  intros Hp Hrun. split.
  - apply (filter_attribute_none opening).
    + intros n; destruct n; simpl; intros H; try discriminate H; reflexivity.
    + exact (always_names opening h p s evs s' r Hp Hrun).
  - apply (calls_no_chown opening); try reflexivity.
    exact (proj1 (always_run _ _ h p Hp s evs s' r Hrun)).
Qed.

(** X20: unless ownership errors are to be ignored, a failed change of
    owner ends [setFileAttrs]: in every run in which [fchown] or [fchownat]
    failed, the result is that error wrapped with the name and the
    identifiers asked for, and the change of owner is the only attribute call
    of the run: no extended attribute, time or mode has been set. *)
Theorem setFileAttrs_chown_failure_is_fatal {K : Type} (h : kernel K)
    (typeToTarType : string -> Z * option error) (xattrsToIgnore : string -> bool)
    (decode : string -> result (list Z)) (depth : nat) (dirfd : Z) (file : option osFile)
    (mode : Z) (metadata : fileMetadata) (options : TarOptions) (usePath : bool)
    (s : process K) evs s' r e :
  IgnoreChownErrors options = false ->
  run h (setFileAttrs typeToTarType xattrsToIgnore decode depth dirfd file mode metadata options
           usePath) s
  = (evs, s', r) ->
  In (Some e) (collect chownOf evs) ->
  r = Some (Some (Errorf "chown %q to %d:%d: %w"
                    [ArgString (Name (meta metadata)); ArgInt (UID (meta metadata));
                     ArgInt (GID (meta metadata))] e)) /\
  List.length (filter attribute (names evs)) = 1%nat.
Proof.
  intros Hstrict Hrun Hin. unfold setFileAttrs in Hrun.
  destruct (skipSetAttrs metadata); [inversion Hrun; subst; destruct Hin |].
  destruct (_ || _); [inversion Hrun; subst; destruct Hin |].
  destruct (typeToTarType (Type_ (meta metadata))) as [t err].
  destruct err as [e0 |]; [inversion Hrun; subst; destruct Hin |].
  destruct (if t =? tar_TypeSymlink then true else usePath) eqn:Epath.
  - destruct (negb _).
    + rewrite run_bind in Hrun.
      destruct (run h (openFileUnderRoot _ _ _ _ _) s) as [[e1 s1] r1] eqn:E1.
      destruct (opens_no_attribute h _ _ _ _ _ (openFileUnderRoot_opens _ _ _ _ _) E1)
        as [Hattr1 Hchown1].
      destruct r1 as [[parentFd err] |];
        [| inversion Hrun; subst; rewrite Hchown1 in Hin; destruct Hin].
      destruct err as [e2 |].
      { cbn in Hrun. inversion Hrun; subst. rewrite app_nil_r, Hchown1 in Hin. destruct Hin. }
      rewrite run_bind in Hrun.
      destruct (run h (applyAttrs _ _ _ _ _ _ _ _ _) s1) as [[e2 s2] r2] eqn:E2.
      destruct r2 as [r2 |].
      * rewrite run_bind in Hrun.
        destruct (run h (File_Close parentFd) s2) as [[e3 s3] r3] eqn:E3.
        destruct (opens_no_attribute h _ _ _ _ _ (File_Close_opens _) E3) as [Hattr3 Hchown3].
        assert (Hevs : evs = e1 ++ e2 ++ e3 /\ (r = Some r2 \/ r = None)).
        { destruct r3 as [c |]; cbn in Hrun; inversion Hrun; subst;
            rewrite ?app_nil_r; auto. }
        destruct Hevs as [-> Hr].
        rewrite !collect_app, Hchown1, Hchown3, app_nil_r in Hin. cbn [app] in Hin.
        destruct (applyAttrs_chown_failure h _ _ _ _ _ _ _ _ _ _ _ _ _ e Hstrict E2 Hin)
          as [Hr2 Hattr2].
        rewrite !names_app, !filter_app, Hattr1, Hattr2, Hattr3. split; [| reflexivity].
        inversion Hr2; subst.
        destruct (File_Close_returns h parentFd s2 _ _ _ E3) as [c Hc]. subst r3.
        cbn in Hrun. inversion Hrun; subst. reflexivity.
      * inversion Hrun; subst.
        rewrite collect_app, Hchown1 in Hin. cbn [app] in Hin.
        destruct (applyAttrs_chown_failure h _ _ _ _ _ _ _ _ _ _ _ _ _ e Hstrict E2 Hin)
          as [Hr2 _]. discriminate Hr2.
    + destruct (applyAttrs_chown_failure h _ _ _ _ _ _ _ _ _ _ _ _ _ e Hstrict Hrun Hin)
        as [Hr2 Hattr2]. rewrite Hattr2. split; [exact Hr2 | reflexivity].
  - destruct (applyAttrs_chown_failure h _ _ _ _ _ _ _ _ _ _ _ _ _ e Hstrict Hrun Hin)
      as [Hr2 Hattr2]. rewrite Hattr2. split; [exact Hr2 | reflexivity].
Qed.

Lemma setFileAttrs_chown_failure_is_fatal_witness :
  Some (Some (Errorf "chown %q to %d:%d: %w" [ArgString "f"; ArgInt 0; ArgInt 0]
                (Errno unix.EPERM)))
  = Some (Some (Errorf "chown %q to %d:%d: %w"
                  [ArgString (Name (meta (regularEntry "f" [("user.a", "YQ==")] false)));
                   ArgInt (UID (meta (regularEntry "f" [("user.a", "YQ==")] false)));
                   ArgInt (GID (meta (regularEntry "f" [("user.a", "YQ==")] false)))]
                  (Errno unix.EPERM))) /\
  List.length
    (filter attribute (names [Called (unix_Fchown 5 0 0) (Some (Errno unix.EPERM))]))
  = 1%nat.
Proof.
  refine (setFileAttrs_chown_failure_is_fatal replay typesToTar ignoredXattrs base64Decode 3 3
            (Some (mkFile 5 "f")) 420 (regularEntry "f" [("user.a", "YQ==")] false)
            strictOptions false
            (mkProcess [Status (Some (Errno unix.EPERM)); Status None; Status None;
                        Status None] 0)
            _ _ _ (Errno unix.EPERM) eq_refl eq_refl _).
  left. reflexivity.
Defined.

(** ** Hard-link entries *)

Lemma doHardLink_links (srcFd destDirFd : Z) (destBase : string) :
  always (calls (fun n => match n with N_Linkat | N_Unlinkat => true | _ => false end))
    (fun _ => True) (doHardLink srcFd destDirFd destBase).
Proof. unfold doHardLink. always_auto. Qed.

Lemma doHardLink_no_attribute {K : Type} (h : kernel K) (srcFd destDirFd : Z)
    (destBase : string) (s : process K) evs s' r :
  run h (doHardLink srcFd destDirFd destBase) s = (evs, s', r) ->
  filter attribute (names evs) = [].
Proof.
  intros Hrun.
  apply (filter_attribute_none
           (fun n => match n with N_Linkat | N_Unlinkat => true | _ => false end)).
  - intros n; destruct n; simpl; intros H; try discriminate H; reflexivity.
  - exact (always_names _ h _ s evs s' r (doHardLink_links _ _ _) Hrun).
Qed.

Lemma opens_no_linkat {K A : Type} (h : kernel K) (p : prog A) (s : process K) evs s' r :
  always opens (fun _ => True) p ->
  run h p s = (evs, s', r) ->
  collect linkatOf evs = [].
Proof. intros Hp Hrun. exact (proj1 (proj2 (run_opens_silent h p s evs s' r Hp Hrun))). Qed.

(** What [doHardLink] returns is the answer of its last [linkat]. *)
Lemma doHardLink_last {K : Type} (h : kernel K) (srcFd destDirFd : Z) (destBase : string)
    (s : process K) evs s' err :
  run h (doHardLink srcFd destDirFd destBase) s = (evs, s', Some err) ->
  exists pre, collect linkatOf evs = pre ++ [err].
Proof.
  intros Hrun. unfold doHardLink in Hrun. run_inv_all.
  all: repeat match goal with
         | H : fst _ = _ |- _ => rewrite H; clear H
         end.
  - eexists [_]. reflexivity.
  - exists []. reflexivity.
  - exists []. reflexivity.
Qed.

(** X21: [safeLink] touches no attribute unless the link was made.  In
    every run in which no [linkat] succeeded, the result is an error and no
    call that changes ownership, extended attributes, times or mode has been
    made; so an existing file under the entry's name, which could not be
    replaced by the link, keeps its attributes.  If a [linkat] was tried,
    the error is the one that the last [linkat] of the run answered, wrapped
    with the entry's name and link name. *)
Theorem safeLink_no_attributes_without_link {K : Type} (h : kernel K)
    (typeToTarType : string -> Z * option error) (xattrsToIgnore : string -> bool)
    (decode : string -> result (list Z)) (depth : nat) (dirfd mode : Z)
    (metadata : fileMetadata) (options : TarOptions) (s : process K) evs s' r :
  run h (safeLink typeToTarType xattrsToIgnore decode depth dirfd mode metadata options) s
  = (evs, s', Some r) ->
  ~ In None (collect linkatOf evs) ->
  r <> None /\
  filter attribute (names evs) = [] /\
  (collect linkatOf evs <> [] ->
   exists e,
     last (collect linkatOf evs) None = Some e /\
     r = Some (Errorf "create hardlink %q pointing to %q: %w"
                 [ArgString (Name (meta metadata)); ArgString (Linkname (meta metadata))] e)).
Proof.
  intros Hrun Hnone. unfold safeLink in Hrun.
  destruct (filepath_Split (Name (meta metadata))) as [destDir destBase] eqn:Esplit.
  unfold linkAndSetAttrs in Hrun. cbv zeta in Hrun. run_inv_all.
  all: repeat match goal with
         | H : run _ (doHardLink _ _ _) _ = (_, _, Some ?err) |- _ =>
             let H' := fresh "Hlink" in
             let H'' := fresh "Hattr" in
             let H3 := fresh "Hlast" in
             pose proof (doHardLink_run h _ _ _ _ _ _ _ H) as H';
             pose proof (doHardLink_no_attribute h _ _ _ _ _ _ _ H) as H'';
             pose proof (doHardLink_last h _ _ _ _ _ _ _ H) as H3;
             destruct H' as (? & ? & ? & _); clear H
         end.
  all: repeat match goal with
         | H : run _ (openFileUnderRoot _ _ _ _ _) _ = _ |- _ =>
             let H1 := fresh "Hl" in
             let H2 := fresh "Ha" in
             pose proof (opens_no_linkat h _ _ _ _ _ (openFileUnderRoot_opens _ _ _ _ _) H)
               as H1;
             pose proof (proj1 (opens_no_attribute h _ _ _ _ _
                                  (openFileUnderRoot_opens _ _ _ _ _) H)) as H2;
             clear H
         | H : run _ (openOrCreateDirUnderRoot _ _ _ _) _ = _ |- _ =>
             let H1 := fresh "Hl" in
             let H2 := fresh "Ha" in
             pose proof (opens_no_linkat h _ _ _ _ _ (openOrCreateDirUnderRoot_opens _ _ _ _) H)
               as H1;
             pose proof (proj1 (opens_no_attribute h _ _ _ _ _
                                  (openOrCreateDirUnderRoot_opens _ _ _ _) H)) as H2;
             clear H
         | H : run _ (File_Close _) _ = _ |- _ =>
             let H1 := fresh "Hl" in
             let H2 := fresh "Ha" in
             pose proof (opens_no_linkat h _ _ _ _ _ (File_Close_opens _) H) as H1;
             pose proof (proj1 (opens_no_attribute h _ _ _ _ _ (File_Close_opens _) H)) as H2;
             clear H
         end.
  all: repeat match goal with
         | H : Some _ = Some _ |- _ => inversion H; subst; clear H
         end.
  all: repeat rewrite app_nil_r in *.
  all: repeat rewrite collect_app in *; repeat rewrite names_app; repeat rewrite filter_app.
  all: repeat match goal with
         | H : collect linkatOf _ = [] |- _ => rewrite H in *; clear H
         | H : filter attribute _ = [] |- _ => rewrite H; clear H
         end.
  all: cbn [app] in *; repeat rewrite app_nil_r in *.
  all: try (exfalso; apply Hnone; repeat rewrite in_app_iff;
            match goal with
            | H : _ <-> In None _ |- _ => pose proof (proj1 H eq_refl); tauto
            end).
  all: split; [discriminate |]; split; [reflexivity |].
  all: intros Hlinks; try (exfalso; apply Hlinks; reflexivity).
  all: eexists; split; [| reflexivity].
  all: match goal with
       | H : exists pre, collect linkatOf _ = pre ++ [_] |- _ =>
           destruct H as (pre & ->); apply last_last
       end.
Qed.

Lemma safeLink_no_attributes_without_link_witness :
  let evs :=
    fst (fst (run replay
                (safeLink typesToTar ignoredXattrs base64Decode 3 3 420
                   (plainEntry "hardlink" "new" "old") strictOptions)
                (mkProcess [Int (Ok 4); Status (Some (Errno unix.EPERM)); Status None] 0))) in
  Some (Errorf "create hardlink %q pointing to %q: %w" [ArgString "new"; ArgString "old"]
          (Errno unix.EPERM)) <> None /\
  filter attribute (names evs) = [] /\
  (collect linkatOf evs <> [] ->
   exists e,
     last (collect linkatOf evs) None = Some e /\
     Some (Errorf "create hardlink %q pointing to %q: %w" [ArgString "new"; ArgString "old"]
             (Errno unix.EPERM))
     = Some (Errorf "create hardlink %q pointing to %q: %w"
               [ArgString (Name (meta (plainEntry "hardlink" "new" "old")));
                ArgString (Linkname (meta (plainEntry "hardlink" "new" "old")))] e)).
Proof.
  refine (safeLink_no_attributes_without_link replay typesToTar ignoredXattrs base64Decode 3 3
            420 (plainEntry "hardlink" "new" "old") strictOptions
            (mkProcess [Int (Ok 4); Status (Some (Errno unix.EPERM)); Status None] 0)
            _ _ _ eq_refl _).
  vm_compute. intros [E | []]. discriminate E.
Defined.

(** X22: a hard-link entry whose source does not open is refused before
    anything is made.  When the raw open of the link name (with [O_PATH] and
    [O_NOFOLLOW], and without [O_CREAT]) fails, [safeLink] returns that
    error, wrapped with the link name, and the run consists of that one open:
    no directory is made for the new name and no link is tried. *)
Theorem safeLink_source_must_open {K : Type} (h : kernel K)
    (typeToTarType : string -> Z * option error) (xattrsToIgnore : string -> bool)
    (decode : string -> result (list Z)) (depth : nat) (dirfd mode : Z)
    (metadata : fileMetadata) (options : TarOptions) (s : process K) evs s' fd e :
  run h (openFileUnderRootRaw dirfd (Linkname (meta metadata))
           (Z.lor (Z.lor unix.O_PATH unix.O_RDONLY) unix.O_NOFOLLOW) 0) s
  = (evs, s', Some (fd, Some e)) ->
  run h (safeLink typeToTarType xattrsToIgnore decode depth dirfd mode metadata options) s
  = (evs, s',
     Some (Some (Errorf "open %q under the rootfs: %w"
                   [ArgString (Linkname (meta metadata))] e))) /\
  ~ In N_Mkdirat (names evs) /\ ~ In N_Linkat (names evs).
Proof.
  intros Hraw. split.
  - unfold safeLink, openFileUnderRoot. rewrite !run_bind, Hraw. cbn iota beta.
    change (Z.land (Z.lor (Z.lor unix.O_PATH unix.O_RDONLY) unix.O_NOFOLLOW) unix.O_CREAT)
      with 0.
    cbn [Z.eqb negb]. rewrite andb_false_r. cbn. rewrite !app_nil_r. reflexivity.
  - pose proof (always_names lookingUp h _ _ _ _ _
                  (openFileUnderRootRaw_looks_up _ _ _ _) Hraw) as Hnames.
    split; apply (forallb_not_In lookingUp); try exact Hnames; reflexivity.
Qed.

Lemma safeLink_source_must_open_witness :
  run replay
    (safeLink typesToTar ignoredXattrs base64Decode 3 3 420
       (plainEntry "hardlink" "d/new" "old") strictOptions)
    (mkProcess [Int (Err (Errno unix.ENOENT))] 0)
  = ([LoadedSkipOpenat2 0;
      Called (unix_Openat2 3 "old"
                (mkOpenHow (Z.lor (Z.lor unix.O_PATH unix.O_RDONLY) unix.O_NOFOLLOW) 0
                   unix.RESOLVE_IN_ROOT))
        (Err (Errno unix.ENOENT))],
     mkProcess [] 0,
     Some (Some (Errorf "open %q under the rootfs: %w"
                   [ArgString (Linkname (meta (plainEntry "hardlink" "d/new" "old")))]
                   (Errno unix.ENOENT)))) /\
  ~ In N_Mkdirat
      (names [LoadedSkipOpenat2 0;
              Called (unix_Openat2 3 "old"
                        (mkOpenHow (Z.lor (Z.lor unix.O_PATH unix.O_RDONLY) unix.O_NOFOLLOW) 0
                           unix.RESOLVE_IN_ROOT))
                (Err (Errno unix.ENOENT))]) /\
  ~ In N_Linkat
      (names [LoadedSkipOpenat2 0;
              Called (unix_Openat2 3 "old"
                        (mkOpenHow (Z.lor (Z.lor unix.O_PATH unix.O_RDONLY) unix.O_NOFOLLOW) 0
                           unix.RESOLVE_IN_ROOT))
                (Err (Errno unix.ENOENT))]).
Proof.
  exact (safeLink_source_must_open replay typesToTar ignoredXattrs base64Decode 3 3 420
           (plainEntry "hardlink" "d/new" "old") strictOptions
           (mkProcess [Int (Err (Errno unix.ENOENT))] 0) _ _ (-1) (Errno unix.ENOENT) eq_refl).
Defined.

(** ** Symlinks, device nodes and ownership: what they inherit

    [safeSymlink], [whiteoutHandler.Mknod] and [whiteoutHandler.Chown] are
    made of the functions above and of one or two calls of their own, so
    that what holds of the traces of those functions holds of theirs. *)

Lemma built_run {K : Type} (h : xkernel K) (P : forall A : Type, prog A -> Prop)
    (inv : Z -> Prop) (good : list event -> Prop) :
  good [] ->
  (forall e1 e2, good e1 -> good e2 -> good (e1 ++ e2)) ->
  (forall (A : Type) (p : prog A), P A p ->
    forall (s : process K) evs s' r,
      inv (skipOpenat2 s) -> run (restrict h) p s = (evs, s', r) ->
      inv (skipOpenat2 s') /\ good evs) ->
  forall (B : Type) (q : xprog B),
    built P B q ->
    forall (s : process K) evs s' r,
      inv (skipOpenat2 s) -> xrun h q s = (evs, s', r) ->
      inv (skipOpenat2 s') /\ good (baseEvents evs).
Proof.
  intros Hnil Happ HP B q Hq.
  induction Hq as [B b | B p Hp | X c Hc | A B q k _ IHq _ IHk];
    intros s evs s' r Hinv Hrun.
  - cbn in Hrun. inversion Hrun; subst. split; [exact Hinv | exact Hnil].
  - apply xrun_lift_inv in Hrun. destruct Hrun as (e & Hrun & ->).
    rewrite baseEvents_lift. exact (HP B p Hp s e s' r Hinv Hrun).
  - rewrite xrun_xcall in Hrun. inversion Hrun; subst. split; [exact Hinv |].
    destruct c; try destruct Hc; exact Hnil.
  - rewrite xrun_bind in Hrun. destruct (xrun h q s) as [[e1 s1] r1] eqn:E1.
    destruct (IHq _ _ _ _ Hinv E1) as [Hinv1 Hgood1].
    destruct r1 as [a |]; [| inversion Hrun; subst; split; assumption].
    destruct (xrun h (k a) s1) as [[e2 s2] r2] eqn:E2.
    destruct (IHk a _ _ _ _ Hinv1 E2) as [Hinv2 Hgood2].
    inversion Hrun; subst. rewrite baseEvents_app. split; [exact Hinv2 | auto].
Qed.

Section Built.

Variable P : forall A : Type, prog A -> Prop.
Hypothesis P_openOrCreateDirUnderRoot :
  forall depth dirfd name mode, P _ (openOrCreateDirUnderRoot depth dirfd name mode).
Hypothesis P_openFileUnderRoot :
  forall depth dirfd name flags mode, P _ (openFileUnderRoot depth dirfd name flags mode).
Hypothesis P_File_Close : forall f, P _ (File_Close f).
Hypothesis P_Fchownat :
  forall dirfd path uid gid flags, P _ (call (unix_Fchownat dirfd path uid gid flags)).

Ltac built_step :=
  match goal with
  | |- built _ _ (xbind _ _) => apply built_bind
  | |- built _ _ (XRet _) => apply built_Ret
  | |- built _ _ (lift _) => apply built_lift
  | |- built _ _ (xcall (base ?c)) => apply (built_lift P _ (call c))
  | |- built _ _ (xcall _) => apply built_call; exact I
  | |- built _ _ (match ?x with _ => _ end) => destruct x
  | |- built _ _ (let _ := _ in _) => cbv zeta
  | |- P _ _ => first [ apply P_openOrCreateDirUnderRoot | apply P_openFileUnderRoot
                      | apply P_File_Close | apply P_Fchownat ]
  | |- forall _, _ => intro
  end.

Lemma safeSymlink_built (depth : nat) (dirfd mode : Z) (metadata : fileMetadata)
    (options : TarOptions) :
  built P _ (safeSymlink depth dirfd mode metadata options).
Proof. unfold safeSymlink. repeat built_step. Qed.

Lemma whiteoutHandler_Mknod_built (depth : nat) (d : whiteoutHandler) (path : string)
    (mode dev : Z) :
  built P _ (whiteoutHandler_Mknod depth d path mode dev).
Proof. unfold whiteoutHandler_Mknod. repeat built_step. Qed.

Lemma whiteoutHandler_Chown_built (depth : nat) (d : whiteoutHandler) (path : string)
    (uid gid : Z) :
  built P _ (whiteoutHandler_Chown depth d path uid gid).
Proof. unfold whiteoutHandler_Chown. repeat built_step. Qed.

End Built.

(** ** The capability flag, in the functions that materialise entries *)

Lemma linkAndSetAttrs_afterDowngrade (typeToTarType : string -> Z * option error)
    (xattrsToIgnore : string -> bool) (decode : string -> result (list Z)) (depth : nat)
    (dirfd mode : Z) (metadata : fileMetadata) (options : TarOptions)
    (sourceFile : option osFile) (destDirFd : Z) (destBase : string) (closing : prog unit) :
  afterDowngrade closing ->
  afterDowngrade
    (linkAndSetAttrs typeToTarType xattrsToIgnore decode depth dirfd mode metadata options
       sourceFile destDirFd destBase closing).
Proof.
  intros Hclosing. unfold linkAndSetAttrs.
  repeat (first [ apply openFileUnderRoot_afterDowngrade
                | apply File_Close_afterDowngrade
                | apply doHardLink_afterDowngrade
                | apply setFileAttrs_afterDowngrade
                | exact Hclosing
                | afterDowngrade_step ]).
Qed.

Lemma safeLink_afterDowngrade (typeToTarType : string -> Z * option error)
    (xattrsToIgnore : string -> bool) (decode : string -> result (list Z)) (depth : nat)
    (dirfd mode : Z) (metadata : fileMetadata) (options : TarOptions) :
  afterDowngrade
    (safeLink typeToTarType xattrsToIgnore decode depth dirfd mode metadata options).
Proof.
  unfold safeLink.
  repeat (first [ apply openFileUnderRoot_afterDowngrade
                | apply openOrCreateDirUnderRoot_afterDowngrade
                | apply File_Close_afterDowngrade
                | apply linkAndSetAttrs_afterDowngrade
                | afterDowngrade_step ]).
Qed.

Lemma whiteoutHandler_Setxattr_afterDowngrade (depth : nat) (d : whiteoutHandler)
    (path name : string) (value : list Z) :
  afterDowngrade (whiteoutHandler_Setxattr depth d path name value).
Proof.
  unfold whiteoutHandler_Setxattr.
  repeat (first [ apply openOrCreateDirUnderRoot_afterDowngrade
                | apply File_Close_afterDowngrade
                | afterDowngrade_step ]).
Qed.

(** X23: once [openat2] has been given up, no function of the file tries
    it again.  In a process whose flag [skipOpenat2] is set, every run of
    [copyFileContent], [setFileAttrs], [safeMkdir], [safeLink],
    [safeSymlink] and of the three methods of [whiteoutHandler], on every
    kernel, makes no [openat2] call, does not write the flag and leaves it
    set: every open under the root goes through the fallback. *)
Theorem downgrade_holds_in_every_function {K : Type} (h : xkernel K) (s : process K)
    (newFileFlags : Z) (typeToTarType : string -> Z * option error)
    (xattrsToIgnore : string -> bool) (decode : string -> result (list Z)) (depth : nat)
    (dirfd mode srcFd : Z) (name : string) (fileMeta : fileMetadata) (file : option osFile)
    (options : TarOptions) (flag : bool) (d : whiteoutHandler) (attr : string)
    (value : list Z) (dev uid gid : Z) :
  0 < skipOpenat2 s ->
  let quiet := fun (A : Type) (p : prog A) =>
    skipOpenat2 (snd (fst (run (restrict h) p s))) = skipOpenat2 s /\
    collect protocolOf (fst (fst (run (restrict h) p s))) = [] in
  let xquiet := fun (A : Type) (q : xprog A) =>
    skipOpenat2 (snd (fst (xrun h q s))) = skipOpenat2 s /\
    collect protocolOf (baseEvents (fst (fst (xrun h q s)))) = [] in
  quiet _ (copyFileContent newFileFlags depth srcFd fileMeta dirfd mode flag) /\
  quiet _ (setFileAttrs typeToTarType xattrsToIgnore decode depth dirfd file mode fileMeta
             options flag) /\
  quiet _ (safeMkdir typeToTarType xattrsToIgnore decode depth dirfd mode name fileMeta
             options) /\
  quiet _ (safeLink typeToTarType xattrsToIgnore decode depth dirfd mode fileMeta options) /\
  quiet _ (whiteoutHandler_Setxattr depth d name attr value) /\
  xquiet _ (safeSymlink depth dirfd mode fileMeta options) /\
  xquiet _ (whiteoutHandler_Mknod depth d name mode dev) /\
  xquiet _ (whiteoutHandler_Chown depth d name uid gid).
Proof.
  intros Hset quiet xquiet.
  assert (Hq : forall (A : Type) (p : prog A), afterDowngrade p -> quiet A p).
  { intros A p Hp. unfold quiet. destruct (run (restrict h) p s) as [[evs s'] r] eqn:E.
    exact (afterDowngrade_run (restrict h) p Hp s evs s' r Hset E). }
  assert (Hx : forall (A : Type) (q : xprog A),
             built (fun A p => afterDowngrade p) A q -> xquiet A q).
  { intros A q Hbuilt. unfold xquiet. destruct (xrun h q s) as [[evs s'] r] eqn:E.
    refine (built_run h (fun A p => afterDowngrade p) (fun v => v = skipOpenat2 s)
              (fun evs => collect protocolOf evs = []) eq_refl _ _ A q Hbuilt s evs s' r
              eq_refl E).
    - intros e1 e2 H1 H2. rewrite collect_app, H1, H2. reflexivity.
    - intros B p Hp s0 e0 s0' r0 Hinv Hrun.
      assert (Hset0 : 0 < skipOpenat2 s0) by (rewrite Hinv; exact Hset).
      destruct (afterDowngrade_run (restrict h) p Hp s0 e0 s0' r0 Hset0 Hrun) as [H1 H2].
      split; [rewrite H1; exact Hinv | exact H2]. }
  split; [apply Hq, copyFileContent_afterDowngrade |].
  split; [apply Hq, setFileAttrs_afterDowngrade |].
  split; [apply Hq, safeMkdir_afterDowngrade |].
  split; [apply Hq, safeLink_afterDowngrade |].
  split; [apply Hq, whiteoutHandler_Setxattr_afterDowngrade |].
  assert (Hparts :
            (forall depth dirfd name mode,
                afterDowngrade (openOrCreateDirUnderRoot depth dirfd name mode)) /\
            (forall depth dirfd name flags mode,
                afterDowngrade (openFileUnderRoot depth dirfd name flags mode)) /\
            (forall f, afterDowngrade (File_Close f)) /\
            (forall dirfd' path uid' gid' flags,
                afterDowngrade (call (unix_Fchownat dirfd' path uid' gid' flags)))).
  { split; [exact openOrCreateDirUnderRoot_afterDowngrade |].
    split; [exact openFileUnderRoot_afterDowngrade |].
    split; [exact File_Close_afterDowngrade |].
    intros. unfold call. constructor; [exact I | intro; constructor]. }
  destruct Hparts as (H1 & H2 & H3 & H4).
  split; [apply Hx, safeSymlink_built; assumption |].
  split; [apply Hx, whiteoutHandler_Mknod_built; assumption |].
  apply Hx, whiteoutHandler_Chown_built; assumption.
Qed.

Lemma downgrade_holds_in_every_function_witness :
  let s := mkProcess [Plain (Str (Ok "/root")); Plain (Str (Ok "/root/d"));
                      Plain (Int (Ok 4)); Plain (Str (Ok "/root/d"));
                      Plain (Status None)] 1 in
  let quiet := fun (A : Type) (p : prog A) =>
    skipOpenat2 (snd (fst (run (restrict xreplay) p s))) = skipOpenat2 s /\
    collect protocolOf (fst (fst (run (restrict xreplay) p s))) = [] in
  let xquiet := fun (A : Type) (q : xprog A) =>
    skipOpenat2 (snd (fst (xrun xreplay q s))) = skipOpenat2 s /\
    collect protocolOf (baseEvents (fst (fst (xrun xreplay q s)))) = [] in
  quiet _ (copyFileContent freshFileFlags 3 7 (plainEntry "dir" "d" "") 3 493 true) /\
  quiet _ (setFileAttrs typesToTar ignoredXattrs base64Decode 3 3 (Some (mkFile 4 "d")) 493
             (plainEntry "dir" "d" "") strictOptions true) /\
  quiet _ (safeMkdir typesToTar ignoredXattrs base64Decode 3 3 493 "d"
             (plainEntry "dir" "d" "") strictOptions) /\
  quiet _ (safeLink typesToTar ignoredXattrs base64Decode 3 3 493 (plainEntry "dir" "d" "")
             strictOptions) /\
  quiet _ (whiteoutHandler_Setxattr 3 (mkWhiteoutHandler 3 "/root") "d"
             "trusted.overlay.opaque" [121]) /\
  xquiet _ (safeSymlink 3 3 493 (plainEntry "dir" "d" "") strictOptions) /\
  xquiet _ (whiteoutHandler_Mknod 3 (mkWhiteoutHandler 3 "/root") "d" 493 0) /\
  xquiet _ (whiteoutHandler_Chown 3 (mkWhiteoutHandler 3 "/root") "d" 0 0).
Proof.
  exact (downgrade_holds_in_every_function xreplay
           (mkProcess [Plain (Str (Ok "/root")); Plain (Str (Ok "/root/d"));
                       Plain (Int (Ok 4)); Plain (Str (Ok "/root/d"));
                       Plain (Status None)] 1)
           freshFileFlags typesToTar ignoredXattrs base64Decode 3 3 493 7 "d"
           (plainEntry "dir" "d" "") (Some (mkFile 4 "d")) strictOptions true
           (mkWhiteoutHandler 3 "/root") "trusted.overlay.opaque" [121] 0 0 0 eq_refl).
Defined.

(** ** The order of the attribute calls *)

Lemma attrStages_app (st : attrStage) (l1 l2 : list sysname) :
  attrStages st (l1 ++ l2)
  = match attrStages st l1 with
    | Some st' => attrStages st' l2
    | None => None
    end.
Proof.
  revert st. induction l1 as [| n l1 IH]; intros st; [reflexivity |].
  cbn [app attrStages]. destruct (attrStep st n); [apply IH | reflexivity].
Qed.

Lemma staged_run {K A : Type} (post : A -> attrStage -> Prop) (h : kernel K) (p : prog A)
    (st : attrStage) :
  staged post st p ->
  forall (s : process K) evs s' r,
    run h p s = (evs, s', r) ->
    exists st', attrStages st (names evs) = Some st' /\ forall a, r = Some a -> post a st'.
Proof.
  induction 1 as [st a Ha | st st' X c k Hc _ IH | st k _ IH | st v k _ IH | st];
    intros s evs s' r Hrun; simpl in Hrun.
  - inversion Hrun; subst. exists st. split; [reflexivity |].
    intros a' E. inversion E; subst. exact Ha.
  - destruct (h X c (kern s)) as [x kn].
    destruct (run h (k x) _) as [[evs1 s1] r1] eqn:E1. inversion Hrun; subst.
    destruct (IH x _ _ _ _ E1) as (st1 & H1 & H2). exists st1. split; [| exact H2].
    unfold names. rewrite collect_cons. cbn [calledName app attrStages]. rewrite Hc. exact H1.
  - destruct (run h (k (skipOpenat2 s)) s) as [[evs1 s1] r1] eqn:E1. inversion Hrun; subst.
    destruct (IH _ _ _ _ _ E1) as (st1 & H1 & H2). exists st1. split; [exact H1 | exact H2].
  - destruct (run h k _) as [[evs1 s1] r1] eqn:E1. inversion Hrun; subst.
    destruct (IH _ _ _ _ E1) as (st1 & H1 & H2). exists st1. split; [exact H1 | exact H2].
  - inversion Hrun; subst. exists st. split; [reflexivity |]. intros a E. discriminate E.
Qed.

Lemma staged_bind {A B : Type} (mid : A -> attrStage -> Prop) (post : B -> attrStage -> Prop)
    (st : attrStage) (p : prog A) (f : A -> prog B) :
  staged mid st p -> (forall a st', mid a st' -> staged post st' (f a)) ->
  staged post st (bind p f).
Proof.
  intros Hp Hf. induction Hp; simpl; try (econstructor; eauto; fail). auto.
Qed.

(** Calls that are not attribute calls leave the stage as it is. *)
Lemma staged_other {A : Type} (st : attrStage) (p : prog A) :
  always (calls (fun n => negb (attribute n))) (fun _ => True) p ->
  staged (fun _ st' => st' = st) st p.
Proof.
  induction 1 as [a _ | X c k Hc _ IH | k _ IH | v k _ IH |].
  - constructor. reflexivity.
  - apply staged_Sys with (st' := st); [| exact IH].
    unfold calls in Hc. destruct c; simpl in Hc; try discriminate Hc; destruct st; reflexivity.
  - constructor. exact IH.
  - constructor. exact IH.
  - constructor.
Qed.

Lemma setXattrs_staged (xattrsToIgnore : string -> bool) (decode : string -> result (list Z))
    (fd : Z) (name : string) (xattrs : list (string * string)) :
  staged (fun _ st' => st' = AfterOwner) AfterOwner
    (setXattrs xattrsToIgnore decode fd name xattrs).
Proof.
  induction xattrs as [| [k v] rest IH]; cbn [setXattrs]; [constructor; reflexivity |].
  destruct (xattrsToIgnore k); [exact IH |].
  destruct (decode v) as [data | e]; [| constructor; reflexivity].
  cbn [bind call]. apply staged_Sys with (st' := AfterOwner); [reflexivity |].
  intro err. cbn [bind]. unfold unlessIgnorable.
  destruct err as [e |]; [| exact IH].
  destruct (canIgnore (Some e)); [exact IH | constructor; reflexivity].
Qed.

Lemma applyAttrs_staged (xattrsToIgnore : string -> bool) (decode : string -> result (list Z))
    (fd dirfd : Z) (baseName : string) (usePath : bool) (mode : Z) (metadata : fileMetadata)
    (options : TarOptions) :
  staged (fun r st' => r = None -> st' = AfterMode) BeforeOwner
    (applyAttrs xattrsToIgnore decode fd dirfd baseName usePath mode metadata options).
Proof.
  unfold applyAttrs.
  assert (Hafter :
            staged (fun (r : option error) st' => r = None -> st' = AfterMode) AfterOwner
              (r <- setXattrs xattrsToIgnore decode fd (Name (meta metadata))
                      (Xattrs (meta metadata)) ;;
               match r with
               | Some err => Ret (Some err)
               | None =>
                   err <- (if usePath
                           then call (unix_UtimesNanoAt dirfd baseName
                                        [timeToTimespec (AccessTime (meta metadata));
                                         timeToTimespec (ModTime (meta metadata))]
                                        unix.AT_SYMLINK_NOFOLLOW)
                           else call (unix_UtimesNanoAt unix.AT_FDCWD (procPathForFd fd)
                                        [timeToTimespec (AccessTime (meta metadata));
                                         timeToTimespec (ModTime (meta metadata))] 0)) ;;
                   unlessIgnorable err
                     (Errorf "set utimes for %q: %w" [ArgString (Name (meta metadata))])
                     (err <- (if usePath
                              then call (unix_Fchmodat dirfd baseName (to_uint32 mode)
                                           unix.AT_SYMLINK_NOFOLLOW)
                              else call (unix_Fchmod fd (to_uint32 mode))) ;;
                      unlessIgnorable err
                        (Errorf "chmod %q: %w" [ArgString (Name (meta metadata))])
                        (Ret None))
               end)).
  { eapply staged_bind; [apply setXattrs_staged |]. intros r st' ->.
    destruct r as [err |]; [constructor; intro H; discriminate H |].
    destruct usePath; cbn [bind call];
      (apply staged_Sys with (st' := AfterTimes); [reflexivity |]);
      intro err; cbn [bind]; unfold unlessIgnorable;
      (destruct err as [e |];
       [destruct (canIgnore (Some e)); [| constructor; intro H; discriminate H] |]);
      cbn [bind call];
      (apply staged_Sys with (st' := AfterMode); [reflexivity |]);
      intro err; cbn [bind];
      (destruct err as [e' |];
       [destruct (canIgnore (Some e')); constructor;
        first [reflexivity | intro H; discriminate H]
       | constructor; reflexivity]). }
  destruct usePath; cbn [bind call];
    (apply staged_Sys with (st' := AfterOwner); [reflexivity |]);
    intro err; cbn [bind];
    (destruct err as [e |];
     [destruct (negb (IgnoreChownErrors options));
      [constructor; intro H; discriminate H | exact Hafter]
     | exact Hafter]).
Qed.

Lemma staged_weaken {A : Type} (post post' : A -> attrStage -> Prop) (st : attrStage)
    (p : prog A) :
  staged post st p -> (forall a st', post a st' -> post' a st') -> staged post' st p.
Proof. intros Hp Hpost. induction Hp; econstructor; eauto. Qed.

Lemma opens_staged {A : Type} (st : attrStage) (p : prog A) :
  always opens (fun _ => True) p -> staged (fun _ st' => st' = st) st p.
Proof.
  intros Hp. apply staged_other. eapply always_weaken; [apply opens_not_attribute | | exact Hp].
  auto.
Qed.

(** X24: [setFileAttrs] sets attributes in one order: the owner first,
    then the extended attributes, then the times, and the mode last, each of
    owner, times and mode at most once.  This holds for the calls of every
    run, on every kernel, whether it ends with an error or not; and a run
    that returns nil for an entry that is not marked skip-attributes has made
    all of them, the mode included.  (A change of owner clears the set-id
    bits of the mode, so the mode has to come after it.) *)
Theorem setFileAttrs_attribute_order {K : Type} (h : kernel K) (s : process K)
    (typeToTarType : string -> Z * option error) (xattrsToIgnore : string -> bool)
    (decode : string -> result (list Z)) (depth : nat) (dirfd : Z) (file : option osFile)
    (mode : Z) (metadata : fileMetadata) (options : TarOptions) (usePath : bool) :
  let outcome := run h (setFileAttrs typeToTarType xattrsToIgnore decode depth dirfd file mode
                          metadata options usePath) s in
  exists st,
    attrStages BeforeOwner (names (fst (fst outcome))) = Some st /\
    (snd outcome = Some None -> skipSetAttrs metadata = false -> st = AfterMode).
Proof.
  intros outcome. subst outcome.
  assert (Hp : staged (fun (r : option error) st' =>
                         r = None -> skipSetAttrs metadata = false -> st' = AfterMode)
                 BeforeOwner
                 (setFileAttrs typeToTarType xattrsToIgnore decode depth dirfd file mode
                    metadata options usePath)).
  { unfold setFileAttrs.
    destruct (skipSetAttrs metadata); [constructor; intros _ H; discriminate H |].
    destruct (_ || _); [constructor; intro H; discriminate H |].
    destruct (typeToTarType (Type_ (meta metadata))) as [t err].
    destruct err as [e |]; [constructor; intro H; discriminate H |].
    destruct (if t =? tar_TypeSymlink then true else usePath).
    - destruct (negb _).
      + eapply staged_bind; [apply opens_staged, openFileUnderRoot_opens |].
        intros [parentFd err] st' ->. destruct err as [e |];
          [constructor; intro H; discriminate H |].
        eapply staged_bind; [apply applyAttrs_staged |]. intros r st' Hr.
        eapply staged_bind; [apply opens_staged, File_Close_opens |]. intros c st'' ->.
        constructor. intros Hnil _. exact (Hr Hnil).
      + eapply staged_weaken; [apply applyAttrs_staged |]. intros r st' Hr Hnil _.
        exact (Hr Hnil).
    - eapply staged_weaken; [apply applyAttrs_staged |]. intros r st' Hr Hnil _.
      exact (Hr Hnil). }
  destruct (run h _ s) as [[evs s'] r] eqn:E.
  destruct (staged_run _ h _ _ Hp s evs s' r E) as (st & Hst & Hpost).
  exists st. split; [exact Hst |]. cbn [snd]. intros Hr. exact (Hpost None Hr eq_refl).
Qed.

(** ** The last element of a name that must not be followed *)

(** X25: with [O_NOFOLLOW], the fallback never resolves the last element
    of the name.  In every run, [SecureJoin] is applied to the directory part
    of the name only, under the root's path in /proc/self/fd; the one
    [openat] of the run opens the last element, with the flags
    ([O_NOFOLLOW] included) and the mode of the caller, relative to the
    descriptor that [open] returned for the directory that [SecureJoin]
    resolved (for the root itself when the name has no directory part); and
    a descriptor returned without error is the one this [openat]
    returned. *)
Theorem openFileUnderRootFallback_nofollow {K : Type} (h : kernel K) (dirfd : Z)
    (name : string) (flags mode : Z) (s : process K) evs s' r :
  Z.land flags unix.O_NOFOLLOW <> 0 ->
  run h (openFileUnderRootFallback dirfd name flags mode) s = (evs, s', r) ->
  let dirName := fst (filepath_Split name) in
  let baseName := snd (filepath_Split name) in
  (forall root p a,
      In (root, p, a) (collect secureJoinOf evs) -> root = procPathForFd dirfd /\ p = dirName) /\
  (forall d p fl m a,
      In (d, p, fl, m, a) (collect openatOf evs) ->
      collect openatOf evs = [(d, baseName, to_int flags, to_uint32 mode, a)] /\
      exists root,
        collect openOf evs = [(root, Z.lor unix.O_PATH unix.O_CLOEXEC, Ok d)] /\
        (collect secureJoinOf evs = [(procPathForFd dirfd, dirName, Ok root)] \/
         (root = procPathForFd dirfd /\ collect secureJoinOf evs = []))) /\
  (forall fd, r = Some (fd, None) ->
              exists d, collect openatOf evs
                        = [(d, baseName, to_int flags, to_uint32 mode, Ok fd)]).
Proof.
  intros Hflag Hrun dirName baseName. subst dirName baseName.
  unfold openFileUnderRootFallback, checkUnderRoot in Hrun.
  apply Z.eqb_neq in Hflag. rewrite Hflag in Hrun. cbn [negb] in Hrun.
  destruct (filepath_Split name) as [dirName baseName]. cbn [fst snd].
  run_cases Hrun h; inversion Hrun; subst; clear Hrun.
  all: cbn [collect flat_map app secureJoinOf openatOf openOf].
  all: repeat split.
  all: repeat match goal with
         | H : In _ [] |- _ => destruct H
         | H : In _ [_] |- _ => destruct H as [H | []]; inversion H; subst; clear H
         | H : Some _ = Some (_, None) |- _ => inversion H; subst; clear H
         | H : None = Some _ |- _ => discriminate H
         end.
  all: try reflexivity.
  all: try (eexists; split; [reflexivity |];
            first [left; reflexivity | right; split; reflexivity]).
  all: intros fd E; inversion E; subst; eexists; reflexivity.
Qed.

Lemma openFileUnderRootFallback_nofollow_witness :
  let evs :=
    fst (fst (run replay (openFileUnderRootFallback 3 "a/b" unix.O_NOFOLLOW 0)
                (mkProcess [Str (Ok "/root"); Str (Ok "/root/a"); Int (Ok 4); Int (Ok 5);
                            Str (Ok "/root/a/b"); Status None] 1))) in
  let dirName := fst (filepath_Split "a/b") in
  let baseName := snd (filepath_Split "a/b") in
  (forall root p a,
      In (root, p, a) (collect secureJoinOf evs) -> root = procPathForFd 3 /\ p = dirName) /\
  (forall d p fl m a,
      In (d, p, fl, m, a) (collect openatOf evs) ->
      collect openatOf evs = [(d, baseName, to_int unix.O_NOFOLLOW, to_uint32 0, a)] /\
      exists root,
        collect openOf evs = [(root, Z.lor unix.O_PATH unix.O_CLOEXEC, Ok d)] /\
        (collect secureJoinOf evs = [(procPathForFd 3, dirName, Ok root)] \/
         (root = procPathForFd 3 /\ collect secureJoinOf evs = []))) /\
  (forall fd, Some (5, @None error) = Some (fd, None) ->
              exists d, collect openatOf evs
                        = [(d, baseName, to_int unix.O_NOFOLLOW, to_uint32 0, Ok fd)]).
Proof.
  refine (openFileUnderRootFallback_nofollow replay 3 "a/b" unix.O_NOFOLLOW 0
            (mkProcess [Str (Ok "/root"); Str (Ok "/root/a"); Int (Ok 4); Int (Ok 5);
                        Str (Ok "/root/a/b"); Status None] 1)
            _ _ _ _ eq_refl).
  vm_compute. discriminate.
Defined.

(** ** Paths under /proc/self/fd *)

Lemma itoa_injective (a b : Z) : itoa a = itoa b -> a = b.
Proof.
  assert (Hnil : forall z, Z.to_int z <> Decimal.Pos Decimal.Nil /\
                           Z.to_int z <> Decimal.Neg Decimal.Nil).
  { intros [| p | p]; cbn; split; try discriminate;
      intros E; inversion E as [E'];
      exact (DecimalPos.Unsigned.to_uint_nonnil p E'). }
  unfold itoa. intros H.
  apply (f_equal NilZero.int_of_string) in H.
  rewrite !NilZero.isi in H by apply Hnil.
  inversion H as [H']. apply (f_equal Z.of_int) in H'.
  rewrite !DecimalZ.of_to in H'. exact H'.
Qed.

(** X26: [procPathForFd] names each descriptor by a path of its own under
    /proc/self/fd: two descriptors have the same path only if they are the
    same descriptor, so what is read or changed through the path is what the
    descriptor refers to; and [procPathForFile] gives the path of the
    descriptor that an open file holds. *)
Theorem procPathForFd_injective (a b : Z) :
  (procPathForFd a = procPathForFd b <-> a = b) /\
  strings_HasPrefix (procPathForFd a) "/proc/self/fd/" = true /\
  (forall name, validFd a -> procPathForFile (Some (mkFile a name)) = procPathForFd a).
Proof.
  split; [split |].
  - unfold procPathForFd. intros H. cbn in H. inversion H as [H']. exact (itoa_injective a b H').
  - intros ->. reflexivity.
  - split.
    + unfold strings_HasPrefix, procPathForFd. cbn. destruct (itoa a); reflexivity.
    + intros name [H0 H1]. unfold procPathForFile, File_Fd, to_int, to_uintptr. cbn [sysfd].
      unfold maxInt64 in H1. rewrite Z.mod_small by lia.
      rewrite to_int64_in_range by (unfold maxInt64; lia). reflexivity.
Qed.

(** ** The recursion on the parent directory *)

Lemma filepath_Dir_not_empty (name : string) :
  negb (String.eqb (filepath_Dir name) "") = true.
Proof.
  unfold filepath_Dir, filepath_Clean.
  destruct (list_ascii_of_string (fst (filepath_Split name))) as [| c0 l]; [reflexivity |].
  destruct (Ascii.eqb c0 slash); [reflexivity |].
  destruct (joinElements _) as [| c1 l1]; reflexivity.
Qed.

(** X27: the recursion of [openOrCreateDirUnderRoot] has no end of its
    own.  [filepath.Dir] never returns the empty string (the parent of ["."]
    is ["."]), so the test on the parent's name never stops it: on a kernel
    where every [openat2] under the root answers [ENOENT], the function does
    not return, however deep the stack may grow, and Go ends the process
    with a stack overflow. *)
Theorem openOrCreateDirUnderRoot_unbounded {K : Type} (h : kernel K) (dirfd : Z)
    (name : string) (mode : Z) :
  (forall d n how k, fst (h _ (unix_Openat2 d n how) k) = Err (Errno unix.ENOENT)) ->
  name <> "" ->
  forall (depth : nat) (s : process K),
    skipOpenat2 s <= 0 ->
    snd (run h (openOrCreateDirUnderRoot depth dirfd name mode) s) = None.
Proof.
  intros Hnoent Hname depth. revert name Hname.
  induction depth as [| depth IH]; intros name Hname s Hflag; [reflexivity |].
  cbn [openOrCreateDirUnderRoot]. rewrite run_bind.
  unfold openFileUnderRootRaw at 1.
  destruct (String.eqb name "") eqn:En; [apply String.eqb_eq in En; contradiction |].
  unfold atomic_LoadInt32_skipOpenat2, openFileUnderRootOpenat2. cbn [bind call run].
  rewrite Z.gtb_ltb, (proj2 (Z.ltb_ge 0 (skipOpenat2 s)) Hflag).
  cbn [bind call run].
  pose proof (Hnoent dirfd name
                (mkOpenHow (Z.lor unix.O_DIRECTORY unix.O_RDONLY)
                   (to_uint64 (Z.land 0 4095)) unix.RESOLVE_IN_ROOT) (kern s)) as Hx.
  destruct (h _ _ (kern s)) as [x kn]. cbn [fst] in Hx. subst x.
  cbn -[openOrCreateDirUnderRoot filepath_Dir filepath_Base openFileUnderRootRaw File_Close].
  rewrite filepath_Dir_not_empty.
  cbn -[openOrCreateDirUnderRoot filepath_Dir filepath_Base openFileUnderRootRaw File_Close].
  rewrite run_bind.
  assert (Hparent : filepath_Dir name <> "").
  { intros E. pose proof (filepath_Dir_not_empty name) as H. rewrite E in H. discriminate H. }
  pose proof (IH (filepath_Dir name) Hparent (mkProcess kn (skipOpenat2 s)) Hflag) as Hrec.
  destruct (run h (openOrCreateDirUnderRoot depth dirfd (filepath_Dir name) mode) _)
    as [[e1 s1] r1].
  cbn [snd] in Hrec. subst r1. reflexivity.
Qed.

Lemma openOrCreateDirUnderRoot_unbounded_witness :
  snd (run (answeringAll (Int (Err (Errno unix.ENOENT))))
         (openOrCreateDirUnderRoot 40 3 "a/b" 0) (mkProcess tt 0))
  = None.
Proof.
  refine (openOrCreateDirUnderRoot_unbounded (answeringAll (Int (Err (Errno unix.ENOENT))))
            3 "a/b" 0 _ _ 40%nat (mkProcess tt 0) _).
  - intros d n how k. reflexivity.
  - discriminate.
  - cbn. lia.
Defined.

(** ** Every [openat2] is confined to the root *)

Lemma permission_bits (mode : Z) : 0 <= to_uint64 (Z.land mode 4095) < 4096.
Proof.
  change 4095 with (Z.ones 12). rewrite Z.land_ones by lia. unfold to_uint64.
  pose proof (Z.mod_pos_bound mode (2 ^ 12) ltac:(lia)) as H.
  rewrite Z.mod_small; lia.
Qed.

Lemma openFileUnderRootRaw_confined (dirfd : Z) (name : string) (flags mode : Z) :
  always confined (fun _ => True) (openFileUnderRootRaw dirfd name flags mode).
Proof.
  unfold openFileUnderRootRaw, openFileUnderRootOpenat2, openFileUnderRootFallback,
    checkUnderRoot.
  always_auto; try (split; [reflexivity | apply permission_bits]).
Qed.

Lemma File_Close_confined (f : option osFile) :
  always confined (fun _ => True) (File_Close f).
Proof. unfold File_Close. always_auto. Qed.

Lemma openOrCreateDirUnderRoot_confined (depth : nat) (dirfd : Z) (name : string) (mode : Z) :
  always confined (fun _ => True) (openOrCreateDirUnderRoot depth dirfd name mode).
Proof.
  revert dirfd name. induction depth as [| depth IH]; intros dirfd name;
    cbn [openOrCreateDirUnderRoot]; [constructor |].
  always_auto; try apply openFileUnderRootRaw_confined; try apply File_Close_confined;
    try apply IH.
Qed.

Lemma openFileUnderRoot_confined (depth : nat) (dirfd : Z) (name : string) (flags mode : Z) :
  always confined (fun _ => True) (openFileUnderRoot depth dirfd name flags mode).
Proof.
  unfold openFileUnderRoot.
  always_auto; try apply openFileUnderRootRaw_confined; try apply File_Close_confined;
    try apply openOrCreateDirUnderRoot_confined.
Qed.

Lemma setXattrs_confined (xattrsToIgnore : string -> bool) (decode : string -> result (list Z))
    (fd : Z) (name : string) (xattrs : list (string * string)) :
  always confined (fun _ => True) (setXattrs xattrsToIgnore decode fd name xattrs).
Proof.
  induction xattrs as [| [k v] rest IH]; cbn [setXattrs]; [constructor; exact I |].
  unfold unlessIgnorable. always_auto; try exact IH.
Qed.

Ltac confined_calls :=
  always_auto;
  try apply openFileUnderRoot_confined; try apply openOrCreateDirUnderRoot_confined;
  try apply File_Close_confined; try apply setXattrs_confined.

Lemma setFileAttrs_confined (typeToTarType : string -> Z * option error)
    (xattrsToIgnore : string -> bool) (decode : string -> result (list Z)) (depth : nat)
    (dirfd : Z) (file : option osFile) (mode : Z) (metadata : fileMetadata)
    (options : TarOptions) (usePath : bool) :
  always confined (fun _ => True)
    (setFileAttrs typeToTarType xattrsToIgnore decode depth dirfd file mode metadata options
       usePath).
Proof. unfold setFileAttrs, applyAttrs, unlessIgnorable. confined_calls. Qed.

(** X28: every [openat2] that the file makes is confined to the directory
    it is given.  In every run of [openFileUnderRootRaw],
    [openOrCreateDirUnderRoot], [openFileUnderRoot], [copyFileContent],
    [setFileAttrs], [safeMkdir], [safeLink], [safeSymlink] and of the three
    methods of [whiteoutHandler], on every kernel, each [openat2] call
    resolves with [RESOLVE_IN_ROOT] and passes a mode that holds permission
    bits only (at most 0o7777). *)
Theorem every_openat2_is_confined {K : Type} (h : xkernel K) (s : process K)
    (newFileFlags : Z) (typeToTarType : string -> Z * option error)
    (xattrsToIgnore : string -> bool) (decode : string -> result (list Z)) (depth : nat)
    (dirfd flags mode srcFd : Z) (name : string) (fileMeta : fileMetadata)
    (file : option osFile) (options : TarOptions) (flag : bool) (d : whiteoutHandler)
    (attr : string) (value : list Z) (dev uid gid : Z) :
  let ok := fun (A : Type) (p : prog A) =>
    Forall (eventOk confined) (fst (fst (run (restrict h) p s))) in
  let xok := fun (A : Type) (q : xprog A) =>
    Forall (eventOk confined) (baseEvents (fst (fst (xrun h q s)))) in
  ok _ (openFileUnderRootRaw dirfd name flags mode) /\
  ok _ (openOrCreateDirUnderRoot depth dirfd name mode) /\
  ok _ (openFileUnderRoot depth dirfd name flags mode) /\
  ok _ (copyFileContent newFileFlags depth srcFd fileMeta dirfd mode flag) /\
  ok _ (setFileAttrs typeToTarType xattrsToIgnore decode depth dirfd file mode fileMeta
          options flag) /\
  ok _ (safeMkdir typeToTarType xattrsToIgnore decode depth dirfd mode name fileMeta options) /\
  ok _ (safeLink typeToTarType xattrsToIgnore decode depth dirfd mode fileMeta options) /\
  ok _ (whiteoutHandler_Setxattr depth d name attr value) /\
  xok _ (safeSymlink depth dirfd mode fileMeta options) /\
  xok _ (whiteoutHandler_Mknod depth d name mode dev) /\
  xok _ (whiteoutHandler_Chown depth d name uid gid).
Proof.
  intros ok xok.
  assert (Hok : forall (A : Type) (p : prog A), always confined (fun _ => True) p -> ok A p).
  { intros A p Hp. unfold ok. destruct (run (restrict h) p s) as [[evs s'] r] eqn:E.
    exact (proj1 (always_run _ _ (restrict h) p Hp s evs s' r E)). }
  assert (Hx : forall (A : Type) (q : xprog A),
             built (fun A p => always confined (fun _ => True) p) A q -> xok A q).
  { intros A q Hbuilt. unfold xok. destruct (xrun h q s) as [[evs s'] r] eqn:E.
    refine (proj2 (built_run h (fun A p => always confined (fun _ => True) p) (fun _ => True)
                     (Forall (eventOk confined)) (Forall_nil _) _ _ A q Hbuilt s evs s' r
                     I E)).
    - intros e1 e2 H1 H2. apply Forall_app. split; assumption.
    - intros B p Hp s0 e0 s0' r0 _ Hrun. split; [exact I |].
      exact (proj1 (always_run _ _ (restrict h) p Hp s0 e0 s0' r0 Hrun)). }
  assert (Hparts :
            (forall depth dirfd name mode,
                always confined (fun _ => True)
                  (openOrCreateDirUnderRoot depth dirfd name mode)) /\
            (forall depth dirfd name flags mode,
                always confined (fun _ => True)
                  (openFileUnderRoot depth dirfd name flags mode)) /\
            (forall f, always confined (fun _ => True) (File_Close f)) /\
            (forall dirfd' path uid' gid' flags,
                always confined (fun _ => True)
                  (call (unix_Fchownat dirfd' path uid' gid' flags)))).
  { split; [exact openOrCreateDirUnderRoot_confined |].
    split; [exact openFileUnderRoot_confined |].
    split; [exact File_Close_confined |].
    intros. always_auto. }
  destruct Hparts as (H1 & H2 & H3 & H4).
  split; [apply Hok, openFileUnderRootRaw_confined |].
  split; [apply Hok, openOrCreateDirUnderRoot_confined |].
  split; [apply Hok, openFileUnderRoot_confined |].
  split; [apply Hok; unfold copyFileContent, copyToFreshFile, doHardLink; confined_calls |].
  split; [apply Hok, setFileAttrs_confined |].
  split; [apply Hok; unfold safeMkdir; confined_calls; apply setFileAttrs_confined |].
  split; [apply Hok; unfold safeLink, linkAndSetAttrs, doHardLink; confined_calls;
          apply setFileAttrs_confined |].
  split; [apply Hok; unfold whiteoutHandler_Setxattr; confined_calls |].
  split; [apply Hx, safeSymlink_built; assumption |].
  split; [apply Hx, whiteoutHandler_Mknod_built; assumption |].
  apply Hx, whiteoutHandler_Chown_built; assumption.
Qed.

(** ** Copies without deduplication *)

(** X29: without [useHardLinks], [copyFileContent] links nothing and
    leaves the entry as it is: no run makes a [linkat] or an [unlinkat], and
    the entry that comes back is the one that was given, its skip-attributes
    mark unchanged; the calls of the run are the [stat] of the source, those
    that open and close under the root, and the copy. *)
Theorem copyFileContent_without_hard_links {K : Type} (h : kernel K) (s : process K)
    (newFileFlags : Z) (depth : nat) (srcFd : Z) (fileMeta : fileMetadata) (dirfd mode : Z) :
  let outcome := run h (copyFileContent newFileFlags depth srcFd fileMeta dirfd mode false) s in
  forallb (fun n => negb (linking n)) (names (fst (fst outcome))) = true /\
  forallb (fun n => opening n || match n with
                                 | N_Stat | N_CopyRegularToFile => true
                                 | _ => false
                                 end) (names (fst (fst outcome))) = true /\
  match snd outcome with
  | Some (md', _) => md' = fileMeta
  | None => True
  end.
Proof.
  intros outcome. subst outcome.
  destruct (run h _ s) as [[evs s'] r] eqn:E. cbn [fst snd].
  assert (Hcalls : always (calls (fun n => opening n || match n with
                                                       | N_Stat | N_CopyRegularToFile => true
                                                       | _ => false
                                                       end))
                     (fun r : fileMetadata * (option osFile * Z * option error) =>
                        fst r = fileMeta)
                     (copyFileContent newFileFlags depth srcFd fileMeta dirfd mode false)).
  { unfold copyFileContent, copyToFreshFile. always_auto; try reflexivity.
    all: eapply always_weaken; [| intros ? _; exact I
                                | first [apply openFileUnderRoot_opens
                                        | apply File_Close_opens]].
    all: intros X c Hc; unfold opens in Hc; unfold calls; rewrite Hc; reflexivity. }
  pose proof (always_run _ _ h _ Hcalls s evs s' r E) as [Hall Hpost].
  split; [| split].
  - clear - Hall. induction Hall as [| e evs He _ IH]; [reflexivity |].
    unfold names in *. rewrite collect_cons.
    destruct e as [X c x | v | v]; simpl; [| exact IH | exact IH].
    rewrite IH. unfold calls in He. simpl in He.
    destruct (nameOf c); simpl in He; try discriminate He; reflexivity.
  - exact (always_names _ h _ s evs s' r
             (always_weaken _ _ _ _ _ (fun X c H => H) (fun a _ => I) Hcalls) E).
  - destruct r as [[md' res] |]; [| exact I]. exact (Hpost _ eq_refl).
Qed.
